(** * Role based access control: permission resolution and its cache

    A shallow embedding of [pkg/services/accesscontrol/acimpl/service.go]:
    the service that resolves the permissions of a principal from the basic
    roles held in memory, the grants of the store and a cache of permission
    slices, and that searches the permissions of the users of an organisation.

    Go values are modelled as follows.
    - [int64] and [time.Duration] are [Z]; the only arithmetic on them is the
      range check of [strconv.ParseInt], which is written out.
    - A [string] is a [string] of bytes.
    - A slice is a [list]; the nil slice is [[]].
    - A Go map is a [gmap]; a [range] over a map visits [map_to_list], one of
      the orders Go may choose.  The theorems compare the slices built by
      such a loop as multisets and the maps built by it key by key, so they
      hold for every order.
    - A function returning [(v, err)] returns the pair [(v, err)] with
      [err : option error], [None] being the nil error.
    - The service reads and writes its cache, calls the store and counts
      cache hits and misses: these effects are threaded through a state
      monad over [World]. *)

From Stdlib Require Import ZArith Lia Ascii.
From stdpp Require Import base gmap strings list fin_maps pretty.

Open Scope Z_scope.

(** ** Strings: the functions of Go's [strings] and [strconv] the service calls *)

Module strings.

(** [strings.HasPrefix(s, prefix)]. *)
Definition HasPrefix (s prefix : string) : bool := String.prefix prefix s.

(** [strings.HasSuffix(s, suffix)]:
    [len(s) >= len(suffix) && s[len(s)-len(suffix):] == suffix]. *)
Definition HasSuffix (s suffix : string) : bool :=
  (String.length suffix <=? String.length s)%nat &&
  String.eqb
    (String.substring (String.length s - String.length suffix)
                      (String.length suffix) s)
    suffix.

(** [strings.Split(s, sep)] for a separator of one byte, the only one the
    service uses: the pieces of [s] between the occurrences of [sep];
    [cur] is the piece being read. *)
Fixpoint splitFrom (sep : ascii) (cur : string) (s : string) : list string :=
  match s with
  | EmptyString => [cur]
  | String c rest =>
      if Ascii.eqb c sep
      then cur :: splitFrom sep EmptyString rest
      else splitFrom sep (cur +:+ String c EmptyString) rest
  end.

Definition Split (s : string) (sep : ascii) : list string :=
  splitFrom sep EmptyString s.

End strings.

(** ** Errors *)

(** The [Err] field of a [*strconv.NumError]. *)
Inductive numErr := ErrSyntax | ErrRange.

(** The error values that flow through the service: the role lookup's
    [accesscontrol.ErrRoleNotFound], the [*strconv.NumError] of a failed
    parse, the errors built by [fmt.Errorf] (format, integer arguments and
    the wrapped error of a [%w] verb) and the errors of the collaborators,
    which the service only hands on. *)
#[warnings="-register-all"] Inductive error :=
| ErrRoleNotFound
| NumError (Func Num : string) (Err : numErr)
| Errorf (format : string) (args : list Z) (wrapped : option error)
| ExternalError (msg : string).

#[global] Instance numErr_eq_dec : EqDecision numErr.
Proof. solve_decision. Defined.

(** A Go result [(v, err)]. *)
Definition Result (A : Type) : Type := A * option error.

Module strconv.

Definition maxUint64 : Z := 2 ^ 64 - 1.

Definition isDigit (c : ascii) : bool :=
  (48 <=? Z.of_nat (nat_of_ascii c)) && (Z.of_nat (nat_of_ascii c) <=? 57).

(** The loop of [strconv.ParseUint(s, 10, 64)] over the bytes of [s], [n]
    being the value read so far.  A byte that is no decimal digit is a
    syntax error; a value beyond [maxUint64] is a range error, reported
    with [maxUint64], as soon as it is reached. *)
Fixpoint parseUintFrom (s : string) (n : Z) : Z * option numErr :=
  match s with
  | EmptyString => (n, None)
  | String c rest =>
      if isDigit c then
        let d := Z.of_nat (nat_of_ascii c) - 48 in
        if maxUint64 / 10 + 1 <=? n then (maxUint64, Some ErrRange)
        else
          let n1 := n * 10 + d in
          if maxUint64 <? n1 then (maxUint64, Some ErrRange)
          else parseUintFrom rest n1
      else (0, Some ErrSyntax)
  end.

Definition ParseUint10 (s : string) : Z * option numErr :=
  match s with
  | EmptyString => (0, Some ErrSyntax)
  | _ => parseUintFrom s 0
  end.

(** [strconv.ParseInt(s, 10, 64)]: an optional sign, then the digits; the
    value must fit in 64 bits. *)
Definition ParseInt (s : string) : Result Z :=
  match s with
  | EmptyString => (0, Some (NumError "ParseInt" s ErrSyntax))
  | String c rest =>
      let neg := Ascii.eqb c "-"%char in
      let digits :=
        if Ascii.eqb c "+"%char then rest else if neg then rest else s in
      match ParseUint10 digits with
      | (_, Some ErrSyntax) => (0, Some (NumError "ParseInt" s ErrSyntax))
      | (un, _) =>
          let cutoff := 2 ^ 63 in
          if negb neg && (cutoff <=? un)
          then (cutoff - 1, Some (NumError "ParseInt" s ErrRange))
          else if neg && (cutoff <? un)
          then (- cutoff, Some (NumError "ParseInt" s ErrRange))
          else (if neg then - un else un, None)
      end
  end.

End strconv.

(** ** The data model of package [accesscontrol] *)

Module Permission.
Record t := mk { Action : string; Scope : string }.
End Permission.
Abbreviation Permission := Permission.t.

#[global] Instance Permission_eq_dec : EqDecision Permission.
Proof. solve_decision. Defined.

Module RoleDTO.
Record t := mk {
  Name : string;
  DisplayName : string;
  Description : string;
  Permissions : list Permission
}.
End RoleDTO.
Abbreviation RoleDTO := RoleDTO.t.

Module RoleRegistration.
Record t := mk { Role : RoleDTO; Grants : list string }.
End RoleRegistration.
Abbreviation RoleRegistration := RoleRegistration.t.

(** [accesscontrol.RegistrationList]: the registrations in the order they
    were appended.  [Range] calls [f] on each of them in turn until [f]
    answers [false]; [f] is a closure, and [S] is the state of the variables
    it captures. *)
Definition RegistrationList := list RoleRegistration.

Fixpoint Range {S : Type} (l : RegistrationList)
    (f : RoleRegistration → S → S * bool) (captured : S) : S :=
  match l with
  | [] => captured
  | registration :: rest =>
      let '(captured, continue) := f registration captured in
      if continue then Range rest f captured else captured
  end.

Module GetUserPermissionsQuery.
Record t := mk {
  OrgID : Z;
  UserID : Z;
  Roles : list string;
  TeamIDs : list Z;
  RolePrefixes : list string
}.
End GetUserPermissionsQuery.
Abbreviation GetUserPermissionsQuery := GetUserPermissionsQuery.t.

Record Options := { ReloadCache : bool }.

Module SearchOptions.
Record t := mk {
  ActionPrefix : string;
  Action : string;
  Scope : string;
  NamespacedID : string;
  RolePrefixes : list string
}.
End SearchOptions.
Abbreviation SearchOptions := SearchOptions.t.

(** The assignment [options.RolePrefixes = rolePrefixes]. *)
Definition withRolePrefixes (options : SearchOptions)
    (rolePrefixes : list string) : SearchOptions :=
  {| SearchOptions.ActionPrefix := SearchOptions.ActionPrefix options;
     SearchOptions.Action := SearchOptions.Action options;
     SearchOptions.Scope := SearchOptions.Scope options;
     SearchOptions.NamespacedID := SearchOptions.NamespacedID options;
     SearchOptions.RolePrefixes := rolePrefixes |}.

(** [identity.Requester] is an interface; a principal is what its methods
    answer. *)
Record Requester := {
  GetOrgID : Z;
  GetOrgRole : string;
  GetIsGrafanaAdmin : bool;
  GetNamespacedID : string * string;
  GetTeams : list Z;
  HasUniqueId : bool;
  GetPermissions : gmap string (list string)
}.

Inductive FeatureFlag :=
| FlagNestedFolders
| FlagAccessControlOnCall
| FlagExternalServiceAccounts.

(** [accesscontrol.Store], the interface to the stored grants.  A store
    answers a query; it is not changed by the calls modelled here. *)
Module Store.
Record t := mk {
  GetUserPermissions : GetUserPermissionsQuery → Result (list Permission);
  GetBasicRolesPermissions :
    GetUserPermissionsQuery → Result (list Permission);
  GetTeamsPermissions :
    GetUserPermissionsQuery → Result (gmap Z (list Permission));
  SearchUsersPermissions :
    Z → SearchOptions → Result (gmap Z (list Permission));
  GetUsersBasicRoles : list Z → Z → Result (gmap Z (list string))
}.
End Store.
Abbreviation Store := Store.t.

(** The calls a store receives, as they are logged in the [World]. *)
Inductive StoreCall :=
| CallGetUserPermissions (query : GetUserPermissionsQuery)
| CallGetBasicRolesPermissions (query : GetUserPermissionsQuery)
| CallGetTeamsPermissions (query : GetUserPermissionsQuery)
| CallSearchUsersPermissions (orgID : Z) (options : SearchOptions)
| CallGetUsersBasicRoles (userFilter : list Z) (orgID : Z).

(** ** What the service imports from packages that are not part of this
    development

    The constants and functions of [accesscontrol], [authn], [identity],
    [dashboards] and [user] that [service.go] uses.  Nothing is assumed of
    them here; a theorem that needs one of their properties states it. *)
Class Imports := {
  (** [authn.NamespaceUser], [authn.NamespaceServiceAccount] *)
  NamespaceUser : string;
  NamespaceServiceAccount : string;
  (** [identity.UserIdentifier(namespace, identifier)] *)
  UserIdentifier : string → string → Result Z;
  (** [accesscontrol.ManagedRolePrefix], [ExternalServiceRolePrefix] *)
  ManagedRolePrefix : string;
  ExternalServiceRolePrefix : string;
  (** [accesscontrol.ActionUsersPermissionsRead] *)
  ActionUsersPermissionsRead : string;
  (** [dashboards.ActionFoldersRead] and the scope
      [dashboards.ScopeFoldersProvider.GetResourceScopeUID(folder.SharedWithMeFolderUID)] *)
  ActionFoldersRead : string;
  ScopeSharedWithMeFolder : string;
  (** [accesscontrol.GetOrgRoles(user)] *)
  GetOrgRoles : Requester → list string;
  (** the cache keys of [accesscontrol] *)
  GetPermissionCacheKey : Requester → string;
  GetUserDirectPermissionCacheKey : Requester → string;
  GetBasicRolePermissionCacheKey : string → Z → string;
  GetTeamPermissionCacheKey : Z → Z → string;
  (** the methods [Wildcards()] and [ComputeUserID()] of [SearchOptions] *)
  Wildcards : SearchOptions → list string;
  ComputeUserID : SearchOptions → Result Z;
  (** [&user.SignedInUser{UserID: userID, OrgID: orgID}] as a requester *)
  SignedInUser : Z → Z → Requester
}.

(** ** The cache and the world the service runs in *)

(** [time.Second], in nanoseconds, and the service's [cacheTTL]. *)
Definition Second : Z := 1000000000.
Definition cacheTTL : Z := 60 * Second.

(** An entry of [localcache.CacheService]: the slice stored and the time to
    live it was stored with.  No time passes during a call of the service:
    an entry that is present is read back. *)
Record CacheItem := { Object : list Permission; Expiration : Z }.

(** The labels of the counter [metrics.MAccessPermissionsCacheUsage] and
    [metrics.MAccessSearchUserPermissionsCacheUsage]. *)
Record CacheUsage := { CacheHit : nat; CacheMiss : nat }.

Record World := {
  cache : gmap string CacheItem;
  storeCalls : list StoreCall;
  permissionsCacheUsage : CacheUsage;
  searchCacheUsage : CacheUsage
}.

(** Updates of one component of the world. *)
Definition withCache (f : gmap string CacheItem → gmap string CacheItem)
    (w : World) : World :=
  {| cache := f (cache w);
     storeCalls := storeCalls w;
     permissionsCacheUsage := permissionsCacheUsage w;
     searchCacheUsage := searchCacheUsage w |}.

Definition withStoreCalls (f : list StoreCall → list StoreCall)
    (w : World) : World :=
  {| cache := cache w;
     storeCalls := f (storeCalls w);
     permissionsCacheUsage := permissionsCacheUsage w;
     searchCacheUsage := searchCacheUsage w |}.

Definition withPermissionsCacheUsage (f : CacheUsage → CacheUsage)
    (w : World) : World :=
  {| cache := cache w;
     storeCalls := storeCalls w;
     permissionsCacheUsage := f (permissionsCacheUsage w);
     searchCacheUsage := searchCacheUsage w |}.

Definition withSearchCacheUsage (f : CacheUsage → CacheUsage)
    (w : World) : World :=
  {| cache := cache w;
     storeCalls := storeCalls w;
     permissionsCacheUsage := permissionsCacheUsage w;
     searchCacheUsage := f (searchCacheUsage w) |}.

Definition M (A : Type) : Type := World → A * World.

#[global] Instance M_ret : MRet M := λ A a w, (a, w).
#[global] Instance M_bind : MBind M := λ A B f m w,
  let '(a, w') := m w in f a w'.

Module Cache.
(** [cache.Get(key)]: the value and whether it was found. *)
Definition Get (key : string) : M (option (list Permission)) :=
  λ w, (Object <$> cache w !! key, w).

(** [cache.Set(key, value, ttl)]. *)
Definition Set_ (key : string) (value : list Permission) (ttl : Z) : M unit :=
  λ w, (tt, withCache <[key := {| Object := value; Expiration := ttl |}]> w).

(** [cache.Delete(key)]. *)
Definition Delete (key : string) : M unit :=
  λ w, (tt, withCache (delete key) w).
End Cache.

Definition incHit (u : CacheUsage) : CacheUsage :=
  {| CacheHit := S (CacheHit u); CacheMiss := CacheMiss u |}.
Definition incMiss (u : CacheUsage) : CacheUsage :=
  {| CacheHit := CacheHit u; CacheMiss := S (CacheMiss u) |}.

(** [metrics.MAccessPermissionsCacheUsage.WithLabelValues(label).Inc()]. *)
Definition permissionsCacheUsageInc (inc : CacheUsage → CacheUsage) : M unit :=
  λ w, (tt, withPermissionsCacheUsage inc w).

(** [metrics.MAccessSearchUserPermissionsCacheUsage.WithLabelValues(label).Inc()]. *)
Definition searchCacheUsageInc (inc : CacheUsage → CacheUsage) : M unit :=
  λ w, (tt, withSearchCacheUsage inc w).

(** A call of the store: its answer, and the call logged. *)
Definition callStore {A : Type} (call : StoreCall) (answer : A) : M A :=
  λ w, (answer, withStoreCalls (λ calls, calls ++ [call]) w).

Module slices.
(** [slices.Contains(s, v)] on strings. *)
Definition Contains (s : list string) (v : string) : bool :=
  existsb (String.eqb v) s.
End slices.

(** ** The service *)

Record Service := {
  (** [s.cfg.RBACPermissionCache] *)
  cfg_RBACPermissionCache : bool;
  (** [s.features.IsEnabled(ctx, flag)] *)
  features : FeatureFlag → bool;
  registrations : RegistrationList;
  (** [s.roles]: the basic roles, by name *)
  roles : gmap string RoleDTO;
  store : Store
}.

Section Service.
Context `{Imports}.

Definition OSSRolesPrefixes : list string :=
  [ManagedRolePrefix; ExternalServiceRolePrefix].

Definition SharedWithMeFolderPermission : Permission :=
  {| Permission.Action := ActionFoldersRead;
     Permission.Scope := ScopeSharedWithMeFolder |}.

Variable s : Service.

(** The permissions the basic roles [builtins] hold in memory, appended to
    [permissions]: the first loop of [getUserPermissions]. *)
Definition appendBasicRoles (permissions : list Permission)
    (builtins : list string) : list Permission :=
  foldl (λ permissions builtin,
           match roles s !! builtin with
           | Some basicRole => permissions ++ RoleDTO.Permissions basicRole
           | None => permissions
           end) permissions builtins.

Definition getUserPermissions (user : Requester) (options : Options)
    : M (Result (list Permission)) :=
  let permissions := appendBasicRoles [] (GetOrgRoles user) in
  let permissions :=
    if features s FlagNestedFolders
    then permissions ++ [SharedWithMeFolderPermission]
    else permissions in
  let '(userID, err) :=
    UserIdentifier (GetNamespacedID user).1 (GetNamespacedID user).2 in
  match err with
  | Some err => mret ([], Some err)
  | None =>
      let query :=
        {| GetUserPermissionsQuery.OrgID := GetOrgID user;
           GetUserPermissionsQuery.UserID := userID;
           GetUserPermissionsQuery.Roles := GetOrgRoles user;
           GetUserPermissionsQuery.TeamIDs := GetTeams user;
           GetUserPermissionsQuery.RolePrefixes := OSSRolesPrefixes |} in
      '(dbPermissions, err) ←
        callStore (CallGetUserPermissions query)
                  (Store.GetUserPermissions (store s) query);
      match err with
      | Some err => mret ([], Some err)
      | None => mret (permissions ++ dbPermissions, None)
      end
  end.

Definition getBasicRolePermissions (role : string) (orgID : Z)
    : M (Result (list Permission)) :=
  let permissions :=
    match roles s !! role with
    | Some basicRole => [] ++ RoleDTO.Permissions basicRole
    | None => []
    end in
  let query :=
    {| GetUserPermissionsQuery.Roles := [role];
       GetUserPermissionsQuery.OrgID := orgID;
       GetUserPermissionsQuery.RolePrefixes := OSSRolesPrefixes;
       GetUserPermissionsQuery.UserID := 0;
       GetUserPermissionsQuery.TeamIDs := [] |} in
  '(dbPermissions, err) ←
    callStore (CallGetBasicRolesPermissions query)
              (Store.GetBasicRolesPermissions (store s) query);
  mret (permissions ++ dbPermissions, err).

Definition getTeamsPermissions (teamIDs : list Z) (orgID : Z)
    : M (Result (gmap Z (list Permission))) :=
  let query :=
    {| GetUserPermissionsQuery.TeamIDs := teamIDs;
       GetUserPermissionsQuery.OrgID := orgID;
       GetUserPermissionsQuery.RolePrefixes := OSSRolesPrefixes;
       GetUserPermissionsQuery.UserID := 0;
       GetUserPermissionsQuery.Roles := [] |} in
  callStore (CallGetTeamsPermissions query)
            (Store.GetTeamsPermissions (store s) query).

(** The user id [getUserDirectPermissions] queries the store with: the
    identifier parsed for a user or a service account, 0 for any other
    namespace. *)
Definition directUserID (user : Requester) : Result Z :=
  let '(namespace, identifier) := GetNamespacedID user in
  if String.eqb namespace NamespaceUser
     || String.eqb namespace NamespaceServiceAccount
  then strconv.ParseInt identifier
  else (0, None).

Definition getUserDirectPermissions (user : Requester)
    : M (Result (list Permission)) :=
  let '(userID, err) := directUserID user in
  match err with
  | Some err => mret ([], Some err)
  | None =>
      let query :=
        {| GetUserPermissionsQuery.OrgID := GetOrgID user;
           GetUserPermissionsQuery.UserID := userID;
           GetUserPermissionsQuery.RolePrefixes := OSSRolesPrefixes;
           GetUserPermissionsQuery.Roles := [];
           GetUserPermissionsQuery.TeamIDs := [] |} in
      '(permissions, err) ←
        callStore (CallGetUserPermissions query)
                  (Store.GetUserPermissions (store s) query);
      match err with
      | Some err => mret ([], Some err)
      | None =>
          let permissions :=
            if features s FlagNestedFolders
            then permissions ++ [SharedWithMeFolderPermission]
            else permissions in
          mret (permissions, None)
      end
  end.

(** [GetPermissionsFn]: a producer of permissions, run in the world. *)
Definition GetPermissionsFn : Type := M (Result (list Permission)).

(** Generic method for getting various permissions from cache. *)
Definition getCachedPermissions (key : string)
    (getPermissionsFn : GetPermissionsFn) (options : Options)
    : M (Result (list Permission)) :=
  cached ← (if ReloadCache options then mret None else Cache.Get key);
  match cached with
  | Some permissions =>
      permissionsCacheUsageInc incHit;;
      mret (permissions, None)
  | None =>
      permissionsCacheUsageInc incMiss;;
      '(permissions, err) ← getPermissionsFn;
      match err with
      | Some err => mret ([], Some err)
      | None =>
          Cache.Set_ key permissions cacheTTL;;
          mret (permissions, None)
      end
  end.

Definition getCachedBasicRolePermissions (role : string) (orgID : Z)
    (options : Options) : M (Result (list Permission)) :=
  let key := GetBasicRolePermissionCacheKey role orgID in
  let getPermissionsFn := getBasicRolePermissions role orgID in
  getCachedPermissions key getPermissionsFn options.

(** The loop of [getCachedBasicRolesPermissions] over the basic roles that
    are left, [basicRolesPermissions] being what was gathered so far. *)
Fixpoint cachedBasicRolesFrom (basicRoles : list string) (orgID : Z)
    (options : Options) (basicRolesPermissions : list Permission)
    : M (Result (list Permission)) :=
  match basicRoles with
  | [] => mret (basicRolesPermissions, None)
  | role :: rest =>
      '(permissions, err) ← getCachedBasicRolePermissions role orgID options;
      match err with
      | Some err => mret ([], Some err)
      | None =>
          cachedBasicRolesFrom rest orgID options
                               (basicRolesPermissions ++ permissions)
      end
  end.

Definition getCachedBasicRolesPermissions (user : Requester)
    (options : Options) : M (Result (list Permission)) :=
  let basicRoles := GetOrgRoles user in
  cachedBasicRolesFrom basicRoles (GetOrgID user) options [].

Definition getCachedUserDirectPermissions (user : Requester)
    (options : Options) : M (Result (list Permission)) :=
  let key := GetUserDirectPermissionCacheKey user in
  let getUserPermissionsFn := getUserDirectPermissions user in
  getCachedPermissions key getUserPermissionsFn options.

(** The first loop of [getCachedTeamsPermissions]: each team is looked up in
    the cache; a hit adds its permissions, a miss adds the team to [miss]. *)
Fixpoint lookupTeams (teams : list Z) (orgID : Z)
    (permissions : list Permission) (miss : list Z)
    : M (list Permission * list Z) :=
  match teams with
  | [] => mret (permissions, miss)
  | teamID :: rest =>
      let key := GetTeamPermissionCacheKey teamID orgID in
      cached ← Cache.Get key;
      match cached with
      | Some teamPermissions =>
          permissionsCacheUsageInc incHit;;
          lookupTeams rest orgID (permissions ++ teamPermissions) miss
      | None => lookupTeams rest orgID permissions (miss ++ [teamID])
      end
  end.

(** The second loop of [getCachedTeamsPermissions], over the entries of the
    store's answer: each is stored under its team's key and added to the
    permissions.  Go ranges over the answer, a map, in no fixed order;
    [map_to_list] gives the entries in one of these orders, so of the
    permissions returned only what does not depend on the order of the teams
    is meant: the permissions as a multiset, and the entries key by key. *)
Fixpoint storeTeams (teamsPermissions : list (Z * list Permission))
    (orgID : Z) (permissions : list Permission) : M (list Permission) :=
  match teamsPermissions with
  | [] => mret permissions
  | (teamID, teamPermissions) :: rest =>
      let key := GetTeamPermissionCacheKey teamID orgID in
      Cache.Set_ key teamPermissions cacheTTL;;
      storeTeams rest orgID (permissions ++ teamPermissions)
  end.

Definition getCachedTeamsPermissions (user : Requester) (options : Options)
    : M (Result (list Permission)) :=
  let teams := GetTeams user in
  let orgID := GetOrgID user in
  '(permissions, miss) ←
    (if ReloadCache options then mret ([], teams)
     else lookupTeams teams orgID [] []);
  if (0 <? length miss)%nat then
    permissionsCacheUsageInc incMiss;;
    '(teamsPermissions, err) ← getTeamsPermissions miss orgID;
    match err with
    | Some err => mret ([], Some err)
    | None =>
        permissions ← storeTeams (map_to_list teamsPermissions) orgID permissions;
        mret (permissions, None)
    end
  else mret (permissions, None).

Definition getCachedUserPermissions (user : Requester) (options : Options)
    : M (Result (list Permission)) :=
  '(basicRolesPermissions, err) ← getCachedBasicRolesPermissions user options;
  match err with
  | Some err => mret ([], Some err)
  | None =>
      '(teamsPermissions, err) ← getCachedTeamsPermissions user options;
      match err with
      | Some err => mret ([], Some err)
      | None =>
          '(userPermissions, err) ← getCachedUserDirectPermissions user options;
          match err with
          | Some err => mret ([], Some err)
          | None =>
              mret ((([] ++ basicRolesPermissions) ++ teamsPermissions)
                      ++ userPermissions, None)
          end
      end
  end.

(** GetUserPermissions returns user permissions based on built-in roles. *)
Definition GetUserPermissions (user : Requester) (options : Options)
    : M (Result (list Permission)) :=
  if negb (cfg_RBACPermissionCache s) || negb (HasUniqueId user)
  then getUserPermissions user options
  else getCachedUserPermissions user options.

Definition ClearUserPermissionCache (user : Requester) : M unit :=
  Cache.Delete (GetPermissionCacheKey user);;
  Cache.Delete (GetUserDirectPermissionCacheKey user).

Definition PermissionMatchesSearchOptions (permission : Permission)
    (searchOptions : SearchOptions) : bool :=
  if negb (String.eqb (SearchOptions.Scope searchOptions) "")
     && negb (slices.Contains
                (Wildcards searchOptions ++ [SearchOptions.Scope searchOptions])
                (Permission.Scope permission))
  then false
  else if negb (String.eqb (SearchOptions.Action searchOptions) "")
  then String.eqb (Permission.Action permission)
                  (SearchOptions.Action searchOptions)
  else strings.HasPrefix (Permission.Action permission)
                         (SearchOptions.ActionPrefix searchOptions).

Definition searchUserPermissionsFromCache (orgID : Z)
    (searchOptions : SearchOptions) : M (list Permission * bool) :=
  let '(userID, err) := ComputeUserID searchOptions in
  match err with
  | Some _ => mret ([], false)
  | None =>
      let tempUser := SignedInUser userID orgID in
      let key := GetPermissionCacheKey tempUser in
      cached ← Cache.Get key;
      match cached with
      | None =>
          searchCacheUsageInc incMiss;;
          mret ([], false)
      | Some permissions =>
          searchCacheUsageInc incHit;;
          mret (List.filter
                  (λ permission,
                     PermissionMatchesSearchOptions permission searchOptions)
                  permissions, true)
      end
  end.

Definition searchUserPermissions (orgID : Z) (searchOptions : SearchOptions)
    : M (Result (list Permission)) :=
  let '(userID, err) := ComputeUserID searchOptions in
  match err with
  | Some err => mret ([], Some err)
  | None =>
      '(roleList, err) ←
        callStore (CallGetUsersBasicRoles [userID] orgID)
                  (Store.GetUsersBasicRoles (store s) [userID] orgID);
      match err with
      | Some err =>
          mret ([], Some (Errorf "could not fetch basic roles for the user: %w"
                                 [] (Some err)))
      | None =>
          match roleList !! userID with
          | None =>
              mret ([], Some (Errorf
                "found no basic roles for user %d in organisation %d"
                [userID; orgID] None))
          | Some userRoles =>
              let permissions :=
                foldl (λ permissions builtin,
                         match roles s !! builtin with
                         | Some basicRole =>
                             permissions ++
                             List.filter
                               (λ permission,
                                  PermissionMatchesSearchOptions permission
                                                                 searchOptions)
                               (RoleDTO.Permissions basicRole)
                         | None => permissions
                         end) [] userRoles in
              '(dbPermissions, err) ←
                callStore (CallSearchUsersPermissions orgID searchOptions)
                          (Store.SearchUsersPermissions (store s) orgID
                                                        searchOptions);
              match err with
              | Some err => mret ([], Some err)
              | None =>
                  let permissions :=
                    permissions ++ default [] (dbPermissions !! userID) in
                  let key := GetPermissionCacheKey (SignedInUser userID orgID) in
                  Cache.Set_ key permissions cacheTTL;;
                  mret (permissions, None)
              end
          end
      end
  end.

Definition SearchUserPermissions (orgID : Z) (searchOptions : SearchOptions)
    : M (Result (list Permission)) :=
  if String.eqb (SearchOptions.NamespacedID searchOptions) "" then
    mret ([], Some (Errorf "expected namespaced ID to be specified" [] None))
  else
    '(permissions, success) ← searchUserPermissionsFromCache orgID searchOptions;
    if (success : bool) then mret (permissions, None)
    else searchUserPermissions orgID searchOptions.

(** The loop of [canView] over the scopes the requester holds for the action
    [ActionUsersPermissionsRead]; [ids] are the user ids gathered so far. *)
Fixpoint canViewScopes (scopes : list string) (ids : gmap Z bool)
    : Z → bool :=
  match scopes with
  | [] => λ userID, default false (ids !! userID)
  | scope :: rest =>
      if strings.HasSuffix scope "*" then λ _, true
      else
        let parts := strings.Split scope ":" in
        if negb (length parts =? 3)%nat then canViewScopes rest ids
        else
          match strconv.ParseInt (default "" (parts !! 2%nat)) with
          | (_, Some _) => canViewScopes rest ids
          | (id, None) => canViewScopes rest (<[id := true]> ids)
          end
  end.

(** helper to filter out permissions the signed in users cannot see *)
Definition canView (usr : Requester) : Z → bool :=
  let siuPermissions := GetPermissions usr in
  if (size siuPermissions =? 0)%nat then λ _, false
  else
    match siuPermissions !! ActionUsersPermissionsRead with
    | None => λ _, false
    | Some scopes => canViewScopes scopes ∅
    end.

(** Filter ram permissions: the permissions of one basic role that match. *)
Definition filterBasicRole (options : SearchOptions) (role : string)
    (basicRole : RoleDTO) (basicPermissions : gmap string (list Permission))
    : gmap string (list Permission) :=
  foldl (λ basicPermissions permission,
           if PermissionMatchesSearchOptions permission options
           then <[role := default [] (basicPermissions !! role) ++ [permission]]>
                  basicPermissions
           else basicPermissions)
        basicPermissions (RoleDTO.Permissions basicRole).

Definition filterBasicRoles (options : SearchOptions)
    : gmap string (list Permission) :=
  foldl (λ basicPermissions '(role, basicRole),
           filterBasicRole options role basicRole basicPermissions)
        ∅ (map_to_list (roles s)).

(** Merge stored (DB) and basic role permissions (RAM) of one user. *)
Definition mergeUser (canView : Z → bool)
    (basicPermissions : gmap string (list Permission))
    (usersPermissions : gmap Z (list Permission))
    (res : gmap Z (list Permission)) (userID : Z) (userRoles : list string)
    : gmap Z (list Permission) :=
  if negb (canView userID) then res
  else
    let perms :=
      foldl (λ perms role,
               match basicPermissions !! role with
               | None => perms
               | Some basicPermission => perms ++ basicPermission
               end) [] userRoles in
    let perms :=
      match usersPermissions !! userID with
      | Some dbPerms => perms ++ dbPerms
      | None => perms
      end in
    if (0 <? length perms)%nat then <[userID := perms]> res else res.

Definition mergeUsers (canView : Z → bool)
    (basicPermissions : gmap string (list Permission))
    (usersPermissions : gmap Z (list Permission))
    (usersRoles : gmap Z (list string)) : gmap Z (list Permission) :=
  foldl (λ res '(userID, userRoles),
           mergeUser canView basicPermissions usersPermissions res
                     userID userRoles)
        ∅ (map_to_list usersRoles).

(** The nil map a failed search returns. *)
Definition nilMap : gmap Z (list Permission) := ∅.

(** SearchUsersPermissions returns all users' permissions filtered by action
    prefixes. *)
Definition SearchUsersPermissions (usr : Requester) (options : SearchOptions)
    : M (Result (gmap Z (list Permission))) :=
  let options := withRolePrefixes options OSSRolesPrefixes in
  if negb (String.eqb (SearchOptions.NamespacedID options) "") then
    let '(userID, err) := ComputeUserID options in
    match err with
    | Some err => mret (nilMap, Some err)
    | None =>
        '(userPerms, err) ← SearchUserPermissions (GetOrgID usr) options;
        match err with
        | Some err => mret (nilMap, Some err)
        | None => mret ({[ userID := userPerms ]}, None)
        end
    end
  else
    let basicPermissions := filterBasicRoles options in
    '(usersRoles, err) ←
      callStore (CallGetUsersBasicRoles [] (GetOrgID usr))
                (Store.GetUsersBasicRoles (store s) [] (GetOrgID usr));
    match err with
    | Some err => mret (nilMap, Some err)
    | None =>
        '(usersPermissions, err) ←
          callStore (CallSearchUsersPermissions (GetOrgID usr) options)
                    (Store.SearchUsersPermissions (store s) (GetOrgID usr)
                                                  options);
        match err with
        | Some err => mret (nilMap, Some err)
        | None =>
            mret (mergeUsers (canView usr) basicPermissions usersPermissions
                             usersRoles, None)
        end
    end.

Definition GetRoleByName (orgID : Z) (roleName : string)
    : Result (option RoleDTO) :=
  let err := Some ErrRoleNotFound in
  match roles s !! roleName with
  | Some _ => (None, err)
  | None =>
      Range (registrations s)
        (λ registration '(role, err),
           if String.eqb (RoleDTO.Name (RoleRegistration.Role registration))
                         roleName
           then
             ((Some {| RoleDTO.Name :=
                         RoleDTO.Name (RoleRegistration.Role registration);
                       RoleDTO.Permissions :=
                         RoleDTO.Permissions (RoleRegistration.Role registration);
                       RoleDTO.DisplayName :=
                         RoleDTO.DisplayName (RoleRegistration.Role registration);
                       RoleDTO.Description :=
                         RoleDTO.Description (RoleRegistration.Role registration)
                    |}, None), false)
           else ((role, err), true))
        (None, err)
  end.

End Service.

(** ** A reference instance of the imports, and a scenario

    The theorems below hold for every instance of [Imports].  To run the
    service on concrete inputs the imports are needed as programs; this
    instance supplies them. *)

Module Reference.

(** Modelled from the spec: the key of a principal in the cache keys of
    [accesscontrol], a "deterministic string composed from entity kind,
    entity identifier, and organization id". *)
Definition cacheKey (user : Requester) : string :=
  pretty (GetOrgID user) +:+ "-" +:+ (GetNamespacedID user).1
    +:+ "-" +:+ (GetNamespacedID user).2.

(** Modelled from the spec: the wildcard forms of a scope filter, "'*' suffix
    means matches any scope with this prefix": ["*"], and each prefix of the
    filter that ends at a [":"], followed by ["*"].  [b] is the prefix read
    so far. *)
Fixpoint wildcardsFrom (b : string) (parts : list string) : list string :=
  match parts with
  | [] => []
  | [_] => []
  | p :: rest => (b +:+ p +:+ ":*") :: wildcardsFrom (b +:+ p +:+ ":") rest
  end.

Definition wildcards (options : SearchOptions) : list string :=
  if String.eqb (SearchOptions.Scope options) "" then []
  else "*" :: wildcardsFrom "" (strings.Split (SearchOptions.Scope options) ":").

(** Modelled from the spec: the numeric id of a namespaced identity
    ["kind:identifier"], "used to compute a numeric id when required". *)
Definition computeUserID (options : SearchOptions) : Result Z :=
  match strings.Split (SearchOptions.NamespacedID options) ":" with
  | [namespace; identifier] =>
      if String.eqb namespace "user" || String.eqb namespace "service-account"
      then strconv.ParseInt identifier
      else (0, Some (ExternalError "invalid namespace"))
  | _ => (0, Some (ExternalError "invalid namespaced ID"))
  end.

(** Modelled from the spec: [identity.UserIdentifier], the numeric id of a
    principal, "unique numeric identifier (when resolvable)": the identifier
    of a user or a service account when it is a number, 0 otherwise. *)
Definition userIdentifier (namespace identifier : string) : Result Z :=
  if String.eqb namespace "user" || String.eqb namespace "service-account"
  then match strconv.ParseInt identifier with
       | (id, None) => (id, None)
       | (_, Some _) => (0, None)
       end
  else (0, None).

(** Modelled from the spec: [accesscontrol.GetOrgRoles], the principal's
    "set of basic-role memberships": its role in the organisation and, for an
    administrator of the server, the role of the server's administrators. *)
Definition getOrgRoles (user : Requester) : list string :=
  [GetOrgRole user]
    ++ (if GetIsGrafanaAdmin user then ["Grafana Admin"] else []).

(** Modelled from the spec: the principal [user.SignedInUser] with a user
    id and an organisation, as the single-user search builds it to derive a
    cache key. *)
Definition signedInUser (userID orgID : Z) : Requester :=
  {| GetOrgID := orgID;
     GetOrgRole := "";
     GetIsGrafanaAdmin := false;
     GetNamespacedID := ("user", pretty userID);
     GetTeams := [];
     HasUniqueId := bool_decide (0 < userID);
     GetPermissions := ∅ |}.

#[global] Instance imports : Imports := {|
  NamespaceUser := "user";
  NamespaceServiceAccount := "service-account";
  UserIdentifier := userIdentifier;
  ManagedRolePrefix := "managed:";
  ExternalServiceRolePrefix := "extsvc:";
  ActionUsersPermissionsRead := "users.permissions:read";
  ActionFoldersRead := "folders:read";
  ScopeSharedWithMeFolder := "folders:uid:sharedwithme";
  GetOrgRoles := getOrgRoles;
  GetPermissionCacheKey := λ user, "rbac-permissions-" +:+ cacheKey user;
  GetUserDirectPermissionCacheKey :=
    λ user, "rbac-permissions-direct-" +:+ cacheKey user;
  GetBasicRolePermissionCacheKey :=
    λ role orgID, "rbac-permissions-basic-role-" +:+ pretty orgID +:+ "-" +:+ role;
  GetTeamPermissionCacheKey :=
    λ teamID orgID,
      "rbac-permissions-team-" +:+ pretty orgID +:+ "-" +:+ pretty teamID;
  Wildcards := wildcards;
  ComputeUserID := computeUserID;
  SignedInUser := signedInUser
|}.

(** Modelled from the spec: a store, the "persistent grant storage
    (per-user, per-team, per-basic-role managed permissions)", backed by
    tables: the grants of each user, team and basic role of an organisation,
    and the basic roles of its users.  The grants of a query are those of the
    entities it names; a search answers the direct grants that match. *)
Record Tables := {
  userGrants : Z → gmap Z (list Permission);
  teamGrants : Z → gmap Z (list Permission);
  roleGrants : Z → string → list Permission;
  usersRoles : Z → gmap Z (list string)
}.

Definition teamsOf (t : Tables) (orgID : Z) (teamIDs : list Z)
    : gmap Z (list Permission) :=
  filter (λ kv, kv.1 ∈ teamIDs) (teamGrants t orgID).

Definition tableStore (t : Tables) : Store :=
  {| Store.GetUserPermissions := λ query,
       (concat (roleGrants t (GetUserPermissionsQuery.OrgID query)
                  <$> GetUserPermissionsQuery.Roles query)
        ++ concat (map_to_list
                     (teamsOf t (GetUserPermissionsQuery.OrgID query)
                              (GetUserPermissionsQuery.TeamIDs query))).*2
        ++ default []
             (userGrants t (GetUserPermissionsQuery.OrgID query)
                !! GetUserPermissionsQuery.UserID query),
        None);
     Store.GetBasicRolesPermissions := λ query,
       (concat (roleGrants t (GetUserPermissionsQuery.OrgID query)
                  <$> GetUserPermissionsQuery.Roles query), None);
     Store.GetTeamsPermissions := λ query,
       (teamsOf t (GetUserPermissionsQuery.OrgID query)
                (GetUserPermissionsQuery.TeamIDs query), None);
     Store.SearchUsersPermissions := λ orgID options,
       (List.filter
          (λ permission, PermissionMatchesSearchOptions permission options)
          <$> userGrants t orgID, None);
     Store.GetUsersBasicRoles := λ userFilter orgID, (usersRoles t orgID, None)
  |}.

(** The scenario: in organisation 1 the users 7, 8 and 42 are viewers; user
    42 is a member of team 10; the store holds one direct grant for user 42,
    one for user 8, none for team 10 and one for each of the teams 11 and 12;
    the basic role "Viewer" holds one permission in memory. *)
Definition dashboardsRead : Permission :=
  {| Permission.Action := "dashboards:read"; Permission.Scope := "dashboards:*" |}.
Definition datasourcesRead : Permission :=
  {| Permission.Action := "datasources:read"; Permission.Scope := "datasources:*" |}.

Definition teamsRead : Permission :=
  {| Permission.Action := "teams:read"; Permission.Scope := "teams:*" |}.
Definition foldersWrite : Permission :=
  {| Permission.Action := "folders:write"; Permission.Scope := "folders:uid:f1" |}.

Definition tables : Tables :=
  {| userGrants := λ orgID,
       if bool_decide (orgID = 1)
       then {[ 8 := [foldersWrite]; 42 := [datasourcesRead] ]}
       else ∅;
     teamGrants := λ orgID,
       if bool_decide (orgID = 1)
       then {[ 11 := [teamsRead]; 12 := [foldersWrite] ]}
       else ∅;
     roleGrants := λ _ _, [];
     usersRoles := λ orgID,
       if bool_decide (orgID = 1)
       then {[ 7 := ["Viewer"]; 8 := ["Viewer"]; 42 := ["Viewer"] ]}
       else ∅ |}.

Definition viewer : RoleDTO :=
  {| RoleDTO.Name := "basic:viewer";
     RoleDTO.DisplayName := "Viewer";
     RoleDTO.Description := "Viewer role";
     RoleDTO.Permissions := [dashboardsRead] |}.

Definition service (permissionCache : bool) : Service :=
  {| cfg_RBACPermissionCache := permissionCache;
     features := λ _, false;
     registrations := [];
     roles := {[ "Viewer" := viewer ]};
     store := tableStore tables |}.

(** A service with two registrations: a fixed role, and a role that was
    registered under the name of the basic role "Viewer". *)
Definition reportsReader : RoleDTO :=
  {| RoleDTO.Name := "fixed:reports:reader";
     RoleDTO.DisplayName := "Reports reader";
     RoleDTO.Description := "Read reports";
     RoleDTO.Permissions :=
       [{| Permission.Action := "reports:read";
           Permission.Scope := "reports:*" |}] |}.

Definition shadowViewer : RoleDTO :=
  {| RoleDTO.Name := "Viewer";
     RoleDTO.DisplayName := "Viewer";
     RoleDTO.Description := "Registered under a basic role's name";
     RoleDTO.Permissions := [] |}.

Definition registry : Service :=
  {| cfg_RBACPermissionCache := true;
     features := λ _, false;
     registrations :=
       [{| RoleRegistration.Role := shadowViewer;
           RoleRegistration.Grants := ["Admin"] |};
        {| RoleRegistration.Role := reportsReader;
           RoleRegistration.Grants := ["Viewer"] |}];
     roles := {[ "Viewer" := viewer ]};
     store := tableStore tables |}.

Definition user42 : Requester :=
  {| GetOrgID := 1;
     GetOrgRole := "Viewer";
     GetIsGrafanaAdmin := false;
     GetNamespacedID := ("user", "42");
     GetTeams := [10];
     HasUniqueId := true;
     GetPermissions := ∅ |}.

Definition emptyWorld : World :=
  {| cache := ∅;
     storeCalls := [];
     permissionsCacheUsage := {| CacheHit := 0; CacheMiss := 0 |};
     searchCacheUsage := {| CacheHit := 0; CacheMiss := 0 |} |}.

(** A second user of organisation 1, in the teams 10, 11 and 12, and a world
    whose cache holds the entry of team 11 only. *)
Definition user43 : Requester :=
  {| GetOrgID := 1;
     GetOrgRole := "Viewer";
     GetIsGrafanaAdmin := false;
     GetNamespacedID := ("user", "43");
     GetTeams := [10; 11; 12];
     HasUniqueId := true;
     GetPermissions := ∅ |}.

Definition warmTeam11 : World :=
  {| cache :=
       {[ GetTeamPermissionCacheKey 11 1 :=
            {| Object := [teamsRead]; Expiration := cacheTTL |} ]};
     storeCalls := [];
     permissionsCacheUsage := {| CacheHit := 0; CacheMiss := 0 |};
     searchCacheUsage := {| CacheHit := 0; CacheMiss := 0 |} |}.

(** A principal without unique id. *)
Definition anonymous : Requester :=
  {| GetOrgID := 1;
     GetOrgRole := "Viewer";
     GetIsGrafanaAdmin := false;
     GetNamespacedID := ("anonymous", "0");
     GetTeams := [];
     HasUniqueId := false;
     GetPermissions := ∅ |}.

(** A requester whose only grant to view user permissions is scoped to
    user 7, and a search without filter. *)
Definition auditor : Requester :=
  {| GetOrgID := 1;
     GetOrgRole := "Viewer";
     GetIsGrafanaAdmin := false;
     GetNamespacedID := ("user", "5");
     GetTeams := [];
     HasUniqueId := true;
     GetPermissions := {[ "users.permissions:read" := ["users:id:7"] ]} |}.

Definition searchAll : SearchOptions :=
  {| SearchOptions.ActionPrefix := "";
     SearchOptions.Action := "";
     SearchOptions.Scope := "";
     SearchOptions.NamespacedID := "";
     SearchOptions.RolePrefixes := [] |}.

Definition noReload : Options := {| ReloadCache := false |}.
Definition reload : Options := {| ReloadCache := true |}.

(** A user of the teams 11 and 12, and the world after its first cached
    resolution: the entries of its basic role, of its teams and of its
    direct permissions are in the cache. *)
Definition user44 : Requester :=
  {| GetOrgID := 1;
     GetOrgRole := "Viewer";
     GetIsGrafanaAdmin := false;
     GetNamespacedID := ("user", "44");
     GetTeams := [11; 12];
     HasUniqueId := true;
     GetPermissions := ∅ |}.

Definition warm44 : World :=
  (getCachedUserPermissions (service true) user44 noReload emptyWorld).2.

(** The same service over a store whose [GetUserPermissions] fails, and a
    principal of the same role and teams whose identifier is no number. *)
Definition unavailable : error := ExternalError "store unavailable".

Definition failingStore : Store :=
  {| Store.GetUserPermissions := λ _, ([], Some unavailable);
     Store.GetBasicRolesPermissions :=
       Store.GetBasicRolesPermissions (tableStore tables);
     Store.GetTeamsPermissions := Store.GetTeamsPermissions (tableStore tables);
     Store.SearchUsersPermissions :=
       Store.SearchUsersPermissions (tableStore tables);
     Store.GetUsersBasicRoles := Store.GetUsersBasicRoles (tableStore tables)
  |}.

Definition failingService : Service :=
  {| cfg_RBACPermissionCache := true;
     features := λ _, false;
     registrations := [];
     roles := {[ "Viewer" := viewer ]};
     store := failingStore |}.

Definition userAbc : Requester :=
  {| GetOrgID := 1;
     GetOrgRole := "Viewer";
     GetIsGrafanaAdmin := false;
     GetNamespacedID := ("user", "abc");
     GetTeams := [11; 12];
     HasUniqueId := true;
     GetPermissions := ∅ |}.

End Reference.

(** * Properties *)

(** ** Strings and slices *)

Lemma HasPrefix_spec (s prefix : string) :
  strings.HasPrefix s prefix = true ↔ ∃ rest, s = prefix +:+ rest.
Proof.
  unfold strings.HasPrefix. revert s.
  induction prefix as [|c prefix IH]; intros s.
  - split; [intros _; by exists s | by destruct s].
  - destruct s as [|c' s].
    + split; [done | intros [rest Hrest]; discriminate].
    + change (String.prefix (String c prefix) (String c' s))
        with (if Ascii.ascii_dec c c' then String.prefix prefix s else false).
      change (λ rest, String c' s = String c prefix +:+ rest)
        with (λ rest, String c' s = String c (prefix +:+ rest)).
      destruct (Ascii.ascii_dec c c') as [->|Hne].
      * rewrite IH. split; intros [rest Hrest]; exists rest.
        -- by rewrite Hrest.
        -- by injection Hrest.
      * split; [done | intros [rest Hrest]; by injection Hrest].
Qed.

Lemma Contains_spec (l : list string) (v : string) :
  slices.Contains l v = true ↔ v ∈ l.
Proof.
  unfold slices.Contains. rewrite existsb_exists. split.
  - intros (x & Hin & Heq). apply String.eqb_eq in Heq as ->.
    by apply list_elem_of_In.
  - intros Hin. exists v. split; [by apply list_elem_of_In | apply String.eqb_refl].
Qed.

(** ** Predicate matching *)

Section Matching.
Context `{Imports}.

Lemma PermissionMatchesSearchOptions_iff (permission : Permission)
    (searchOptions : SearchOptions) :
  PermissionMatchesSearchOptions permission searchOptions = true ↔
    (SearchOptions.Scope searchOptions ≠ "" →
       Permission.Scope permission = SearchOptions.Scope searchOptions
       ∨ Permission.Scope permission ∈ Wildcards searchOptions)
    ∧ (SearchOptions.Action searchOptions ≠ "" →
         Permission.Action permission = SearchOptions.Action searchOptions)
    ∧ (SearchOptions.Action searchOptions = "" →
         ∃ rest, Permission.Action permission
                 = SearchOptions.ActionPrefix searchOptions +:+ rest).
Proof.
  unfold PermissionMatchesSearchOptions.
  destruct (String.eqb_spec (SearchOptions.Scope searchOptions) "") as [Hs|Hs];
    simpl.
  - destruct (String.eqb_spec (SearchOptions.Action searchOptions) "") as [Ha|Ha];
      simpl.
    + rewrite HasPrefix_spec. intuition congruence.
    + rewrite String.eqb_eq. intuition congruence.
  - destruct (slices.Contains _ _) eqn:Hc; simpl.
    + apply Contains_spec in Hc.
      rewrite elem_of_app, list_elem_of_singleton in Hc.
      destruct (String.eqb_spec (SearchOptions.Action searchOptions) "")
        as [Ha|Ha]; simpl.
      * rewrite HasPrefix_spec. intuition congruence.
      * rewrite String.eqb_eq. intuition congruence.
    + split; [done|]. intros (Hscope & _).
      assert (slices.Contains
                (Wildcards searchOptions ++ [SearchOptions.Scope searchOptions])
                (Permission.Scope permission) = true) as Hc'.
      { apply Contains_spec. rewrite elem_of_app, list_elem_of_singleton.
        destruct (Hscope Hs); auto. }
      congruence.
Qed.

End Matching.

(** C4. A permission matches the search options if and only if its scope,
    when a scope filter is set, is the filter or one of the filter's
    wildcards, and its action is the exact action filter when one is set and
    otherwise starts with the action prefix.  With the scope filter
    ["dashboards:uid:abc"] a permission scoped ["dashboards:*"] matches,
    ["dashboards:*"] being one of the filter's wildcards, as it is in the
    reference instance; with the exact action ["dashboards:read"] the action
    ["dashboards:write"] does not match; with the action prefix
    ["dashboards:"] the action ["dashboards:read"] matches. *)
Theorem PermissionMatchesSearchOptions_spec :
  (∀ (I : Imports) (permission : Permission) (searchOptions : SearchOptions),
     PermissionMatchesSearchOptions permission searchOptions = true ↔
       (SearchOptions.Scope searchOptions ≠ "" →
          Permission.Scope permission = SearchOptions.Scope searchOptions
          ∨ Permission.Scope permission ∈ Wildcards searchOptions)
       ∧ (SearchOptions.Action searchOptions ≠ "" →
            Permission.Action permission = SearchOptions.Action searchOptions)
       ∧ (SearchOptions.Action searchOptions = "" →
            ∃ rest, Permission.Action permission
                    = SearchOptions.ActionPrefix searchOptions +:+ rest))
  ∧ (∀ (I : Imports) (action namespacedID : string)
       (rolePrefixes : list string),
       let searchOptions :=
         {| SearchOptions.ActionPrefix := "";
            SearchOptions.Action := "";
            SearchOptions.Scope := "dashboards:uid:abc";
            SearchOptions.NamespacedID := namespacedID;
            SearchOptions.RolePrefixes := rolePrefixes |} in
       "dashboards:*" ∈ Wildcards searchOptions →
       PermissionMatchesSearchOptions
         {| Permission.Action := action; Permission.Scope := "dashboards:*" |}
         searchOptions = true)
  ∧ (∀ action : string,
       @PermissionMatchesSearchOptions Reference.imports
         {| Permission.Action := action; Permission.Scope := "dashboards:*" |}
         {| SearchOptions.ActionPrefix := "";
            SearchOptions.Action := "";
            SearchOptions.Scope := "dashboards:uid:abc";
            SearchOptions.NamespacedID := "";
            SearchOptions.RolePrefixes := [] |} = true)
  ∧ (∀ (I : Imports) (scope actionPrefix namespacedID : string)
       (rolePrefixes : list string),
       PermissionMatchesSearchOptions
         {| Permission.Action := "dashboards:write"; Permission.Scope := scope |}
         {| SearchOptions.ActionPrefix := actionPrefix;
            SearchOptions.Action := "dashboards:read";
            SearchOptions.Scope := "";
            SearchOptions.NamespacedID := namespacedID;
            SearchOptions.RolePrefixes := rolePrefixes |} = false)
  ∧ (∀ (I : Imports) (scope namespacedID : string) (rolePrefixes : list string),
       PermissionMatchesSearchOptions
         {| Permission.Action := "dashboards:read"; Permission.Scope := scope |}
         {| SearchOptions.ActionPrefix := "dashboards:";
            SearchOptions.Action := "";
            SearchOptions.Scope := "";
            SearchOptions.NamespacedID := namespacedID;
            SearchOptions.RolePrefixes := rolePrefixes |} = true).
Proof.
  split; [intros; apply PermissionMatchesSearchOptions_iff|].
  split.
  { intros I action namespacedID rolePrefixes searchOptions Hwildcard.
    apply PermissionMatchesSearchOptions_iff. split_and!.
    - intros _. by right.
    - done.
    - intros _. by exists action. }
  split; [intros action; by destruct action|].
  split; intros; reflexivity.
Qed.

(** ** Role lookup *)

(** The role [GetRoleByName] builds from a registration is the registration's
    role. *)
Lemma RoleDTO_copy (role : RoleDTO) :
  {| RoleDTO.Name := RoleDTO.Name role;
     RoleDTO.Permissions := RoleDTO.Permissions role;
     RoleDTO.DisplayName := RoleDTO.DisplayName role;
     RoleDTO.Description := RoleDTO.Description role |} = role.
Proof. by destruct role. Qed.

Section RoleLookup.
Variable roleName : string.

(** The closure [GetRoleByName] hands to [Range]. *)
Definition findRole (registration : RoleRegistration)
    (captured : option RoleDTO * option error)
    : (option RoleDTO * option error) * bool :=
  if String.eqb (RoleDTO.Name (RoleRegistration.Role registration)) roleName
  then ((Some (RoleRegistration.Role registration), None), false)
  else (captured, true).

Lemma Range_findRole_none (l : RegistrationList) captured :
  (∀ r, r ∈ l → RoleDTO.Name (RoleRegistration.Role r) ≠ roleName) →
  Range l findRole captured = captured.
Proof.
  induction l as [|r l IH]; intros Hl; [done|].
  simpl. unfold findRole at 1.
  destruct (String.eqb_spec (RoleDTO.Name (RoleRegistration.Role r)) roleName)
    as [Heq|Hne].
  - exfalso. apply (Hl r); [left | done].
  - apply IH. intros r' Hr'. apply Hl. by right.
Qed.

Lemma Range_findRole_first (before after : RegistrationList) registration
    captured :
  (∀ r, r ∈ before → RoleDTO.Name (RoleRegistration.Role r) ≠ roleName) →
  RoleDTO.Name (RoleRegistration.Role registration) = roleName →
  Range (before ++ registration :: after) findRole captured
  = (Some (RoleRegistration.Role registration), None).
Proof.
  intros Hbefore Hname. revert captured.
  induction before as [|r before IH]; intros captured; simpl.
  - unfold findRole at 1. by rewrite Hname, String.eqb_refl.
  - unfold findRole at 1.
    destruct (String.eqb_spec (RoleDTO.Name (RoleRegistration.Role r)) roleName)
      as [Heq|Hne].
    + exfalso. apply (Hbefore r); [left | done].
    + apply IH. intros r' Hr'. apply Hbefore. by right.
Qed.

(** The first registration of a name, when there is one. *)
Lemma first_registration (l : RegistrationList) :
  (∃ r, r ∈ l ∧ RoleDTO.Name (RoleRegistration.Role r) = roleName) →
  ∃ before registration after,
    l = before ++ registration :: after
    ∧ RoleDTO.Name (RoleRegistration.Role registration) = roleName
    ∧ ∀ r, r ∈ before → RoleDTO.Name (RoleRegistration.Role r) ≠ roleName.
Proof.
  induction l as [|r l IH]; intros (r0 & Hin & Hname).
  - by apply elem_of_nil in Hin.
  - destruct (decide (RoleDTO.Name (RoleRegistration.Role r) = roleName))
      as [Heq|Hne].
    + exists [], r, l. split_and!; [done | done |].
      intros r' Hr'. by apply elem_of_nil in Hr'.
    + apply elem_of_cons in Hin as [->|Hin]; [done|].
      destruct IH as (before & registration & after & -> & Hn & Hb);
        [by exists r0|].
      exists (r :: before), registration, after. split_and!; [done | done |].
      intros r' [->|Hr']%elem_of_cons; [done | by apply Hb].
Qed.

End RoleLookup.

Lemma GetRoleByName_Range (s : Service) (orgID : Z) (roleName : string) :
  roles s !! roleName = None →
  GetRoleByName s orgID roleName
  = Range (registrations s) (findRole roleName) (None, Some ErrRoleNotFound).
Proof.
  intros Hbasic. unfold GetRoleByName. rewrite Hbasic.
  generalize (@None RoleDTO, Some ErrRoleNotFound).
  induction (registrations s) as [|r l IH]; intros captured; [done|].
  simpl. unfold findRole at 1. destruct captured as [role err].
  destruct (String.eqb _ _); [by rewrite RoleDTO_copy | apply IH].
Qed.

(** C7. [GetRoleByName] fails with [ErrRoleNotFound] for the name of a basic
    role, whatever the registrations; for any other name it returns the role
    of the first registration of that name, and fails with [ErrRoleNotFound]
    when no registration has that name. *)
Theorem GetRoleByName_spec (s : Service) (orgID : Z) (roleName : string) :
  (is_Some (roles s !! roleName) →
     GetRoleByName s orgID roleName = (None, Some ErrRoleNotFound))
  ∧ (roles s !! roleName = None →
     (∃ r, r ∈ registrations s
           ∧ RoleDTO.Name (RoleRegistration.Role r) = roleName) →
     ∃ before registration after,
       registrations s = before ++ registration :: after
       ∧ RoleDTO.Name (RoleRegistration.Role registration) = roleName
       ∧ (∀ r, r ∈ before → RoleDTO.Name (RoleRegistration.Role r) ≠ roleName)
       ∧ GetRoleByName s orgID roleName
         = (Some (RoleRegistration.Role registration), None))
  ∧ (roles s !! roleName = None →
     (∀ r, r ∈ registrations s
           → RoleDTO.Name (RoleRegistration.Role r) ≠ roleName) →
     GetRoleByName s orgID roleName = (None, Some ErrRoleNotFound)).
Proof.
  split_and!.
  - intros [basicRole Hbasic]. unfold GetRoleByName. by rewrite Hbasic.
  - intros Hbasic Hex.
    destruct (first_registration roleName _ Hex)
      as (before & registration & after & Hl & Hname & Hbefore).
    exists before, registration, after. split_and!; [done..|].
    rewrite GetRoleByName_Range, Hl by done.
    by apply Range_findRole_first.
  - intros Hbasic Hnone. rewrite GetRoleByName_Range by done.
    by apply Range_findRole_none.
Qed.

(** The registry of the reference scenario: the fixed role is found, the
    name of the basic role "Viewer" is not, although a registration has it,
    and a name nobody registered is not. *)
Lemma GetRoleByName_spec_witness :
  GetRoleByName Reference.registry 1 "fixed:reports:reader"
  = (Some Reference.reportsReader, None)
  ∧ GetRoleByName Reference.registry 1 "Viewer" = (None, Some ErrRoleNotFound)
  ∧ GetRoleByName Reference.registry 1 "fixed:unknown"
    = (None, Some ErrRoleNotFound).
Proof.
  split_and!.
  - destruct (GetRoleByName_spec Reference.registry 1 "fixed:reports:reader")
      as (_ & Hfound & _).
    destruct Hfound as (before & registration & after & Hl & Hname & _ & ->).
    + reflexivity.
    + exists {| RoleRegistration.Role := Reference.reportsReader;
                RoleRegistration.Grants := ["Viewer"] |}.
      split; [right; left | reflexivity].
    + destruct before as [|r0 [|r1 before]]; simpl in Hl.
      * injection Hl as <- _. discriminate Hname.
      * by injection Hl as _ <- _.
      * injection Hl as _ _ Hl. by destruct before.
  - apply (proj1 (GetRoleByName_spec Reference.registry 1 "Viewer")).
    by exists Reference.viewer.
  - apply (proj2 (proj2 (GetRoleByName_spec Reference.registry 1
                           "fixed:unknown")));
      [reflexivity|].
    intros r [->|[->|Hin%elem_of_nil]%elem_of_cons]%elem_of_cons; done.
Defined.

(** ** The generic cache helper *)

Section CacheHelper.

(** A hit: the entry is returned and counted; the producer is not run. *)
Lemma getCachedPermissions_hit (key : string)
    (getPermissionsFn : GetPermissionsFn) (options : Options) (w : World)
    (item : CacheItem) :
  ReloadCache options = false →
  cache w !! key = Some item →
  getCachedPermissions key getPermissionsFn options w
  = ((Object item, None), withPermissionsCacheUsage incHit w).
Proof.
  intros Hreload Hitem. unfold getCachedPermissions.
  rewrite Hreload. unfold mbind, M_bind, Cache.Get. by rewrite Hitem.
Qed.

(** A miss or a reload: the miss is counted and the producer is run; its
    permissions are stored, or its error handed on. *)
Lemma getCachedPermissions_run (key : string)
    (getPermissionsFn : GetPermissionsFn) (options : Options) (w : World) :
  ReloadCache options = true ∨ cache w !! key = None →
  getCachedPermissions key getPermissionsFn options w
  = let '((permissions, err), w1) :=
      getPermissionsFn (withPermissionsCacheUsage incMiss w) in
    match err with
    | None =>
        ((permissions, None),
         withCache
           <[key := {| Object := permissions; Expiration := cacheTTL |}]> w1)
    | Some err => (([], Some err), w1)
    end.
Proof.
  intros Hmiss. unfold getCachedPermissions, mbind, M_bind, Cache.Get.
  destruct (ReloadCache options) eqn:Hreload; simpl.
  - destruct (getPermissionsFn _) as [[ps [e|]] w'']; done.
  - destruct Hmiss as [?| ->]; [done|]. simpl.
    destruct (getPermissionsFn _) as [[ps [e|]] w'']; done.
Qed.

End CacheHelper.

(** C6. Without [ReloadCache], [getCachedPermissions] returns the entry
    under the key when there is one, and the producer is not run.  With
    [ReloadCache], or when there is no entry, the producer is run once, after
    the miss was counted: if it succeeds its permissions are stored under the
    key with a time to live of 60 seconds, over any entry there was, and
    returned; if it fails its error is returned and nothing is stored. *)
Theorem getCachedPermissions_spec (key : string)
    (getPermissionsFn : GetPermissionsFn) (options : Options) (w : World) :
  (ReloadCache options = false →
     ∀ item, cache w !! key = Some item →
       getCachedPermissions key getPermissionsFn options w
       = ((Object item, None), withPermissionsCacheUsage incHit w))
  ∧ (ReloadCache options = true ∨ cache w !! key = None →
     ∀ permissions err w1,
       getPermissionsFn (withPermissionsCacheUsage incMiss w)
       = ((permissions, err), w1) →
       match err with
       | None =>
           getCachedPermissions key getPermissionsFn options w
           = ((permissions, None),
              withCache
                <[key := {| Object := permissions;
                            Expiration := 60 * 1000000000 |}]> w1)
       | Some err =>
           getCachedPermissions key getPermissionsFn options w
           = (([], Some err), w1)
       end).
Proof.
  split.
  - intros Hreload item Hitem. by apply getCachedPermissions_hit.
  - intros Hmiss permissions err w1 Hfn.
    rewrite getCachedPermissions_run, Hfn by done. by destruct err.
Qed.

(** The scenario of [Reference.warmTeam11]: the entry of team 11 is
    returned from the cache; under the key of team 12, which has no entry,
    the producer's permissions are stored and returned; a producer that fails
    leaves the cache as it was. *)
Lemma getCachedPermissions_spec_witness :
  getCachedPermissions (GetTeamPermissionCacheKey 11 1)
    (mret ([Reference.foldersWrite], None)) Reference.noReload
    Reference.warmTeam11
  = (([Reference.teamsRead], None),
     withPermissionsCacheUsage incHit Reference.warmTeam11)
  ∧ getCachedPermissions (GetTeamPermissionCacheKey 12 1)
      (mret ([Reference.foldersWrite], None)) Reference.noReload
      Reference.warmTeam11
    = (([Reference.foldersWrite], None),
       withCache
         <[GetTeamPermissionCacheKey 12 1 :=
             {| Object := [Reference.foldersWrite];
                Expiration := 60 * 1000000000 |}]>
         (withPermissionsCacheUsage incMiss Reference.warmTeam11))
  ∧ getCachedPermissions (GetTeamPermissionCacheKey 11 1)
      (mret ([Reference.foldersWrite], Some Reference.unavailable))
      Reference.reload Reference.warmTeam11
    = (([], Some Reference.unavailable),
       withPermissionsCacheUsage incMiss Reference.warmTeam11).
Proof.
  assert (cache Reference.warmTeam11 !! GetTeamPermissionCacheKey 11 1
          = Some {| Object := [Reference.teamsRead]; Expiration := cacheTTL |})
    as Hteam11 by (by vm_compute).
  assert (cache Reference.warmTeam11 !! GetTeamPermissionCacheKey 12 1 = None)
    as Hteam12 by (by vm_compute).
  split_and!.
  - destruct (getCachedPermissions_spec
                (GetTeamPermissionCacheKey 11 1)
                (mret ([Reference.foldersWrite], None))
                Reference.noReload Reference.warmTeam11) as [Hhit _].
    exact (Hhit eq_refl _ Hteam11).
  - destruct (getCachedPermissions_spec
                (GetTeamPermissionCacheKey 12 1)
                (mret ([Reference.foldersWrite], None))
                Reference.noReload Reference.warmTeam11) as [_ Hrun].
    exact (Hrun (or_intror Hteam12) [Reference.foldersWrite] None
                (withPermissionsCacheUsage incMiss Reference.warmTeam11)
                eq_refl).
  - destruct (getCachedPermissions_spec
                (GetTeamPermissionCacheKey 11 1)
                (mret ([Reference.foldersWrite], Some Reference.unavailable))
                Reference.reload Reference.warmTeam11) as [_ Hrun].
    exact (Hrun (or_introl eq_refl) [Reference.foldersWrite]
                (Some Reference.unavailable)
                (withPermissionsCacheUsage incMiss Reference.warmTeam11)
                eq_refl).
Defined.

(** ** The cached team sub-query *)

Lemma elem_of_fst_map_to_list {A : Type} (m : gmap Z A) (k : Z) :
  k ∈ (map_to_list m).*1 → is_Some (m !! k).
Proof.
  intros ([k' a] & -> & Hin)%list_elem_of_fmap_1.
  exists a. by apply elem_of_map_to_list.
Qed.

Section Teams.
Context `{Imports}.

(** The permissions the cache holds for the teams of [teams], in the order of
    [teams], and the teams it holds none for. *)
Definition hitPermissions (c : gmap string CacheItem) (orgID : Z)
    (teams : list Z) : list Permission :=
  concat (omap (λ teamID,
                  Object <$> c !! GetTeamPermissionCacheKey teamID orgID)
               teams).

Definition missTeams (c : gmap string CacheItem) (orgID : Z)
    (teams : list Z) : list Z :=
  List.filter
    (λ teamID, bool_decide (c !! GetTeamPermissionCacheKey teamID orgID = None))
    teams.

Definition hitCount (c : gmap string CacheItem) (orgID : Z)
    (teams : list Z) : nat :=
  length (List.filter
            (λ teamID,
               bool_decide (is_Some (c !! GetTeamPermissionCacheKey teamID orgID)))
            teams).

(** The cache after the entries [teamsPermissions] were stored, each under
    the key of its team. *)
Definition storeTeamEntries (orgID : Z)
    (teamsPermissions : list (Z * list Permission))
    (c : gmap string CacheItem) : gmap string CacheItem :=
  foldl (λ c entry,
           <[GetTeamPermissionCacheKey entry.1 orgID :=
               {| Object := entry.2; Expiration := cacheTTL |}]> c)
        c teamsPermissions.

Definition addHits (n : nat) (u : CacheUsage) : CacheUsage :=
  {| CacheHit := n + CacheHit u; CacheMiss := CacheMiss u |}.

Lemma lookupTeams_eq (teams : list Z) (orgID : Z)
    (permissions : list Permission) (miss : list Z) (w : World) :
  lookupTeams teams orgID permissions miss w
  = ((permissions ++ hitPermissions (cache w) orgID teams,
      miss ++ missTeams (cache w) orgID teams),
     withPermissionsCacheUsage (addHits (hitCount (cache w) orgID teams)) w).
Proof.
  revert permissions miss w.
  induction teams as [|teamID teams IH]; intros permissions miss w.
  - simpl. rewrite !app_nil_r. by destruct w as [? ? [? ?] ?].
  - simpl. unfold mbind, M_bind, Cache.Get.
    unfold hitPermissions, missTeams, hitCount. simpl.
    destruct (cache w !! GetTeamPermissionCacheKey teamID orgID)
      as [item|] eqn:Hitem; simpl.
    + rewrite IH. simpl. rewrite <- app_assoc.
      unfold hitPermissions, missTeams, hitCount, withPermissionsCacheUsage,
        addHits, incHit. simpl.
      repeat f_equal; lia.
    + rewrite IH. by rewrite <- app_assoc.
Qed.

Lemma storeTeams_eq (teamsPermissions : list (Z * list Permission))
    (orgID : Z) (permissions : list Permission) (w : World) :
  storeTeams teamsPermissions orgID permissions w
  = (permissions ++ concat teamsPermissions.*2,
     withCache (storeTeamEntries orgID teamsPermissions) w).
Proof.
  revert permissions w.
  induction teamsPermissions as [|[teamID teamPermissions] l IH];
    intros permissions w.
  - simpl. rewrite app_nil_r. by destruct w.
  - simpl. unfold mbind, M_bind, Cache.Set_. rewrite IH.
    by rewrite <- app_assoc.
Qed.

Lemma elem_of_missTeams (c : gmap string CacheItem) (orgID : Z)
    (teams : list Z) (teamID : Z) :
  teamID ∈ missTeams c orgID teams
  ↔ teamID ∈ teams ∧ c !! GetTeamPermissionCacheKey teamID orgID = None.
Proof.
  unfold missTeams. rewrite list_elem_of_In, filter_In, <- list_elem_of_In.
  by rewrite bool_decide_eq_true.
Qed.

(** Storing team entries leaves the other keys as they were. *)
Lemma storeTeamEntries_other (orgID : Z) (l : list (Z * list Permission))
    (c : gmap string CacheItem) (key : string) :
  (∀ teamID, teamID ∈ l.*1 → key ≠ GetTeamPermissionCacheKey teamID orgID) →
  storeTeamEntries orgID l c !! key = c !! key.
Proof.
  revert c. induction l as [|[teamID ps] l IH]; intros c Hkey; [done|].
  unfold storeTeamEntries in *. simpl. rewrite IH.
  - rewrite lookup_insert_ne; [done|].
    intros Heq. eapply Hkey; [|done]. simpl. by left.
  - intros t Ht. apply Hkey. simpl. by right.
Qed.

(** A team's entry is the one stored for it, when no later team shares its
    key. *)
Lemma storeTeamEntries_lookup (orgID : Z) (l : list (Z * list Permission))
    (c : gmap string CacheItem) (teamID : Z) (ps : list Permission) :
  NoDup l.*1 →
  (teamID, ps) ∈ l →
  (∀ t, t ∈ l.*1 →
     GetTeamPermissionCacheKey t orgID = GetTeamPermissionCacheKey teamID orgID →
     t = teamID) →
  storeTeamEntries orgID l c !! GetTeamPermissionCacheKey teamID orgID
  = Some {| Object := ps; Expiration := cacheTTL |}.
Proof.
  revert c. induction l as [|[t' ps'] l IH]; intros c Hnodup Hin Hinj.
  - by apply elem_of_nil in Hin.
  - simpl in Hnodup. apply NoDup_cons in Hnodup as [Hfresh Hnodup].
    apply elem_of_cons in Hin as [Heq|Hin].
    + injection Heq as <- <-.
      unfold storeTeamEntries. simpl.
      fold (storeTeamEntries orgID l
              (<[GetTeamPermissionCacheKey teamID orgID :=
                   {| Object := ps; Expiration := cacheTTL |}]> c)).
      rewrite storeTeamEntries_other; [by rewrite lookup_insert_eq|].
      intros t Ht Hkey. assert (t = teamID) as ->; [|done].
      apply Hinj; [simpl; by right | done].
    + unfold storeTeamEntries. simpl. apply IH; [done..|].
      intros t Ht. apply Hinj. simpl. by right.
Qed.

(** The team sub-query, written out: what it returns and the world it
    leaves. *)
Lemma getCachedTeamsPermissions_eq (s : Service) (user : Requester)
    (options : Options) (w : World) :
  let orgID := GetOrgID user in
  let c := cache w in
  let permissions :=
    if ReloadCache options then []
    else hitPermissions c orgID (GetTeams user) in
  let miss :=
    if ReloadCache options then GetTeams user
    else missTeams c orgID (GetTeams user) in
  let w0 :=
    if ReloadCache options then w
    else withPermissionsCacheUsage
           (addHits (hitCount c orgID (GetTeams user))) w in
  let query :=
    {| GetUserPermissionsQuery.TeamIDs := miss;
       GetUserPermissionsQuery.OrgID := orgID;
       GetUserPermissionsQuery.RolePrefixes := OSSRolesPrefixes;
       GetUserPermissionsQuery.UserID := 0;
       GetUserPermissionsQuery.Roles := [] |} in
  let w1 :=
    withStoreCalls (λ calls, calls ++ [CallGetTeamsPermissions query])
                   (withPermissionsCacheUsage incMiss w0) in
  getCachedTeamsPermissions s user options w
  = match miss with
    | [] => ((permissions, None), w0)
    | _ :: _ =>
        match Store.GetTeamsPermissions (store s) query with
        | (_, Some err) => (([], Some err), w1)
        | (teamsPermissions, None) =>
            ((permissions ++ concat (map_to_list teamsPermissions).*2, None),
             withCache (storeTeamEntries orgID (map_to_list teamsPermissions))
                       w1)
        end
    end.
Proof.
  unfold getCachedTeamsPermissions, mbind, M_bind.
  destruct (ReloadCache options); simpl.
  - destruct (GetTeams user) as [|t teams]; [done|]. simpl.
    unfold getTeamsPermissions, callStore.
    destruct (Store.GetTeamsPermissions _ _) as [tp [err|]]; [done|].
    unfold mbind, M_bind. by rewrite storeTeams_eq.
  - rewrite lookupTeams_eq. simpl.
    destruct (missTeams _ _ _) as [|t miss]; [done|]. simpl.
    unfold getTeamsPermissions, callStore.
    destruct (Store.GetTeamsPermissions _ _) as [tp [err|]]; [done|].
    unfold mbind, M_bind. by rewrite storeTeams_eq.
Qed.

End Teams.

(** C5. Without [ReloadCache] the team sub-query collects the teams that
    have no entry in the cache.  When there is none it calls the store not at
    all; otherwise it calls the store once, with exactly the teams that
    missed, and, when the store answers, stores the permissions of each team
    of the answer under that team's key with the time to live of 60 seconds,
    leaving every other key as it was. *)
Theorem getCachedTeamsPermissions_batches `{Imports} (s : Service)
    (user : Requester) (options : Options) (w : World) :
  ReloadCache options = false →
  let orgID := GetOrgID user in
  let miss :=
    List.filter
      (λ teamID,
         bool_decide (cache w !! GetTeamPermissionCacheKey teamID orgID = None))
      (GetTeams user) in
  let query :=
    {| GetUserPermissionsQuery.TeamIDs := miss;
       GetUserPermissionsQuery.OrgID := orgID;
       GetUserPermissionsQuery.RolePrefixes := OSSRolesPrefixes;
       GetUserPermissionsQuery.UserID := 0;
       GetUserPermissionsQuery.Roles := [] |} in
  let result := (getCachedTeamsPermissions s user options w).1 in
  let w' := (getCachedTeamsPermissions s user options w).2 in
  (∀ teamID,
     teamID ∈ miss
     ↔ teamID ∈ GetTeams user
       ∧ cache w !! GetTeamPermissionCacheKey teamID orgID = None)
  ∧ (miss = [] →
       storeCalls w' = storeCalls w ∧ cache w' = cache w ∧ result.2 = None)
  ∧ (miss ≠ [] →
       storeCalls w' = storeCalls w ++ [CallGetTeamsPermissions query]
       ∧ (∀ err,
            (Store.GetTeamsPermissions (store s) query).2 = Some err →
            cache w' = cache w ∧ result = ([], Some err))
       ∧ ((Store.GetTeamsPermissions (store s) query).2 = None →
          let teamsPermissions :=
            (Store.GetTeamsPermissions (store s) query).1 in
          (∀ key,
             (∀ teamID, is_Some (teamsPermissions !! teamID) →
                        key ≠ GetTeamPermissionCacheKey teamID orgID) →
             cache w' !! key = cache w !! key)
          ∧ (∀ teamID teamPermissions,
               teamsPermissions !! teamID = Some teamPermissions →
               (∀ t, is_Some (teamsPermissions !! t) →
                     GetTeamPermissionCacheKey t orgID
                     = GetTeamPermissionCacheKey teamID orgID →
                     t = teamID) →
               cache w' !! GetTeamPermissionCacheKey teamID orgID
               = Some {| Object := teamPermissions;
                         Expiration := 60 * 1000000000 |}))).
Proof.
  intros Hreload orgID miss query result w'.
  pose proof (getCachedTeamsPermissions_eq s user options w) as Heq.
  cbv zeta in Heq. rewrite Hreload in Heq.
  fold orgID in Heq. change (missTeams (cache w) orgID (GetTeams user))
    with miss in Heq. fold query in Heq.
  split; [intros teamID; apply elem_of_missTeams|].
  split.
  - intros Hmiss. subst result w'. rewrite Heq, Hmiss. done.
  - intros Hmiss. subst result w'. rewrite Heq.
    destruct miss as [|t miss'] eqn:Hm; [done|]. rewrite <- Hm in *.
    destruct (Store.GetTeamsPermissions (store s) query)
      as [teamsPermissions [err|]] eqn:Hanswer; simpl.
    + split; [done|]. split; [|done]. by intros ? [= <-].
    + split; [done|]. split; [done|]. intros _. split.
      * intros key Hkey. apply storeTeamEntries_other.
        intros teamID Hin. by apply Hkey, elem_of_fst_map_to_list.
      * intros teamID teamPermissions Hlookup Hinj.
        apply storeTeamEntries_lookup.
        -- apply NoDup_fst_map_to_list.
        -- by apply elem_of_map_to_list.
        -- intros t0 Hin. by apply Hinj, elem_of_fst_map_to_list.
Qed.

(** The calls of [GetTeamsPermissions] in a log that ask for the team
    [teamID]. *)
Definition isTeamCallFor (teamID : Z) (call : StoreCall) : bool :=
  match call with
  | CallGetTeamsPermissions query =>
      bool_decide (teamID ∈ GetUserPermissionsQuery.TeamIDs query)
  | _ => false
  end.

Definition teamCallsFor (teamID : Z) (calls : list StoreCall) : nat :=
  length (List.filter (isTeamCallFor teamID) calls).

(** The worlds a sequence of team sub-queries goes through. *)
Definition afterTeamQueries `{Imports} (s : Service)
    (requests : list (Requester * Options)) (w : World) : World :=
  foldl (λ w request,
           (getCachedTeamsPermissions s request.1 request.2 w).2)
        w requests.

Section AbsentTeam.
Context `{Imports} (s : Service) (orgID teamID : Z).

Hypothesis store_has_no_entry :
  ∀ query, (Store.GetTeamsPermissions (store s) query).1 !! teamID = None.
Hypothesis key_not_shared :
  ∀ t, GetTeamPermissionCacheKey t orgID
       = GetTeamPermissionCacheKey teamID orgID → t = teamID.

Lemma absent_team_step (user : Requester) (options : Options) (w : World) :
  GetOrgID user = orgID →
  teamID ∈ GetTeams user →
  cache w !! GetTeamPermissionCacheKey teamID orgID = None →
  cache (getCachedTeamsPermissions s user options w).2
    !! GetTeamPermissionCacheKey teamID orgID = None
  ∧ teamCallsFor teamID
      (storeCalls (getCachedTeamsPermissions s user options w).2)
    = S (teamCallsFor teamID (storeCalls w)).
Proof.
  intros Horg Hteam Habsent.
  rewrite getCachedTeamsPermissions_eq. cbv zeta. rewrite Horg.
  set (miss := if ReloadCache options then GetTeams user
               else missTeams (cache w) orgID (GetTeams user)).
  assert (teamID ∈ miss) as Hmiss.
  { subst miss. destruct (ReloadCache options); [done|].
    by apply elem_of_missTeams. }
  destruct miss as [|t miss'] eqn:Hm; [by apply elem_of_nil in Hmiss|].
  rewrite <- Hm in *. clear Hm t miss'.
  set (query := {| GetUserPermissionsQuery.TeamIDs := miss;
                   GetUserPermissionsQuery.OrgID := orgID;
                   GetUserPermissionsQuery.RolePrefixes := OSSRolesPrefixes;
                   GetUserPermissionsQuery.UserID := 0;
                   GetUserPermissionsQuery.Roles := [] |}).
  assert (∀ calls, teamCallsFor teamID (calls ++ [CallGetTeamsPermissions query])
                   = S (teamCallsFor teamID calls)) as Hcount.
  { intros calls. unfold teamCallsFor.
    rewrite List.filter_app, length_app. simpl.
    rewrite bool_decide_true by done. simpl. lia. }
  pose proof (store_has_no_entry query) as Hnone.
  destruct (Store.GetTeamsPermissions (store s) query)
    as [teamsPermissions [err|]]; simpl in *.
  - destruct (ReloadCache options); simpl; by rewrite Hcount.
  - split; [|destruct (ReloadCache options); simpl; by rewrite Hcount].
    rewrite storeTeamEntries_other;
      [by destruct (ReloadCache options)|].
    intros t [ps Hin]%elem_of_fst_map_to_list Hkey.
    symmetry in Hkey. apply key_not_shared in Hkey as ->. congruence.
Qed.

Lemma absent_team_steps (requests : list (Requester * Options)) (w : World) :
  (∀ request, request ∈ requests →
     GetOrgID request.1 = orgID ∧ teamID ∈ GetTeams request.1) →
  cache w !! GetTeamPermissionCacheKey teamID orgID = None →
  cache (afterTeamQueries s requests w)
    !! GetTeamPermissionCacheKey teamID orgID = None
  ∧ teamCallsFor teamID (storeCalls (afterTeamQueries s requests w))
    = (teamCallsFor teamID (storeCalls w) + length requests)%nat.
Proof.
  revert w. induction requests as [|[user options] requests IH];
    intros w Hrequests Habsent.
  - simpl. split; [done | lia].
  - destruct (Hrequests (user, options)) as [Horg Hteam]; [by left|].
    destruct (absent_team_step user options w Horg Hteam Habsent)
      as [Habsent' Hcalls].
    unfold afterTeamQueries in *. simpl.
    destruct (IH (getCachedTeamsPermissions s user options w).2) as [IH1 IH2];
      [intros request Hin; apply Hrequests; by right | done |].
    split; [done|]. rewrite IH2, Hcalls. lia.
Qed.

End AbsentTeam.

(** The scenario of [Reference.warmTeam11]: of the teams 10, 11 and 12 the
    cache holds team 11; the store is asked once, for the teams 10 and 12. *)
Lemma getCachedTeamsPermissions_batches_witness :
  storeCalls
    (getCachedTeamsPermissions (Reference.service true) Reference.user43
                               Reference.noReload Reference.warmTeam11).2
  = [CallGetTeamsPermissions
       {| GetUserPermissionsQuery.TeamIDs := [10; 12];
          GetUserPermissionsQuery.OrgID := 1;
          GetUserPermissionsQuery.RolePrefixes := ["managed:"; "extsvc:"];
          GetUserPermissionsQuery.UserID := 0;
          GetUserPermissionsQuery.Roles := [] |}].
Proof.
  pose proof (getCachedTeamsPermissions_batches
                (Reference.service true) Reference.user43 Reference.noReload
                Reference.warmTeam11 eq_refl) as (_ & _ & Hmiss).
  destruct Hmiss as (Hcalls & _); [by vm_compute | exact Hcalls].
Defined.

(** The team keys of the reference instance tell the teams of an
    organisation apart. *)
Lemma Reference_team_key_inj (orgID t t' : Z) :
  @GetTeamPermissionCacheKey Reference.imports t orgID
  = @GetTeamPermissionCacheKey Reference.imports t' orgID →
  t = t'.
Proof.
  simpl. intros Hkey.
  apply (inj (String.app "rbac-permissions-team-")) in Hkey.
  apply (inj (String.app (pretty orgID))) in Hkey.
  apply (inj (String.app "-")) in Hkey.
  by apply (inj pretty) in Hkey.
Qed.

(** ** The uncached path *)

Section Uncached.
Context `{Imports} (s : Service).

(** The query of the uncached path for a principal resolved to [userID]. *)
Definition combinedQuery (user : Requester) (userID : Z)
    : GetUserPermissionsQuery :=
  {| GetUserPermissionsQuery.OrgID := GetOrgID user;
     GetUserPermissionsQuery.UserID := userID;
     GetUserPermissionsQuery.Roles := GetOrgRoles user;
     GetUserPermissionsQuery.TeamIDs := GetTeams user;
     GetUserPermissionsQuery.RolePrefixes := OSSRolesPrefixes |}.

(** The permission of the shared-with-me folder, when nested folders are
    enabled. *)
Definition sharedWithMe : list Permission :=
  if features s FlagNestedFolders then [SharedWithMeFolderPermission] else [].

(** The uncached path, written out. *)
Lemma getUserPermissions_eq (user : Requester) (options : Options) (w : World) :
  getUserPermissions s user options w
  = match UserIdentifier (GetNamespacedID user).1 (GetNamespacedID user).2 with
    | (_, Some err) => (([], Some err), w)
    | (userID, None) =>
        let query := combinedQuery user userID in
        (match Store.GetUserPermissions (store s) query with
         | (_, Some err) => ([], Some err)
         | (dbPermissions, None) =>
             ((appendBasicRoles s [] (GetOrgRoles user) ++ sharedWithMe)
                ++ dbPermissions, None)
         end,
         withStoreCalls (λ calls, calls ++ [CallGetUserPermissions query]) w)
    end.
Proof.
  unfold getUserPermissions, sharedWithMe.
  destruct (UserIdentifier _ _) as [userID [err|]]; [done|].
  unfold mbind, M_bind, callStore, combinedQuery.
  destruct (Store.GetUserPermissions _ _) as [dbPermissions [err|]]; [done|].
  destruct (features s FlagNestedFolders); [done|]. by rewrite app_nil_r.
Qed.


End Uncached.



(** ** Store errors *)

(** The error of the store's answer to a call. *)
Definition storeError (st : Store) (call : StoreCall) : option error :=
  match call with
  | CallGetUserPermissions query => (Store.GetUserPermissions st query).2
  | CallGetBasicRolesPermissions query =>
      (Store.GetBasicRolesPermissions st query).2
  | CallGetTeamsPermissions query => (Store.GetTeamsPermissions st query).2
  | CallSearchUsersPermissions orgID options =>
      (Store.SearchUsersPermissions st orgID options).2
  | CallGetUsersBasicRoles userFilter orgID =>
      (Store.GetUsersBasicRoles st userFilter orgID).2
  end.

Section StoreErrors.
Context `{Imports} (s : Service).

(** [m] reports the store's errors: the calls it makes all succeed, or one
    of them fails with [err], no other error was answered, and the result
    satisfies [P err]. *)
Definition reports {A : Type} (m : M (Result A))
    (P : error → Result A → Prop) : Prop :=
  ∀ w, ∃ calls,
    storeCalls (m w).2 = storeCalls w ++ calls
    ∧ ((∀ call, call ∈ calls → storeError (store s) call = None)
       ∨ ∃ err, P err (m w).1
                ∧ ∀ call err', call ∈ calls →
                    storeError (store s) call = Some err' → err' = err).

(** The result carries the error. *)
Definition failed {A : Type} (err : error) (result : Result A) : Prop :=
  result.2 = Some err.
(** The result is the error and the zero value [zero]. *)
Definition aborted {A : Type} (zero : A) (err : error) (result : Result A)
    : Prop :=
  result = (zero, Some err).

Lemma reports_no_call {A : Type} (m : M (Result A))
    (P : error → Result A → Prop) :
  (∀ w, storeCalls (m w).2 = storeCalls w) → reports m P.
Proof.
  intros Hm w. exists []. rewrite app_nil_r. split; [apply Hm|].
  left. intros call Hin. by apply elem_of_nil in Hin.
Qed.

Lemma reports_one_call {A : Type} (m : M (Result A))
    (P : error → Result A → Prop) (call : StoreCall) :
  (∀ w, storeCalls (m w).2 = storeCalls w ++ [call]) →
  (∀ w err, storeError (store s) call = Some err → P err (m w).1) →
  reports m P.
Proof.
  intros Hm HP w. exists [call]. split; [apply Hm|].
  destruct (storeError (store s) call) as [err|] eqn:Herr.
  - right. exists err. split; [by apply HP|].
    intros c err' ->%list_elem_of_singleton. congruence.
  - left. by intros c ->%list_elem_of_singleton.
Qed.

(** Sequencing: [f] runs [m], hands its error on with the zero value, and
    otherwise goes on with [k]. *)
Lemma reports_seq {A B : Type} (m : M (Result A)) (k : A → M (Result B))
    (zero : B) (f : M (Result B)) :
  (∀ w, f w = let '((a, err), w1) := m w in
              match err with
              | Some err => ((zero, Some err), w1)
              | None => k a w1
              end) →
  reports m failed →
  (∀ a, reports (k a) (aborted zero)) →
  reports f (aborted zero).
Proof.
  intros Hf Hm Hk w. rewrite Hf.
  destruct (Hm w) as (calls1 & Hcalls1 & Hcase1).
  destruct (m w) as [[a [err|]] w1] eqn:Hmw; simpl in *.
  - exists calls1. split; [done|].
    destruct Hcase1 as [Hok|(err1 & Herr1 & Hothers)]; [by left|].
    right. exists err1. split; [|done].
    unfold failed, aborted in *. simpl in *. congruence.
  - destruct (Hk a w1) as (calls2 & Hcalls2 & Hcase2).
    exists (calls1 ++ calls2). split; [by rewrite Hcalls2, Hcalls1, app_assoc|].
    destruct Hcase1 as [Hok1|(err1 & Herr1 & _)]; [|done].
    destruct Hcase2 as [Hok2|(err2 & Herr2 & Hothers2)].
    + left. intros call [Hin|Hin]%elem_of_app; auto.
    + right. exists err2. split; [done|].
      intros call err' [Hin|Hin]%elem_of_app Herr'.
      * rewrite Hok1 in Herr'; done.
      * by eapply Hothers2.
Qed.

Lemma aborted_failed {A : Type} (zero : A) (m : M (Result A)) :
  reports m (aborted zero) → reports m failed.
Proof.
  intros Hm w. destruct (Hm w) as (calls & Hcalls & Hcase).
  exists calls. split; [done|].
  destruct Hcase as [Hok|(err & Herr & Hothers)]; [by left|].
  right. exists err. split; [|done]. unfold failed, aborted in *.
  by rewrite Herr.
Qed.

Lemma reports_getUserPermissions (user : Requester) (options : Options) :
  reports (getUserPermissions s user options) (aborted []).
Proof.
  destruct (UserIdentifier (GetNamespacedID user).1 (GetNamespacedID user).2)
    as [userID [err|]] eqn:Hident.
  - apply reports_no_call. intros w.
    by rewrite getUserPermissions_eq, Hident.
  - apply (reports_one_call _ _
             (CallGetUserPermissions (combinedQuery user userID))).
    + intros w. by rewrite getUserPermissions_eq, Hident.
    + intros w err Herr. rewrite getUserPermissions_eq, Hident.
      unfold aborted. simpl in *.
      destruct (Store.GetUserPermissions _ _) as [db [e|]]; simpl in *;
        congruence.
Qed.

Lemma reports_getBasicRolePermissions (role : string) (orgID : Z) :
  reports (getBasicRolePermissions s role orgID) failed.
Proof.
  eapply reports_one_call.
  - intros w. unfold getBasicRolePermissions, mbind, M_bind, callStore.
    destruct (Store.GetBasicRolesPermissions _ _) as [db err]. done.
  - intros w err Herr. unfold failed.
    unfold getBasicRolePermissions, mbind, M_bind, callStore.
    simpl in Herr.
    destruct (Store.GetBasicRolesPermissions _ _) as [db e]. done.
Qed.

Lemma reports_getUserDirectPermissions (user : Requester) :
  reports (getUserDirectPermissions s user) failed.
Proof.
  unfold getUserDirectPermissions.
  destruct (directUserID user) as [userID [err|]].
  - by apply reports_no_call.
  - eapply reports_one_call.
    + intros w. unfold mbind, M_bind, callStore.
      destruct (Store.GetUserPermissions _ _) as [db [e|]]; done.
    + intros w err Herr. unfold failed, mbind, M_bind, callStore.
      simpl in Herr.
      destruct (Store.GetUserPermissions _ _) as [db [e|]]; simpl in *;
        congruence.
Qed.

Lemma reports_getCachedPermissions (key : string)
    (getPermissionsFn : GetPermissionsFn) (options : Options) :
  reports getPermissionsFn failed →
  reports (getCachedPermissions key getPermissionsFn options) (aborted []).
Proof.
  intros Hfn w.
  destruct (decide (ReloadCache options = false
                    ∧ is_Some (cache w !! key))) as [[Hreload [item Hitem]]|Hmiss].
  - rewrite (getCachedPermissions_hit key getPermissionsFn options w item)
      by done.
    exists []. rewrite app_nil_r.
    split; [done|]. left. intros call Hin. by apply elem_of_nil in Hin.
  - assert (ReloadCache options = true ∨ cache w !! key = None) as Hcase.
    { destruct (ReloadCache options); [by left|]. right.
      destruct (cache w !! key) eqn:Hk; [|done].
      exfalso. apply Hmiss. eauto. }
    rewrite getCachedPermissions_run by done.
    destruct (Hfn (withPermissionsCacheUsage incMiss w))
      as (calls & Hcalls & Hcases).
    destruct (getPermissionsFn (withPermissionsCacheUsage incMiss w))
      as [[permissions err] w1] eqn:Hfnw.
    simpl in *.
    exists calls. destruct err as [err|]; simpl.
    + split; [done|].
      destruct Hcases as [Hok|(err1 & Herr1 & Hothers)]; [by left|].
      right. exists err1. split; [|done].
      unfold failed, aborted in *. simpl in *. congruence.
    + split; [done|].
      destruct Hcases as [Hok|(err1 & Herr1 & Hothers)]; [by left|].
      unfold failed in Herr1. done.
Qed.

Lemma reports_cachedBasicRolesFrom (basicRoles : list string) (orgID : Z)
    (options : Options) (basicRolesPermissions : list Permission) :
  reports (cachedBasicRolesFrom s basicRoles orgID options
                                basicRolesPermissions)
          (aborted []).
Proof.
  revert basicRolesPermissions.
  induction basicRoles as [|role rest IH]; intros basicRolesPermissions.
  - by apply reports_no_call.
  - eapply (reports_seq
              (getCachedBasicRolePermissions s role orgID options)
              (λ permissions,
                 cachedBasicRolesFrom s rest orgID options
                   (basicRolesPermissions ++ permissions))).
    + intros w. simpl. unfold mbind, M_bind.
      destruct (getCachedBasicRolePermissions s role orgID options w)
        as [[permissions [err|]] w1]; done.
    + apply (aborted_failed []), reports_getCachedPermissions,
        reports_getBasicRolePermissions.
    + intros permissions. apply IH.
Qed.

Lemma reports_getCachedTeamsPermissions (user : Requester)
    (options : Options) :
  reports (getCachedTeamsPermissions s user options) (aborted []).
Proof.
  intros w. rewrite getCachedTeamsPermissions_eq. cbv zeta.
  destruct (if ReloadCache options then GetTeams user
            else missTeams (cache w) (GetOrgID user) (GetTeams user))
    as [|t miss] eqn:Hmiss.
  - exists []. rewrite app_nil_r. split; [by destruct (ReloadCache options)|].
    left. intros call Hin. by apply elem_of_nil in Hin.
  - set (query := {| GetUserPermissionsQuery.TeamIDs := t :: miss;
                     GetUserPermissionsQuery.OrgID := GetOrgID user;
                     GetUserPermissionsQuery.RolePrefixes := OSSRolesPrefixes;
                     GetUserPermissionsQuery.UserID := 0;
                     GetUserPermissionsQuery.Roles := [] |}).
    exists [CallGetTeamsPermissions query].
    destruct (Store.GetTeamsPermissions (store s) query)
      as [teamsPermissions [err|]] eqn:Hanswer; simpl.
    + split; [by destruct (ReloadCache options)|].
      right. exists err. split; [done|].
      intros call err' ->%list_elem_of_singleton. simpl.
      rewrite Hanswer. by intros [= <-].
    + split; [by destruct (ReloadCache options)|].
      left. intros call ->%list_elem_of_singleton. simpl.
      by rewrite Hanswer.
Qed.

Lemma reports_getCachedUserPermissions (user : Requester)
    (options : Options) :
  reports (getCachedUserPermissions s user options) (aborted []).
Proof.
  eapply (reports_seq
            (getCachedBasicRolesPermissions s user options)
            (λ basicRolesPermissions,
               '(teamsPermissions, err) ←
                 getCachedTeamsPermissions s user options;
               match err with
               | Some err => mret ([], Some err)
               | None =>
                   '(userPermissions, err) ←
                     getCachedUserDirectPermissions s user options;
                   match err with
                   | Some err => mret ([], Some err)
                   | None =>
                       mret ((([] ++ basicRolesPermissions)
                                ++ teamsPermissions) ++ userPermissions, None)
                   end
               end)).
  - intros w. unfold getCachedUserPermissions, mbind, M_bind.
    destruct (getCachedBasicRolesPermissions s user options w)
      as [[basic [err|]] w1]; done.
  - apply (aborted_failed []), reports_cachedBasicRolesFrom.
  - intros basic.
    eapply (reports_seq
              (getCachedTeamsPermissions s user options)
              (λ teamsPermissions,
                 '(userPermissions, err) ←
                   getCachedUserDirectPermissions s user options;
                 match err with
                 | Some err => mret ([], Some err)
                 | None =>
                     mret ((([] ++ basic) ++ teamsPermissions)
                             ++ userPermissions, None)
                 end)).
    + intros w. unfold mbind, M_bind.
      destruct (getCachedTeamsPermissions s user options w)
        as [[teams [err|]] w1]; done.
    + apply (aborted_failed []), reports_getCachedTeamsPermissions.
    + intros teams.
      eapply (reports_seq
                (getCachedUserDirectPermissions s user options)
                (λ userPermissions,
                   mret ((([] ++ basic) ++ teams) ++ userPermissions, None))).
      * intros w. unfold mbind, M_bind.
        destruct (getCachedUserDirectPermissions s user options w)
          as [[direct [err|]] w1]; done.
      * apply (aborted_failed []), reports_getCachedPermissions,
          reports_getUserDirectPermissions.
      * intros direct. by apply reports_no_call.
Qed.

End StoreErrors.

(** C3. The calls [GetUserPermissions] makes to the store are appended to
    the log; if the store answers any of them with an error, the resolution
    returns that error and the nil slice. *)
Theorem GetUserPermissions_store_error `{Imports} (s : Service)
    (user : Requester) (options : Options) (w : World) :
  ∃ calls,
    storeCalls (GetUserPermissions s user options w).2 = storeCalls w ++ calls
    ∧ ∀ call err,
        call ∈ calls →
        storeError (store s) call = Some err →
        (GetUserPermissions s user options w).1 = ([], Some err).
Proof.
  assert (reports s (GetUserPermissions s user options) (aborted [])) as Hreports.
  { unfold GetUserPermissions.
    destruct (negb (cfg_RBACPermissionCache s) || negb (HasUniqueId user)).
    - apply reports_getUserPermissions.
    - apply reports_getCachedUserPermissions. }
  destruct (Hreports w) as (calls & Hcalls & Hcase).
  exists calls. split; [done|]. intros call err Hin Herr.
  destruct Hcase as [Hok|(err0 & Haborted & Hothers)].
  - rewrite (Hok call Hin) in Herr. done.
  - rewrite (Hothers call err Hin Herr). exact Haborted.
Qed.

(** The failing store of the reference scenario: the basic-role and team
    sub-queries of user 44 are answered, the query of its direct permissions
    fails, and the resolution returns that error and no permission. *)
Lemma GetUserPermissions_store_error_witness :
  (GetUserPermissions Reference.failingService Reference.user44
                      Reference.noReload Reference.emptyWorld).1
  = ([], Some Reference.unavailable).
Proof.
  destruct (GetUserPermissions_store_error Reference.failingService
              Reference.user44 Reference.noReload Reference.emptyWorld)
    as (calls & Hcalls & Herr).
  apply (Herr (CallGetUserPermissions
                 {| GetUserPermissionsQuery.OrgID := 1;
                    GetUserPermissionsQuery.UserID := 44;
                    GetUserPermissionsQuery.RolePrefixes := OSSRolesPrefixes;
                    GetUserPermissionsQuery.Roles := [];
                    GetUserPermissionsQuery.TeamIDs := [] |}));
    [|reflexivity].
  vm_compute in Hcalls. rewrite <- Hcalls. do 2 right. left.
Defined.

(** ** The cached path *)

Section Cached.
Context `{Imports} (s : Service).

(** The query of the direct permissions of a principal resolved to
    [userID], and the query of the managed permissions of a basic role. *)
Definition directQuery (user : Requester) (userID : Z)
    : GetUserPermissionsQuery :=
  {| GetUserPermissionsQuery.OrgID := GetOrgID user;
     GetUserPermissionsQuery.UserID := userID;
     GetUserPermissionsQuery.RolePrefixes := OSSRolesPrefixes;
     GetUserPermissionsQuery.Roles := [];
     GetUserPermissionsQuery.TeamIDs := [] |}.

Definition basicRoleQuery (role : string) (orgID : Z)
    : GetUserPermissionsQuery :=
  {| GetUserPermissionsQuery.Roles := [role];
     GetUserPermissionsQuery.OrgID := orgID;
     GetUserPermissionsQuery.RolePrefixes := OSSRolesPrefixes;
     GetUserPermissionsQuery.UserID := 0;
     GetUserPermissionsQuery.TeamIDs := [] |}.

(** The permissions a basic role holds in memory. *)
Definition inMemory (role : string) : list Permission :=
  match roles s !! role with
  | Some basicRole => RoleDTO.Permissions basicRole
  | None => []
  end.

(** The permissions the cache holds for the basic roles of [basicRoles]. *)
Definition cachedBasicRoles (c : gmap string CacheItem) (orgID : Z)
    (basicRoles : list string) : list Permission :=
  concat (omap (λ role,
                  Object <$> c !! GetBasicRolePermissionCacheKey role orgID)
               basicRoles).

Lemma getBasicRolePermissions_eq (role : string) (orgID : Z) (w : World) :
  getBasicRolePermissions s role orgID w
  = ((inMemory role
        ++ (Store.GetBasicRolesPermissions (store s)
              (basicRoleQuery role orgID)).1,
      (Store.GetBasicRolesPermissions (store s) (basicRoleQuery role orgID)).2),
     withStoreCalls
       (λ calls,
          calls ++ [CallGetBasicRolesPermissions (basicRoleQuery role orgID)])
       w).
Proof.
  unfold getBasicRolePermissions, mbind, M_bind, callStore, inMemory.
  fold (basicRoleQuery role orgID).
  destruct (Store.GetBasicRolesPermissions _ _) as [db err].
  by destruct (roles s !! role).
Qed.

Lemma getUserDirectPermissions_eq (user : Requester) (w : World) :
  getUserDirectPermissions s user w
  = match directUserID user with
    | (_, Some err) => (([], Some err), w)
    | (userID, None) =>
        (match Store.GetUserPermissions (store s) (directQuery user userID) with
         | (_, Some err) => ([], Some err)
         | (permissions, None) => (permissions ++ sharedWithMe s, None)
         end,
         withStoreCalls
           (λ calls,
              calls ++ [CallGetUserPermissions (directQuery user userID)])
           w)
    end.
Proof.
  unfold getUserDirectPermissions, sharedWithMe.
  destruct (directUserID user) as [userID [err|]]; [done|].
  unfold mbind, M_bind, callStore. fold (directQuery user userID).
  destruct (Store.GetUserPermissions _ _) as [permissions [err|]]; [done|].
  destruct (features s FlagNestedFolders); [done|]. by rewrite app_nil_r.
Qed.

(** The basic roles whose entries are all in the cache are read from it. *)
Lemma cachedBasicRolesFrom_warm (basicRoles : list string) (orgID : Z)
    (options : Options) (basicRolesPermissions : list Permission) (w : World) :
  ReloadCache options = false →
  (∀ role, role ∈ basicRoles →
     is_Some (cache w !! GetBasicRolePermissionCacheKey role orgID)) →
  cachedBasicRolesFrom s basicRoles orgID options basicRolesPermissions w
  = ((basicRolesPermissions ++ cachedBasicRoles (cache w) orgID basicRoles,
      None),
     withPermissionsCacheUsage (addHits (length basicRoles)) w).
Proof.
  intros Hreload. revert basicRolesPermissions w.
  induction basicRoles as [|role rest IH]; intros acc w Hwarm.
  - simpl. rewrite app_nil_r. by destruct w as [? ? [? ?] ?].
  - destruct (Hwarm role) as [item Hitem]; [by left|].
    simpl. unfold mbind, M_bind, getCachedBasicRolePermissions.
    rewrite (getCachedPermissions_hit _ _ _ _ item) by done.
    rewrite IH by (intros r Hr; apply Hwarm; by right).
    unfold cachedBasicRoles. simpl. rewrite Hitem. simpl.
    rewrite <- app_assoc.
    unfold withPermissionsCacheUsage, addHits, incHit. simpl.
    repeat f_equal; lia.
Qed.

Lemma missTeams_warm (c : gmap string CacheItem) (orgID : Z) (teams : list Z) :
  (∀ teamID, teamID ∈ teams →
     is_Some (c !! GetTeamPermissionCacheKey teamID orgID)) →
  missTeams c orgID teams = [].
Proof.
  intros Hwarm. unfold missTeams.
  induction teams as [|t teams IH]; [done|]. simpl.
  destruct (Hwarm t) as [item Hitem]; [by left|].
  rewrite Hitem. simpl. apply IH. intros t' Ht'. apply Hwarm. by right.
Qed.

End Cached.

(** C8. [ClearUserPermissionCache] deletes the entries under the
    principal's aggregate key and direct-permission key, and nothing else:
    every other key keeps its entry, and the store is not called.  A cached
    resolution that follows, without [ReloadCache], for a principal whose
    identifier resolves and whose basic-role and team entries are in the
    cache, calls the store exactly once, for the direct permissions, and
    counts one miss; when the store answers, the answer is stored under the
    direct-permission key with the time to live of 60 seconds. *)
Theorem ClearUserPermissionCache_spec `{Imports} (s : Service)
    (user : Requester) (w : World) :
  let w1 := (ClearUserPermissionCache user w).2 in
  (cache w1
   = delete (GetUserDirectPermissionCacheKey user)
            (delete (GetPermissionCacheKey user) (cache w))
   ∧ cache w1 !! GetPermissionCacheKey user = None
   ∧ cache w1 !! GetUserDirectPermissionCacheKey user = None
   ∧ (∀ key,
        key ≠ GetPermissionCacheKey user →
        key ≠ GetUserDirectPermissionCacheKey user →
        cache w1 !! key = cache w !! key)
   ∧ storeCalls w1 = storeCalls w
   ∧ permissionsCacheUsage w1 = permissionsCacheUsage w
   ∧ searchCacheUsage w1 = searchCacheUsage w)
  ∧ (∀ (options : Options) (userID : Z),
       ReloadCache options = false →
       directUserID user = (userID, None) →
       (∀ role, role ∈ GetOrgRoles user →
          is_Some (cache w1
                     !! GetBasicRolePermissionCacheKey role (GetOrgID user))) →
       (∀ teamID, teamID ∈ GetTeams user →
          is_Some (cache w1
                     !! GetTeamPermissionCacheKey teamID (GetOrgID user))) →
       let query := directQuery user userID in
       let result := (getCachedUserPermissions s user options w1).1 in
       let w2 := (getCachedUserPermissions s user options w1).2 in
       storeCalls w2 = storeCalls w ++ [CallGetUserPermissions query]
       ∧ CacheMiss (permissionsCacheUsage w2)
         = S (CacheMiss (permissionsCacheUsage w))
       ∧ match Store.GetUserPermissions (store s) query with
         | (_, Some err) => cache w2 = cache w1 ∧ result = ([], Some err)
         | (permissions, None) =>
             cache w2
             = <[GetUserDirectPermissionCacheKey user :=
                   {| Object := permissions ++ sharedWithMe s;
                      Expiration := 60 * 1000000000 |}]> (cache w1)
             ∧ result
               = ((cachedBasicRoles (cache w1) (GetOrgID user)
                                    (GetOrgRoles user)
                     ++ hitPermissions (cache w1) (GetOrgID user)
                                       (GetTeams user))
                    ++ permissions ++ sharedWithMe s, None)
         end).
Proof.
  intros w1. split.
  - subst w1. unfold ClearUserPermissionCache, mbind, M_bind, Cache.Delete.
    simpl. split_and!; try done.
    + rewrite lookup_delete. case_decide; [done|]. by rewrite lookup_delete_eq.
    + by rewrite lookup_delete_eq.
    + intros key Hagg Hdirect. by rewrite !lookup_delete_ne.
  - intros options userID Hreload Huser Hroles Hteams query result w2.
    assert (cache w1 !! GetUserDirectPermissionCacheKey user = None)
      as Hdirect.
    { subst w1. unfold ClearUserPermissionCache, mbind, M_bind, Cache.Delete.
      simpl. by rewrite lookup_delete_eq. }
    assert (storeCalls w1 = storeCalls w
            ∧ CacheMiss (permissionsCacheUsage w1)
              = CacheMiss (permissionsCacheUsage w)) as [Hcalls Hcount].
    { by subst w1. }
    assert (getCachedUserPermissions s user options w1
            = let w' :=
                withPermissionsCacheUsage incMiss
                  (withPermissionsCacheUsage
                     (addHits (hitCount (cache w1) (GetOrgID user)
                                        (GetTeams user)))
                     (withPermissionsCacheUsage
                        (addHits (length (GetOrgRoles user))) w1)) in
              let w'' :=
                withStoreCalls
                  (λ calls, calls ++ [CallGetUserPermissions query]) w' in
              match Store.GetUserPermissions (store s) query with
              | (_, Some err) => (([], Some err), w'')
              | (permissions, None) =>
                  (((cachedBasicRoles (cache w1) (GetOrgID user)
                                      (GetOrgRoles user)
                       ++ hitPermissions (cache w1) (GetOrgID user)
                                         (GetTeams user))
                      ++ permissions ++ sharedWithMe s, None),
                   withCache
                     <[GetUserDirectPermissionCacheKey user :=
                         {| Object := permissions ++ sharedWithMe s;
                            Expiration := cacheTTL |}]> w'')
              end) as Heq.
    { unfold getCachedUserPermissions, mbind, M_bind,
        getCachedBasicRolesPermissions.
      rewrite cachedBasicRolesFrom_warm by done.
      rewrite getCachedTeamsPermissions_eq. cbv zeta.
      rewrite Hreload. simpl cache.
      rewrite missTeams_warm by done.
      unfold getCachedUserDirectPermissions.
      rewrite getCachedPermissions_run by (right; done).
      rewrite getUserDirectPermissions_eq, Huser. fold query.
      destruct (Store.GetUserPermissions (store s) query)
        as [permissions [err|]]; done. }
    subst result w2. rewrite Heq. cbv zeta.
    destruct (Store.GetUserPermissions (store s) query)
      as [permissions [err|]]; simpl; rewrite ?Hcalls, ?Hcount; done.
Qed.

(** The scenario of [Reference.warm44]: after the cache of user 44 was
    cleared, the next cached resolution asks the store once, for the direct
    permissions of the user. *)
Lemma ClearUserPermissionCache_spec_witness :
  let w1 := (ClearUserPermissionCache Reference.user44 Reference.warm44).2 in
  storeCalls (getCachedUserPermissions (Reference.service true)
                Reference.user44 Reference.noReload w1).2
  = storeCalls Reference.warm44
      ++ [CallGetUserPermissions (directQuery Reference.user44 44)].
Proof.
  intros w1.
  destruct (ClearUserPermissionCache_spec (Reference.service true)
              Reference.user44 Reference.warm44) as [_ Hthen].
  refine (proj1 (Hthen Reference.noReload 44 eq_refl eq_refl _ _)).
  - intros role ->%list_elem_of_singleton. vm_compute. eauto.
  - intros teamID [->| ->%list_elem_of_singleton]%elem_of_cons;
      vm_compute; eauto.
Defined.

(** The claim that every cached resolution with warm basic-role and team
    entries that follows a clearing calls the store exactly once and stores
    the direct permissions again fails on three inputs of the scenario of
    [Reference.warm44], where the entries of the basic role "Viewer" and of
    the teams 11 and 12 are in the cache after the clearing: with
    [ReloadCache] the resolution calls the store three times; over a store that fails the one call leaves no entry under
    the direct-permission key; and for a principal whose identifier is no
    number the resolution fails before any call. *)
Lemma ClearUserPermissionCache_counterexample :
  (cache (ClearUserPermissionCache Reference.user44 Reference.warm44).2
     !! GetBasicRolePermissionCacheKey "Viewer" 1
   = Some {| Object := [Reference.dashboardsRead]; Expiration := cacheTTL |}
   ∧ cache (ClearUserPermissionCache Reference.user44 Reference.warm44).2
       !! GetTeamPermissionCacheKey 11 1
     = Some {| Object := [Reference.teamsRead]; Expiration := cacheTTL |}
   ∧ cache (ClearUserPermissionCache Reference.user44 Reference.warm44).2
       !! GetTeamPermissionCacheKey 12 1
     = Some {| Object := [Reference.foldersWrite]; Expiration := cacheTTL |})
  ∧ storeCalls
    (getCachedUserPermissions (Reference.service true) Reference.user44
       Reference.reload
       (ClearUserPermissionCache Reference.user44 Reference.warm44).2).2
  = storeCalls Reference.warm44
      ++ [CallGetBasicRolesPermissions (basicRoleQuery "Viewer" 1);
          CallGetTeamsPermissions
            {| GetUserPermissionsQuery.TeamIDs := [11; 12];
               GetUserPermissionsQuery.OrgID := 1;
               GetUserPermissionsQuery.RolePrefixes := OSSRolesPrefixes;
               GetUserPermissionsQuery.UserID := 0;
               GetUserPermissionsQuery.Roles := [] |};
          CallGetUserPermissions (directQuery Reference.user44 44)]
  ∧ getCachedUserPermissions Reference.failingService Reference.user44
      Reference.noReload
      (ClearUserPermissionCache Reference.user44 Reference.warm44).2
    = (([], Some Reference.unavailable),
       withStoreCalls
         (λ calls,
            calls ++ [CallGetUserPermissions (directQuery Reference.user44 44)])
         (withPermissionsCacheUsage (λ usage, incMiss (addHits 3 usage))
            (ClearUserPermissionCache Reference.user44 Reference.warm44).2))
  ∧ cache
      (getCachedUserPermissions Reference.failingService Reference.user44
         Reference.noReload
         (ClearUserPermissionCache Reference.user44 Reference.warm44).2).2
      !! GetUserDirectPermissionCacheKey Reference.user44 = None
  ∧ getCachedUserPermissions (Reference.service true) Reference.userAbc
      Reference.noReload
      (ClearUserPermissionCache Reference.userAbc Reference.warm44).2
    = (([], Some (NumError "ParseInt" "abc" ErrSyntax)),
       withPermissionsCacheUsage (λ usage, incMiss (addHits 3 usage))
         (ClearUserPermissionCache Reference.userAbc Reference.warm44).2).
Proof. split_and!; by vm_compute. Qed.

(** ** The visibility gate of the search *)

Section Visibility.
Context `{Imports}.

(** A scope that grants the view of one user: three parts, the last one a
    number. *)
Definition grantsUser (scope : string) (userID : Z) : Prop :=
  ∃ kind attribute identifier,
    strings.Split scope ":" = [kind; attribute; identifier]
    ∧ strconv.ParseInt identifier = (userID, None).

Lemma canViewScopes_wildcard (scopes : list string) (ids : gmap Z bool)
    (userID : Z) :
  (∃ scope, scope ∈ scopes ∧ strings.HasSuffix scope "*" = true) →
  canViewScopes scopes ids userID = true.
Proof.
  revert ids. induction scopes as [|scope rest IH];
    intros ids (wild & Hin & Hwild).
  - by apply elem_of_nil in Hin.
  - simpl. destruct (strings.HasSuffix scope "*") eqn:Hsuffix; [done|].
    apply elem_of_cons in Hin as [->|Hin]; [congruence|].
    assert (∀ ids', canViewScopes rest ids' userID = true) as Hrest.
    { intros ids'. apply IH. eauto. }
    destruct (negb _); [apply Hrest|].
    destruct (strconv.ParseInt _) as [id [err|]]; apply Hrest.
Qed.

Lemma canViewScopes_scoped (scopes : list string) (ids : gmap Z bool)
    (userID : Z) :
  (∀ scope, scope ∈ scopes → strings.HasSuffix scope "*" = false) →
  (∀ id b, ids !! id = Some b → b = true) →
  canViewScopes scopes ids userID = true
  ↔ is_Some (ids !! userID)
    ∨ ∃ scope, scope ∈ scopes ∧ grantsUser scope userID.
Proof.
  revert ids. induction scopes as [|scope rest IH]; intros ids Hscoped Hids.
  - simpl. split.
    + destruct (ids !! userID) eqn:Hid; [eauto | done].
    + intros [[b Hb]|(scope & Hin & _)]; [|by apply elem_of_nil in Hin].
      rewrite Hb. simpl. by eapply Hids.
  - simpl. rewrite (Hscoped scope) by (by left).
    assert (∀ scope', scope' ∈ rest → strings.HasSuffix scope' "*" = false)
      as Hrest by (intros; apply Hscoped; by right).
    destruct (strings.Split scope ":") as [|kind [|attribute [|identifier [|]]]]
      eqn:Hsplit; simpl;
      try (rewrite (IH ids Hrest Hids); split;
           [intros [?|(scope' & Hin & Hg)]; [by left|];
            right; exists scope'; split; [by right | done]
           |intros [?|(scope' & [->|Hin]%elem_of_cons & Hg)]; [by left| |];
            [destruct Hg as (k & a & i & Hs & _); congruence
            |right; eauto]]).
    destruct (strconv.ParseInt identifier) as [id [err|]] eqn:Hparse.
    + rewrite (IH ids Hrest Hids). split.
      * intros [?|(scope' & Hin & Hg)]; [by left|].
        right. exists scope'. split; [by right | done].
      * intros [?|(scope' & [->|Hin]%elem_of_cons & Hg)]; [by left| |].
        -- destruct Hg as (k & a & i & Hs & Hp).
           rewrite Hsplit in Hs. injection Hs as <- <- <-. congruence.
        -- right. eauto.
    + rewrite (IH (<[id := true]> ids) Hrest).
      2:{ intros id' b. rewrite lookup_insert. case_decide; [congruence|].
          apply Hids. }
      split.
      * intros [Hsome|(scope' & Hin & Hg)].
        -- rewrite lookup_insert in Hsome. case_decide as Hid; [|by left].
           subst id. right. exists scope. split; [by left|].
           by exists kind, attribute, identifier.
        -- right. exists scope'. split; [by right | done].
      * intros [Hsome|(scope' & [->|Hin]%elem_of_cons & Hg)].
        -- left. rewrite lookup_insert. case_decide; [eauto | done].
        -- destruct Hg as (k & a & i & Hs & Hp).
           rewrite Hsplit in Hs. injection Hs as <- <- <-.
           left. rewrite Hparse in Hp. injection Hp as ->.
           rewrite lookup_insert_eq. eauto.
        -- right. eauto.
Qed.

Lemma canView_no_action (usr : Requester) (userID : Z) :
  GetPermissions usr !! ActionUsersPermissionsRead = None →
  canView usr userID = false.
Proof.
  intros Hnone. unfold canView. rewrite Hnone.
  by destruct (size (GetPermissions usr) =? 0)%nat.
Qed.

Lemma canView_action (usr : Requester) (scopes : list string) :
  GetPermissions usr !! ActionUsersPermissionsRead = Some scopes →
  canView usr = canViewScopes scopes ∅.
Proof.
  intros Hsome. unfold canView. rewrite Hsome.
  destruct (size (GetPermissions usr) =? 0)%nat eqn:Hsize; [|done].
  apply Nat.eqb_eq, map_size_empty_iff in Hsize.
  rewrite Hsize, lookup_empty in Hsome. done.
Qed.

(** The permissions [mergeUser] gathers for a user. *)
Definition mergedPermissions
    (basicPermissions : gmap string (list Permission))
    (usersPermissions : gmap Z (list Permission))
    (userID : Z) (userRoles : list string) : list Permission :=
  foldl (λ perms role,
           match basicPermissions !! role with
           | None => perms
           | Some basicPermission => perms ++ basicPermission
           end) [] userRoles
  ++ default [] (usersPermissions !! userID).

Lemma mergeUser_lookup (view : Z → bool)
    (basicPermissions : gmap string (list Permission))
    (usersPermissions : gmap Z (list Permission))
    (res : gmap Z (list Permission)) (userID : Z) (userRoles : list string)
    (other : Z) :
  mergeUser view basicPermissions usersPermissions res userID userRoles
    !! other
  = if decide (other = userID) then
      if view userID then
        match mergedPermissions basicPermissions usersPermissions
                                userID userRoles with
        | [] => res !! userID
        | perms => Some perms
        end
      else res !! userID
    else res !! other.
Proof.
  unfold mergeUser, mergedPermissions.
  set (basic := foldl _ [] userRoles).
  assert ((match usersPermissions !! userID with
           | Some dbPerms => basic ++ dbPerms
           | None => basic
           end) = basic ++ default [] (usersPermissions !! userID)) as ->.
  { destruct (usersPermissions !! userID); [done|]. simpl.
    by rewrite app_nil_r. }
  destruct (view userID); simpl.
  - destruct (basic ++ default [] (usersPermissions !! userID)) as [|p perms];
      simpl.
    + case_decide; by subst.
    + rewrite lookup_insert. repeat case_decide; congruence.
  - case_decide; by subst.
Qed.

Lemma mergeUsers_lookup (view : Z → bool)
    (basicPermissions : gmap string (list Permission))
    (usersPermissions : gmap Z (list Permission))
    (usersRoles : gmap Z (list string)) (userID : Z) :
  mergeUsers view basicPermissions usersPermissions usersRoles !! userID
  = if view userID then
      match usersRoles !! userID with
      | Some userRoles =>
          match mergedPermissions basicPermissions usersPermissions
                                  userID userRoles with
          | [] => None
          | perms => Some perms
          end
      | None => None
      end
    else None.
Proof.
  unfold mergeUsers.
  assert (∀ (l : list (Z * list string)) (res : gmap Z (list Permission)),
            NoDup l.*1 →
            foldl (λ res '(userID, userRoles),
                     mergeUser view basicPermissions usersPermissions res
                               userID userRoles) res l !! userID
            = match list_find (λ entry, entry.1 = userID) l with
              | Some (_, (_, userRoles)) =>
                  if view userID then
                    match mergedPermissions basicPermissions usersPermissions
                                            userID userRoles with
                    | [] => res !! userID
                    | perms => Some perms
                    end
                  else res !! userID
              | None => res !! userID
              end) as Hfold.
  { induction l as [|[k v] l IH]; intros res Hnodup; [done|].
    simpl in Hnodup. apply NoDup_cons in Hnodup as [Hfresh Hnodup].
    simpl. rewrite IH by done. case_decide as Hk; simpl in Hk.
    - subst k. simpl.
      assert (list_find (λ entry, entry.1 = userID) l = None) as ->.
      { apply list_find_None, Forall_forall. intros [k' v'] Hin Heq.
        simpl in Heq. subst k'. apply Hfresh.
        apply list_elem_of_fmap. by exists (userID, v'). }
      simpl. rewrite mergeUser_lookup. by rewrite decide_True.
    - destruct (list_find _ l) as [[i [k' v']]|] eqn:Hfind; simpl.
      + apply list_find_Some in Hfind as (_ & Hk' & _). simpl in Hk'.
        rewrite mergeUser_lookup. rewrite decide_False by congruence. done.
      + rewrite mergeUser_lookup. by rewrite decide_False by congruence. }
  rewrite Hfold by apply NoDup_fst_map_to_list.
  rewrite lookup_empty.
  destruct (list_find _ _) as [[i [k v]]|] eqn:Hfind.
  - apply list_find_Some in Hfind as (Hi & Hk & _). simpl in Hk. subst k.
    apply list_elem_of_lookup_2, elem_of_map_to_list in Hi. rewrite Hi.
    destruct (view userID); [|done].
    by destruct (mergedPermissions _ _ _ _).
  - destruct (usersRoles !! userID) as [userRoles|] eqn:Hroles.
    + exfalso. apply list_find_None in Hfind.
      apply elem_of_map_to_list in Hroles.
      rewrite Forall_forall in Hfind. by apply (Hfind _ Hroles).
    + by destruct (view userID).
Qed.

End Visibility.

Section Search.
Context `{Imports} (s : Service).

(** The bulk path of the search, written out. *)
Lemma SearchUsersPermissions_bulk (usr : Requester) (options : SearchOptions)
    (w : World) :
  SearchOptions.NamespacedID options = "" →
  let options' := withRolePrefixes options OSSRolesPrefixes in
  let orgID := GetOrgID usr in
  let w1 :=
    withStoreCalls (λ calls, calls ++ [CallGetUsersBasicRoles [] orgID]) w in
  let w2 :=
    withStoreCalls
      (λ calls, calls ++ [CallSearchUsersPermissions orgID options']) w1 in
  SearchUsersPermissions s usr options w
  = match Store.GetUsersBasicRoles (store s) [] orgID with
    | (_, Some err) => ((nilMap, Some err), w1)
    | (usersRoles, None) =>
        match Store.SearchUsersPermissions (store s) orgID options' with
        | (_, Some err) => ((nilMap, Some err), w2)
        | (usersPermissions, None) =>
            ((mergeUsers (canView usr) (filterBasicRoles s options')
                         usersPermissions usersRoles, None), w2)
        end
    end.
Proof.
  intros Hbulk. unfold SearchUsersPermissions. simpl. rewrite Hbulk. simpl.
  unfold mbind, M_bind, callStore.
  destruct (Store.GetUsersBasicRoles _ _ _) as [usersRoles [err|]]; [done|].
  destruct (Store.SearchUsersPermissions _ _ _) as [usersPermissions [err|]];
    done.
Qed.

(** The users of the result of the bulk path are users the requester can
    view. *)
Lemma SearchUsersPermissions_bulk_visible (usr : Requester)
    (options : SearchOptions) (w : World) (userID : Z) :
  SearchOptions.NamespacedID options = "" →
  is_Some ((SearchUsersPermissions s usr options w).1.1 !! userID) →
  canView usr userID = true.
Proof.
  intros Hbulk. rewrite SearchUsersPermissions_bulk by done. cbv zeta.
  destruct (Store.GetUsersBasicRoles _ _ _) as [usersRoles [err|]]; simpl.
  { unfold nilMap. rewrite lookup_empty. by intros [? ?]. }
  destruct (Store.SearchUsersPermissions _ _ _) as [usersPermissions [err|]];
    simpl.
  { unfold nilMap. rewrite lookup_empty. by intros [? ?]. }
  rewrite mergeUsers_lookup.
  destruct (canView usr userID); [done | by intros [? ?]].
Qed.

End Search.

(** C2. On the bulk path of [SearchUsersPermissions] every user of the
    result is a user the requester can view.  A requester without the action
    to view user permissions gets the empty map.  With the action, one scope
    ending in ["*"] lets it view every user; without such a scope it can view
    exactly the users named by a scope of three parts whose last part is the
    user's number, so a requester all of whose scopes name user 7 gets
    permissions for no user but 7, whatever the store answers.  When the store
    answers, a user appears exactly when the requester can view it, it has
    basic roles in the organisation, and its merged permissions are not
    empty. *)
Theorem SearchUsersPermissions_visibility `{Imports} (s : Service)
    (usr : Requester) (options : SearchOptions) (w : World) :
  SearchOptions.NamespacedID options = "" →
  let result := (SearchUsersPermissions s usr options w).1.1 in
  let options' := withRolePrefixes options OSSRolesPrefixes in
  (∀ userID, is_Some (result !! userID) → canView usr userID = true)
  ∧ (GetPermissions usr !! ActionUsersPermissionsRead = None → result = ∅)
  ∧ (∀ scopes,
       GetPermissions usr !! ActionUsersPermissionsRead = Some scopes →
       ((∃ scope, scope ∈ scopes ∧ strings.HasSuffix scope "*" = true) →
          ∀ userID, canView usr userID = true)
       ∧ ((∀ scope, scope ∈ scopes → strings.HasSuffix scope "*" = false) →
            ∀ userID,
              canView usr userID = true
              ↔ ∃ scope, scope ∈ scopes ∧ grantsUser scope userID)
       ∧ ((∀ scope, scope ∈ scopes →
             strings.HasSuffix scope "*" = false
             ∧ ∀ userID, grantsUser scope userID → userID = 7) →
            ∀ userID, is_Some (result !! userID) → userID = 7))
  ∧ (∀ usersRoles usersPermissions,
       Store.GetUsersBasicRoles (store s) [] (GetOrgID usr)
       = (usersRoles, None) →
       Store.SearchUsersPermissions (store s) (GetOrgID usr) options'
       = (usersPermissions, None) →
       ∀ userID,
         result !! userID
         = if canView usr userID then
             match usersRoles !! userID with
             | Some userRoles =>
                 match mergedPermissions (filterBasicRoles s options')
                                         usersPermissions userID userRoles with
                 | [] => None
                 | perms => Some perms
                 end
             | None => None
             end
           else None).
Proof.
  intros Hbulk result options'.
  assert (∀ userID, is_Some (result !! userID) → canView usr userID = true)
    as Hvisible.
  { intros userID. by apply SearchUsersPermissions_bulk_visible. }
  split; [done|]. split; [|split].
  - intros Hnone. apply map_eq. intros userID. rewrite lookup_empty.
    destruct (result !! userID) as [perms|] eqn:Hlookup; [|done].
    assert (canView usr userID = true) as Hview by (apply Hvisible; eauto).
    by rewrite canView_no_action in Hview.
  - intros scopes Hscopes. rewrite (canView_action usr scopes Hscopes) in *.
    assert (∀ userID,
              (∀ scope, scope ∈ scopes → strings.HasSuffix scope "*" = false) →
              canViewScopes scopes ∅ userID = true
              ↔ ∃ scope, scope ∈ scopes ∧ grantsUser scope userID) as Hscoped.
    { intros userID Hnowild. rewrite canViewScopes_scoped; [|done|].
      - rewrite lookup_empty. split; [|by right].
        by intros [[? ?]|?].
      - intros id b. by rewrite lookup_empty. }
    split_and!.
    + intros Hwild userID. by apply canViewScopes_wildcard.
    + intros Hnowild userID. by apply Hscoped.
    + intros Hseven userID Hin. apply Hvisible in Hin.
      apply Hscoped in Hin as (scope & Hscope & Hgrant).
      * by apply (Hseven scope Hscope).
      * intros scope Hscope. by apply Hseven.
  - intros usersRoles usersPermissions HusersRoles HusersPermissions userID.
    subst result. rewrite SearchUsersPermissions_bulk by done. cbv zeta.
    fold options'. rewrite HusersRoles, HusersPermissions. simpl.
    apply mergeUsers_lookup.
Qed.

(** The scenario of [Reference.auditor]: the requester's only scope names
    user 7; the store knows the users 7, 8 and 42, and holds grants for 8
    and 42; the result holds permissions for no user but 7. *)
Lemma SearchUsersPermissions_visibility_witness :
  (SearchUsersPermissions (Reference.service true) Reference.auditor
     Reference.searchAll Reference.emptyWorld).1.1 !! 8 = None
  ∧ (SearchUsersPermissions (Reference.service true) Reference.auditor
       Reference.searchAll Reference.emptyWorld).1.1 !! 42 = None.
Proof.
  destruct (SearchUsersPermissions_visibility
              (Reference.service true) Reference.auditor Reference.searchAll
              Reference.emptyWorld eq_refl)
    as (_ & _ & Hscopes & _).
  destruct (Hscopes ["users:id:7"] eq_refl) as (_ & _ & Hseven).
  assert (∀ userID,
            is_Some ((SearchUsersPermissions (Reference.service true)
                        Reference.auditor Reference.searchAll
                        Reference.emptyWorld).1.1 !! userID) →
            userID = 7) as Honly.
  { apply Hseven. intros scope ->%list_elem_of_singleton.
    split; [reflexivity|].
    intros userID (kind & attribute & identifier & Hsplit & Hparse).
    vm_compute in Hsplit. injection Hsplit as <- <- <-.
    vm_compute in Hparse. by injection Hparse. }
  split.
  - destruct (_ !! 8) eqn:Hlookup; [|done].
    by specialize (Honly 8 (ex_intro _ _ Hlookup)).
  - destruct (_ !! 42) eqn:Hlookup; [|done].
    by specialize (Honly 42 (ex_intro _ _ Hlookup)).
Defined.

(** ** The cached and the uncached path agree *)

Section Multisets.
Context {A : Type}.

Lemma concat_Permutation (l1 l2 : list (list A)) :
  l1 ≡ₚ l2 → concat l1 ≡ₚ concat l2.
Proof.
  induction 1 as [|x l1 l2 _ IH|x y l|l1 l2 l3 _ IH1 _ IH2]; simpl.
  - done.
  - by rewrite IH.
  - rewrite !app_assoc. by rewrite (Permutation_app_comm y x).
  - by rewrite IH1.
Qed.

(** The values of a map, gathered along a list without repetition that
    holds its keys. *)
Lemma concat_lookup_Permutation (l : list Z) (m : gmap Z (list A)) :
  NoDup l →
  (∀ k, is_Some (m !! k) → k ∈ l) →
  concat ((λ k, default [] (m !! k)) <$> l) ≡ₚ concat (map_to_list m).*2.
Proof.
  revert m. induction l as [|k l IH]; intros m Hnodup Hdom.
  - assert (m = ∅) as ->.
    { apply map_eq. intros k. rewrite lookup_empty.
      destruct (m !! k) eqn:Hk; [|done].
      exfalso. eapply elem_of_nil, Hdom. eauto. }
    by rewrite map_to_list_empty.
  - apply NoDup_cons in Hnodup as [Hfresh Hnodup].
    assert ((λ k', default [] (m !! k')) <$> l
            = (λ k', default [] (delete k m !! k')) <$> l) as Hl.
    { apply list_fmap_ext. intros i k' Hk'.
      rewrite lookup_delete_ne; [done|].
      intros ->. apply Hfresh. by eapply list_elem_of_lookup_2. }
    rewrite fmap_cons. cbn [concat]. rewrite Hl, (IH (delete k m)); [|done|].
    + destruct (m !! k) as [x|] eqn:Hk; simpl.
      * rewrite <- (concat_Permutation _ _
                     (fmap_Permutation snd _ _ (map_to_list_delete m k x Hk))).
        done.
      * by rewrite delete_id.
    + intros k' [x Hk']. rewrite lookup_delete in Hk'.
      case_decide; [done|].
      assert (k' ∈ k :: l) as [->|Hin]%elem_of_cons by (apply Hdom; eauto);
        done.
Qed.

Lemma concat_fmap_partition {B : Type} (f : B → list A) (p : B → bool)
    (l : list B) :
  concat (f <$> List.filter p l)
    ++ concat (f <$> List.filter (λ x, negb (p x)) l)
  ≡ₚ concat (f <$> l).
Proof.
  induction l as [|x l IH]; [done|]. simpl.
  destruct (p x); simpl.
  - by rewrite <- app_assoc, IH.
  - rewrite <- IH. solve_Permutation.
Qed.

Lemma concat_fmap_app {B : Type} (f g : B → list A) (l : list B) :
  concat ((λ x, f x ++ g x) <$> l) ≡ₚ concat (f <$> l) ++ concat (g <$> l).
Proof.
  induction l as [|x l IH]; [done|]. simpl. rewrite IH. solve_Permutation.
Qed.

End Multisets.

Section Equivalence.
Context `{Imports} (s : Service) (user : Requester) (userID : Z).

(** The answers of the store to the queries of the two paths, for a
    principal resolved to [userID]. *)
Definition basicAnswer (role : string) : Result (list Permission) :=
  Store.GetBasicRolesPermissions (store s)
    (basicRoleQuery role (GetOrgID user)).

Definition teamsQuery (teamIDs : list Z) : GetUserPermissionsQuery :=
  {| GetUserPermissionsQuery.TeamIDs := teamIDs;
     GetUserPermissionsQuery.OrgID := GetOrgID user;
     GetUserPermissionsQuery.RolePrefixes := OSSRolesPrefixes;
     GetUserPermissionsQuery.UserID := 0;
     GetUserPermissionsQuery.Roles := [] |}.

Definition teamsAnswer (teamIDs : list Z)
    : Result (gmap Z (list Permission)) :=
  Store.GetTeamsPermissions (store s) (teamsQuery teamIDs).

Definition directAnswer : Result (list Permission) :=
  Store.GetUserPermissions (store s) (directQuery user userID).

Definition combinedAnswer : Result (list Permission) :=
  Store.GetUserPermissions (store s) (combinedQuery user userID).

(** What a resolution computes for a basic role, on a miss. *)
Definition expectedBasic (role : string) : list Permission :=
  inMemory s role ++ (basicAnswer role).1.

(** The store is coherent for the principal: it answers the queries of the
    two paths without error; asked for some of the principal's teams it
    answers, for each team asked, what it answers for that team when asked
    for all of them, and nothing for any other team; and its answer to the
    combined query holds the permissions of its answers for the basic roles,
    for the teams and for the user, as a multiset. *)
Definition StoreCoherent : Prop :=
  (∀ role, role ∈ GetOrgRoles user → (basicAnswer role).2 = None)
  ∧ (∀ teamIDs,
       (∀ teamID, teamID ∈ teamIDs → teamID ∈ GetTeams user) →
       (teamsAnswer teamIDs).2 = None
       ∧ ∀ teamID,
           (teamsAnswer teamIDs).1 !! teamID
           = if decide (teamID ∈ teamIDs)
             then (teamsAnswer (GetTeams user)).1 !! teamID
             else None)
  ∧ directAnswer.2 = None
  ∧ combinedAnswer.2 = None
  ∧ combinedAnswer.1
    ≡ₚ concat ((λ role, (basicAnswer role).1) <$> GetOrgRoles user)
       ++ concat (map_to_list (teamsAnswer (GetTeams user)).1).*2
       ++ directAnswer.1.

(** The entry under the principal's direct-permission key, if any, is what
    a resolution computes. *)
Definition DirectConsistent (c : gmap string CacheItem) : Prop :=
  ∀ item,
    c !! GetUserDirectPermissionCacheKey user = Some item →
    Object item = directAnswer.1 ++ sharedWithMe s.

(** The cache is consistent with the store for the principal: an entry
    under the key of one of its basic roles, of one of its teams or of its
    direct permissions holds what a resolution computes for it.  The empty
    cache is. *)
Definition CacheConsistent (c : gmap string CacheItem) : Prop :=
  (∀ role item,
     role ∈ GetOrgRoles user →
     c !! GetBasicRolePermissionCacheKey role (GetOrgID user) = Some item →
     Object item = expectedBasic role)
  ∧ (∀ teamID item,
       teamID ∈ GetTeams user →
       c !! GetTeamPermissionCacheKey teamID (GetOrgID user) = Some item →
       Object item
       = default [] ((teamsAnswer (GetTeams user)).1 !! teamID))
  ∧ DirectConsistent c.

(** The keys of the principal's entries tell its entities apart. *)
Definition KeysDistinct : Prop :=
  (∀ role role',
     role ∈ GetOrgRoles user → role' ∈ GetOrgRoles user →
     GetBasicRolePermissionCacheKey role (GetOrgID user)
     = GetBasicRolePermissionCacheKey role' (GetOrgID user) →
     role = role')
  ∧ (∀ role teamID,
       role ∈ GetOrgRoles user → teamID ∈ GetTeams user →
       GetBasicRolePermissionCacheKey role (GetOrgID user)
       ≠ GetTeamPermissionCacheKey teamID (GetOrgID user))
  ∧ (∀ role,
       role ∈ GetOrgRoles user →
       GetBasicRolePermissionCacheKey role (GetOrgID user)
       ≠ GetUserDirectPermissionCacheKey user)
  ∧ (∀ teamID,
       teamID ∈ GetTeams user →
       GetTeamPermissionCacheKey teamID (GetOrgID user)
       ≠ GetUserDirectPermissionCacheKey user).

Lemma CacheConsistent_empty : CacheConsistent ∅.
Proof.
  split_and!.
  - intros role item _ Hitem. by rewrite lookup_empty in Hitem.
  - intros teamID item _ Hitem. by rewrite lookup_empty in Hitem.
  - intros item Hitem. by rewrite lookup_empty in Hitem.
Qed.

Variable options : Options.
Hypothesis coherent : StoreCoherent.
Hypothesis distinct : KeysDistinct.

Lemma CacheConsistent_insert_basic (role : string)
    (c : gmap string CacheItem) :
  role ∈ GetOrgRoles user →
  CacheConsistent c →
  CacheConsistent
    (<[GetBasicRolePermissionCacheKey role (GetOrgID user) :=
         {| Object := expectedBasic role; Expiration := cacheTTL |}]> c).
Proof.
  intros Hrole (Hbasic & Hteams & Hdirect).
  destruct distinct as (Hk1 & Hk2 & Hk3 & _).
  split_and!.
  - intros role' item Hrole'. rewrite lookup_insert. case_decide as Hkey.
    + intros [= <-]. simpl. by rewrite (Hk1 role role').
    + by apply Hbasic.
  - intros teamID item Hteam. rewrite lookup_insert_ne by (by apply Hk2).
    by apply Hteams.
  - intros item. rewrite lookup_insert_ne by (by apply Hk3). apply Hdirect.
Qed.

Lemma basic_role_step (role : string) (w : World) :
  role ∈ GetOrgRoles user →
  CacheConsistent (cache w) →
  ∃ w1,
    getCachedBasicRolePermissions s role (GetOrgID user) options w
    = ((expectedBasic role, None), w1)
    ∧ CacheConsistent (cache w1).
Proof.
  intros Hrole Hconsistent. unfold getCachedBasicRolePermissions.
  destruct (decide (ReloadCache options = false
                    ∧ is_Some (cache w !! GetBasicRolePermissionCacheKey
                                           role (GetOrgID user))))
    as [[Hreload [item Hitem]]|Hmiss].
  - rewrite (getCachedPermissions_hit _ _ _ _ item) by done.
    destruct Hconsistent as (Hbasic & Hrest).
    rewrite (Hbasic role item) by done.
    eexists. split; [reflexivity|]. by split.
  - rewrite getCachedPermissions_run.
    2:{ destruct (ReloadCache options); [by left|]. right.
        destruct (cache w !! _) eqn:Hk; [|done]. exfalso. apply Hmiss. eauto. }
    rewrite getBasicRolePermissions_eq.
    destruct coherent as (Hstore & _). specialize (Hstore role Hrole).
    unfold basicAnswer in Hstore. rewrite Hstore.
    eexists. split; [done|]. simpl. by apply CacheConsistent_insert_basic.
Qed.

Lemma basic_phase (basicRoles : list string)
    (basicRolesPermissions : list Permission) (w : World) :
  (∀ role, role ∈ basicRoles → role ∈ GetOrgRoles user) →
  CacheConsistent (cache w) →
  ∃ w1,
    cachedBasicRolesFrom s basicRoles (GetOrgID user) options
                         basicRolesPermissions w
    = ((basicRolesPermissions ++ concat (expectedBasic <$> basicRoles), None),
       w1)
    ∧ CacheConsistent (cache w1).
Proof.
  revert basicRolesPermissions w.
  induction basicRoles as [|role rest IH]; intros acc w Hroles Hconsistent.
  - exists w. simpl. by rewrite app_nil_r.
  - destruct (basic_role_step role w) as (w1 & Hstep & Hconsistent1);
      [apply Hroles; by left | done |].
    destruct (IH (acc ++ expectedBasic role) w1) as (w2 & Hrest & Hconsistent2);
      [intros r Hr; apply Hroles; by right | done |].
    exists w2. split; [|done].
    simpl. unfold mbind, M_bind. rewrite Hstep, Hrest.
    by rewrite <- app_assoc.
Qed.

(** The permissions of the cached teams are those of the store's answer. *)
Lemma hitPermissions_consistent (c : gmap string CacheItem) (teams : list Z) :
  (∀ teamID, teamID ∈ teams → teamID ∈ GetTeams user) →
  CacheConsistent c →
  hitPermissions c (GetOrgID user) teams
  = concat
      ((λ teamID, default [] ((teamsAnswer (GetTeams user)).1 !! teamID))
         <$> List.filter
               (λ teamID,
                  negb (bool_decide
                          (c !! GetTeamPermissionCacheKey teamID (GetOrgID user)
                           = None)))
               teams).
Proof.
  intros Hteams (_ & Hconsistent & _). unfold hitPermissions.
  induction teams as [|teamID teams IH]; [done|]. simpl.
  destruct (c !! GetTeamPermissionCacheKey teamID (GetOrgID user))
    as [item|] eqn:Hitem; simpl.
  - rewrite (Hconsistent teamID item) by (try done; apply Hteams; by left).
    f_equal. apply IH. intros t Ht. apply Hteams. by right.
  - apply IH. intros t Ht. apply Hteams. by right.
Qed.

Lemma team_phase (w : World) :
  NoDup (GetTeams user) →
  CacheConsistent (cache w) →
  ∃ permissions w2,
    getCachedTeamsPermissions s user options w = ((permissions, None), w2)
    ∧ permissions ≡ₚ concat (map_to_list (teamsAnswer (GetTeams user)).1).*2
    ∧ DirectConsistent (cache w2).
Proof.
  intros Hnodup Hconsistent.
  destruct coherent as (_ & Hteams & _).
  destruct distinct as (_ & _ & _ & Hk4).
  set (all := (teamsAnswer (GetTeams user)).1).
  assert (∀ teamID, is_Some (all !! teamID) → teamID ∈ GetTeams user)
    as Hdom.
  { intros teamID [ps Hps]. subst all.
    destruct (Hteams (GetTeams user)) as [_ Hall]; [done|].
    rewrite Hall in Hps. by case_decide. }
  (* what is returned when [miss] is asked for, [hits] being the
     permissions read from the cache *)
  assert (∀ (miss : list Z) (hits : list Permission) (w0 wc : World),
            (∀ teamID, teamID ∈ miss → teamID ∈ GetTeams user) →
            NoDup miss →
            hits ++ concat ((λ teamID, default [] (all !! teamID)) <$> miss)
            ≡ₚ concat (map_to_list all).*2 →
            DirectConsistent (cache w0) →
            cache wc = cache w0 →
            ∃ permissions w2,
              match miss with
              | [] => ((hits, None), w0)
              | _ :: _ =>
                  match Store.GetTeamsPermissions (store s) (teamsQuery miss)
                  with
                  | (_, Some err) => (([], Some err), wc)
                  | (teamsPermissions, None) =>
                      ((hits ++ concat (map_to_list teamsPermissions).*2, None),
                       withCache
                         (storeTeamEntries (GetOrgID user)
                                           (map_to_list teamsPermissions)) wc)
                  end
              end = ((permissions, None), w2)
              ∧ permissions ≡ₚ concat (map_to_list all).*2
              ∧ DirectConsistent (cache w2)) as Hanswer.
  { intros miss hits w0 wc Hmiss Hnodup_miss Hperm Hdirect Hcache.
    destruct (Hteams miss Hmiss) as [Herr Hlookup].
    assert (concat (map_to_list (teamsAnswer miss).1).*2
            ≡ₚ concat ((λ teamID, default [] (all !! teamID)) <$> miss))
      as Hmissed.
    { rewrite <- (concat_lookup_Permutation miss).
      - erewrite list_fmap_ext; [done|]. intros i teamID Hi. simpl.
        rewrite Hlookup.
        rewrite decide_True by (by eapply list_elem_of_lookup_2). done.
      - done.
      - intros teamID [ps Hps]. rewrite Hlookup in Hps. by case_decide. }
    destruct miss as [|t miss'] eqn:Hm.
    { exists hits, w0. split; [done|]. split; [|done].
      by rewrite <- Hperm, app_nil_r. }
    rewrite <- Hm in *.
    unfold teamsAnswer in *.
    destruct (Store.GetTeamsPermissions (store s) (teamsQuery miss))
      as [teamsPermissions err]. simpl in *. subst err.
    eexists _, _. split; [done|]. split.
    - by rewrite Hmissed.
    - intros item. simpl. rewrite Hcache.
      rewrite storeTeamEntries_other; [apply Hdirect|].
      intros teamID [ps Hin]%elem_of_fst_map_to_list Hkey.
      apply (Hk4 teamID); [|done]. apply Hmiss.
      rewrite Hlookup in Hin. by case_decide. }
  rewrite getCachedTeamsPermissions_eq. cbv zeta.
  destruct (ReloadCache options) eqn:Hreload.
  - apply (Hanswer (GetTeams user) [] _ _);
      [done | done | | apply Hconsistent | done].
    simpl. by apply concat_lookup_Permutation.
  - apply (Hanswer (missTeams (cache w) (GetOrgID user) (GetTeams user))
                   (hitPermissions (cache w) (GetOrgID user) (GetTeams user))
                   _ _); [| | | | done].
    + intros teamID Hin. by apply elem_of_missTeams in Hin as [? _].
    + unfold missTeams.
      by apply NoDup_ListNoDup, List.NoDup_filter, NoDup_ListNoDup.
    + rewrite hitPermissions_consistent by done. fold all. unfold missTeams.
      rewrite Permutation_app_comm.
      rewrite (concat_fmap_partition
                 (λ teamID, default [] (all !! teamID))
                 (λ teamID,
                    bool_decide
                      (cache w !! GetTeamPermissionCacheKey teamID (GetOrgID user)
                       = None))).
      by apply concat_lookup_Permutation.
    + apply Hconsistent.
Qed.

Lemma direct_phase (w : World) :
  directUserID user = (userID, None) →
  DirectConsistent (cache w) →
  ∃ w3,
    getCachedUserDirectPermissions s user options w
    = ((directAnswer.1 ++ sharedWithMe s, None), w3).
Proof.
  intros Huser Hdirect. unfold getCachedUserDirectPermissions.
  destruct (decide (ReloadCache options = false
                    ∧ is_Some (cache w !! GetUserDirectPermissionCacheKey user)))
    as [[Hreload [item Hitem]]|Hmiss].
  - rewrite (getCachedPermissions_hit _ _ _ _ item) by done.
    eexists. by rewrite (Hdirect item).
  - rewrite getCachedPermissions_run.
    2:{ destruct (ReloadCache options); [by left|]. right.
        destruct (cache w !! _) eqn:Hk; [|done]. exfalso. apply Hmiss. eauto. }
    rewrite getUserDirectPermissions_eq, Huser.
    destruct coherent as (_ & _ & Herr & _). unfold directAnswer in *.
    destruct (Store.GetUserPermissions (store s) (directQuery user userID))
      as [permissions err]. simpl in *. subst err. by eexists.
Qed.

Lemma appendBasicRoles_concat (permissions : list Permission)
    (builtins : list string) :
  appendBasicRoles s permissions builtins
  = permissions ++ concat (inMemory s <$> builtins).
Proof.
  unfold appendBasicRoles. revert permissions.
  induction builtins as [|builtin rest IH]; intros permissions; simpl.
  - by rewrite app_nil_r.
  - rewrite IH. unfold inMemory at 2.
    destruct (roles s !! builtin); [by rewrite <- app_assoc | done].
Qed.

(** The two paths return the same permissions, as multisets. *)
Lemma cached_uncached_Permutation (w w' : World) :
  UserIdentifier (GetNamespacedID user).1 (GetNamespacedID user).2
  = (userID, None) →
  directUserID user = (userID, None) →
  NoDup (GetTeams user) →
  CacheConsistent (cache w) →
  ∃ cached uncached,
    (getCachedUserPermissions s user options w).1 = (cached, None)
    ∧ (getUserPermissions s user options w').1 = (uncached, None)
    ∧ cached ≡ₚ uncached.
Proof.
  intros Hident Hdirect Hnodup Hconsistent.
  destruct (basic_phase (GetOrgRoles user) [] w) as (w1 & Hbasic & Hc1);
    [done | done |].
  destruct (team_phase w1) as (teams & w2 & Hteams & Hperm & Hc2);
    [done | done |].
  destruct (direct_phase w2) as (w3 & Hdirect3); [done | done |].
  destruct coherent as (_ & _ & _ & Herr & Hcombined).
  exists ((([] ++ concat (expectedBasic <$> GetOrgRoles user)) ++ teams)
            ++ directAnswer.1 ++ sharedWithMe s),
         ((appendBasicRoles s [] (GetOrgRoles user) ++ sharedWithMe s)
            ++ combinedAnswer.1).
  split_and!.
  - unfold getCachedUserPermissions, mbind, M_bind,
      getCachedBasicRolesPermissions.
    rewrite Hbasic. simpl. rewrite Hteams, Hdirect3. done.
  - rewrite getUserPermissions_eq, Hident. cbv zeta.
    unfold combinedAnswer in *.
    destruct (Store.GetUserPermissions (store s) (combinedQuery user userID))
      as [db err]. simpl in *. by subst err.
  - rewrite Hcombined, Hperm, appendBasicRoles_concat. simpl.
    unfold expectedBasic. rewrite concat_fmap_app. solve_Permutation.
Qed.

End Equivalence.


(** A store backed by tables is coherent for every principal. *)
Lemma tableStore_coherent `{Imports} (t : Reference.Tables) (s : Service)
    (user : Requester) (userID : Z) :
  store s = Reference.tableStore t →
  StoreCoherent s user userID.
Proof.
  intros Hstore.
  unfold StoreCoherent, basicAnswer, teamsAnswer, directAnswer, combinedAnswer.
  rewrite Hstore. simpl.
  assert (Reference.teamsOf t (GetOrgID user) [] = ∅) as Hnone.
  { apply map_eq. intros k. rewrite lookup_empty.
    apply map_lookup_filter_None_2. right. intros x _.
    simpl. apply not_elem_of_nil. }
  split_and!; try done.
  - intros teamIDs Hteams. split; [done|]. intros teamID.
    unfold Reference.teamsOf. case_decide as Hin.
    + apply option_eq. intros ps. rewrite !map_lookup_filter_Some. simpl.
      split; intros [? ?]; split; auto.
    + apply map_lookup_filter_None_2. right. by intros x _.
  - rewrite Hnone, map_to_list_empty. simpl.
    assert (concat ((λ role,
                       Reference.roleGrants t (GetOrgID user) role ++ [])
                      <$> GetOrgRoles user)
            = concat (Reference.roleGrants t (GetOrgID user)
                        <$> GetOrgRoles user)) as ->; [|done].
    f_equal. apply list_fmap_ext. intros i role _. by rewrite app_nil_r.
Qed.


(** A principal whose teams list team 12 twice, and the world after its
    first resolution on the cached path. *)
Module Repeated.



End Repeated.


(** * Further properties of the service

    The functions of [service.go] beside the ones above: the search for one
    user, the resolver's use of the cache, and the registration of roles. *)

(** ** The search for one user *)

Section SingleUser.
Context `{Imports} (s : Service).

(** The permissions of [permissions] that match the search options. *)
Definition matching (searchOptions : SearchOptions)
    (permissions : list Permission) : list Permission :=
  List.filter
    (λ permission, PermissionMatchesSearchOptions permission searchOptions)
    permissions.

(** The permissions the basic roles [userRoles] hold in memory that match
    the search options, in the order of [userRoles]. *)
Definition basicMatching (searchOptions : SearchOptions)
    (userRoles : list string) : list Permission :=
  concat ((λ role, matching searchOptions (inMemory s role)) <$> userRoles).

(** The key the search for one user reads and writes. *)
Definition searchKey (userID orgID : Z) : string :=
  GetPermissionCacheKey (SignedInUser userID orgID).

Lemma basicMatching_foldl (searchOptions : SearchOptions)
    (userRoles : list string) (permissions : list Permission) :
  foldl (λ permissions builtin,
           match roles s !! builtin with
           | Some basicRole =>
               permissions ++
               List.filter
                 (λ permission,
                    PermissionMatchesSearchOptions permission searchOptions)
                 (RoleDTO.Permissions basicRole)
           | None => permissions
           end) permissions userRoles
  = permissions ++ basicMatching searchOptions userRoles.
Proof.
  revert permissions.
  induction userRoles as [|role rest IH]; intros permissions.
  - by rewrite app_nil_r.
  - simpl. rewrite IH. unfold basicMatching. simpl. unfold inMemory at 2.
    destruct (roles s !! role); simpl; [by rewrite app_assoc | done].
Qed.

(** The lookup of the search in the cache, written out. *)
Lemma searchUserPermissionsFromCache_eq (orgID : Z)
    (searchOptions : SearchOptions) (userID : Z) (w : World) :
  ComputeUserID searchOptions = (userID, None) →
  searchUserPermissionsFromCache orgID searchOptions w
  = match cache w !! searchKey userID orgID with
    | Some item =>
        ((matching searchOptions (Object item), true),
         withSearchCacheUsage incHit w)
    | None => (([], false), withSearchCacheUsage incMiss w)
    end.
Proof.
  intros Hid. unfold searchUserPermissionsFromCache. rewrite Hid.
  unfold mbind, M_bind, Cache.Get, searchKey.
  by destruct (cache w !! _).
Qed.

(** The search in the store, written out. *)
Lemma searchUserPermissions_eq (orgID : Z) (searchOptions : SearchOptions)
    (userID : Z) (w : World) :
  ComputeUserID searchOptions = (userID, None) →
  let w1 :=
    withStoreCalls (λ calls, calls ++ [CallGetUsersBasicRoles [userID] orgID])
                   w in
  let w2 :=
    withStoreCalls
      (λ calls, calls ++ [CallSearchUsersPermissions orgID searchOptions])
      w1 in
  searchUserPermissions s orgID searchOptions w
  = match Store.GetUsersBasicRoles (store s) [userID] orgID with
    | (_, Some err) =>
        (([], Some (Errorf "could not fetch basic roles for the user: %w"
                           [] (Some err))), w1)
    | (roleList, None) =>
        match roleList !! userID with
        | None =>
            (([], Some (Errorf
                          "found no basic roles for user %d in organisation %d"
                          [userID; orgID] None)), w1)
        | Some userRoles =>
            match Store.SearchUsersPermissions (store s) orgID searchOptions
            with
            | (_, Some err) => (([], Some err), w2)
            | (dbPermissions, None) =>
                let permissions :=
                  basicMatching searchOptions userRoles
                    ++ default [] (dbPermissions !! userID) in
                ((permissions, None),
                 withCache
                   <[searchKey userID orgID :=
                       {| Object := permissions; Expiration := cacheTTL |}]>
                   w2)
            end
        end
    end.
Proof.
  intros Hid. unfold searchUserPermissions. rewrite Hid.
  unfold mbind, M_bind, callStore. cbv zeta.
  destruct (Store.GetUsersBasicRoles _ _ _) as [roleList [err|]]; [done|].
  destruct (roleList !! userID) as [userRoles|]; [|done].
  destruct (Store.SearchUsersPermissions _ _ _) as [dbPermissions [err|]];
    [done|].
  by rewrite basicMatching_foldl.
Qed.

(** What the search in the store returns does not depend on the world. *)
Lemma searchUserPermissions_result (orgID : Z) (searchOptions : SearchOptions)
    (w w' : World) :
  (searchUserPermissions s orgID searchOptions w).1
  = (searchUserPermissions s orgID searchOptions w').1.
Proof.
  destruct (ComputeUserID searchOptions) as [userID [err|]] eqn:Hid.
  - unfold searchUserPermissions. by rewrite Hid.
  - rewrite !(searchUserPermissions_eq _ _ userID) by done. cbv zeta.
    destruct (Store.GetUsersBasicRoles _ _ _) as [roleList [err|]]; [done|].
    destruct (roleList !! userID) as [userRoles|]; [|done].
    by destruct (Store.SearchUsersPermissions _ _ _)
      as [dbPermissions [err|]].
Qed.

(** The search for one user with a namespaced id that resolves. *)
Lemma SearchUserPermissions_eq (orgID : Z) (searchOptions : SearchOptions)
    (userID : Z) (w : World) :
  SearchOptions.NamespacedID searchOptions ≠ "" →
  ComputeUserID searchOptions = (userID, None) →
  SearchUserPermissions s orgID searchOptions w
  = match cache w !! searchKey userID orgID with
    | Some item =>
        ((matching searchOptions (Object item), None),
         withSearchCacheUsage incHit w)
    | None =>
        searchUserPermissions s orgID searchOptions
                              (withSearchCacheUsage incMiss w)
    end.
Proof.
  intros Hns Hid. unfold SearchUserPermissions.
  destruct (String.eqb_spec (SearchOptions.NamespacedID searchOptions) "")
    as [Heq|_]; [done|].
  unfold mbind, M_bind.
  rewrite (searchUserPermissionsFromCache_eq _ _ userID) by done.
  by destruct (cache w !! _).
Qed.

End SingleUser.

(** The searches of the scenarios: for user 42 of organisation 1, without
    filter and with the action ["dashboards:read"], and for user 9, whom the
    store does not know. *)
Module Scenario.

Definition searchUser42 : SearchOptions :=
  {| SearchOptions.ActionPrefix := "";
     SearchOptions.Action := "";
     SearchOptions.Scope := "";
     SearchOptions.NamespacedID := "user:42";
     SearchOptions.RolePrefixes := [] |}.

Definition searchDashboards42 : SearchOptions :=
  {| SearchOptions.ActionPrefix := "";
     SearchOptions.Action := "dashboards:read";
     SearchOptions.Scope := "";
     SearchOptions.NamespacedID := "user:42";
     SearchOptions.RolePrefixes := [] |}.

Definition searchUser9 : SearchOptions :=
  {| SearchOptions.ActionPrefix := "";
     SearchOptions.Action := "";
     SearchOptions.Scope := "";
     SearchOptions.NamespacedID := "user:9";
     SearchOptions.RolePrefixes := [] |}.

(** The world after the search for user 42 without filter. *)
Definition searched42 : World :=
  (SearchUserPermissions (Reference.service true) 1 searchUser42
                         Reference.emptyWorld).2.

(** The world after the search for the permissions of user 42 with the
    action ["dashboards:read"]. *)
Definition searchedDashboards42 : World :=
  (SearchUserPermissions (Reference.service true) 1 searchDashboards42
                         Reference.emptyWorld).2.

(** A store whose [GetUsersBasicRoles] fails, and one whose
    [SearchUsersPermissions] fails. *)
Definition noRolesStore : Store :=
  {| Store.GetUserPermissions :=
       Store.GetUserPermissions (Reference.tableStore Reference.tables);
     Store.GetBasicRolesPermissions :=
       Store.GetBasicRolesPermissions (Reference.tableStore Reference.tables);
     Store.GetTeamsPermissions :=
       Store.GetTeamsPermissions (Reference.tableStore Reference.tables);
     Store.SearchUsersPermissions :=
       Store.SearchUsersPermissions (Reference.tableStore Reference.tables);
     Store.GetUsersBasicRoles := λ _ _, (∅, Some Reference.unavailable) |}.

Definition noSearchStore : Store :=
  {| Store.GetUserPermissions :=
       Store.GetUserPermissions (Reference.tableStore Reference.tables);
     Store.GetBasicRolesPermissions :=
       Store.GetBasicRolesPermissions (Reference.tableStore Reference.tables);
     Store.GetTeamsPermissions :=
       Store.GetTeamsPermissions (Reference.tableStore Reference.tables);
     Store.SearchUsersPermissions := λ _ _, (∅, Some Reference.unavailable);
     Store.GetUsersBasicRoles :=
       Store.GetUsersBasicRoles (Reference.tableStore Reference.tables) |}.

(** A world whose cache holds an entry for team 10, for which the store
    holds nothing. *)
Definition staleTeam10 : World :=
  {| cache :=
       {[ GetTeamPermissionCacheKey 10 1 :=
            {| Object := [Reference.dashboardsRead];
               Expiration := cacheTTL |} ]};
     storeCalls := [];
     permissionsCacheUsage := {| CacheHit := 0; CacheMiss := 0 |};
     searchCacheUsage := {| CacheHit := 0; CacheMiss := 0 |} |}.

(** The world after a first resolution for user 43, a member of the teams
    10, 11 and 12. *)
Definition resolved43 : World :=
  (GetUserPermissions (Reference.service true) Reference.user43
                      Reference.reload Reference.emptyWorld).2.

Definition serviceOver (store : Store) : Service :=
  {| cfg_RBACPermissionCache := true;
     features := λ _, false;
     registrations := [];
     roles := {[ "Viewer" := Reference.viewer ]};
     store := store |}.

End Scenario.

(** X1. A search for one user whose entry is in the cache answers from the
    cache: it returns the permissions of the entry that match the search
    options, counts a hit, calls the store not at all and leaves the cache as
    it was. *)
Theorem SearchUserPermissions_cached `{Imports} (s : Service) (orgID : Z)
    (searchOptions : SearchOptions) (userID : Z) (item : CacheItem)
    (w : World) :
  SearchOptions.NamespacedID searchOptions ≠ "" →
  ComputeUserID searchOptions = (userID, None) →
  cache w !! GetPermissionCacheKey (SignedInUser userID orgID) = Some item →
  ∃ w',
    SearchUserPermissions s orgID searchOptions w
    = ((List.filter
          (λ permission,
             PermissionMatchesSearchOptions permission searchOptions)
          (Object item), None), w')
    ∧ storeCalls w' = storeCalls w
    ∧ cache w' = cache w
    ∧ searchCacheUsage w' = incHit (searchCacheUsage w).
Proof.
  intros Hns Hid Hitem.
  rewrite (SearchUserPermissions_eq s _ _ userID) by done.
  unfold searchKey. rewrite Hitem. by eexists.
Qed.

Lemma SearchUserPermissions_cached_witness :
  ∃ w',
    SearchUserPermissions (Reference.service true) 1
                          Scenario.searchDashboards42 Scenario.searched42
    = (([Reference.dashboardsRead], None), w')
    ∧ storeCalls w' = storeCalls Scenario.searched42
    ∧ cache w' = cache Scenario.searched42
    ∧ searchCacheUsage w' = incHit (searchCacheUsage Scenario.searched42).
Proof.
  exact (SearchUserPermissions_cached
           (Reference.service true) 1 Scenario.searchDashboards42 42
           {| Object := [Reference.dashboardsRead; Reference.datasourcesRead];
              Expiration := cacheTTL |}
           Scenario.searched42 ltac:(done) eq_refl ltac:(by vm_compute)).
Defined.

(** X2. A search for one user whose entry is not in the cache, when the
    store answers: the store is asked for the user's basic roles, then for
    the permissions that match; the result is the matching permissions the
    user's basic roles hold in memory, in the order of the roles, followed by
    the store's permissions for the user; it is stored under the user's key
    with the time to live [cacheTTL], and a miss is counted. *)
Theorem SearchUserPermissions_store `{Imports} (s : Service) (orgID : Z)
    (searchOptions : SearchOptions) (userID : Z) (w : World)
    (roleList : gmap Z (list string)) (userRoles : list string)
    (dbPermissions : gmap Z (list Permission)) :
  SearchOptions.NamespacedID searchOptions ≠ "" →
  ComputeUserID searchOptions = (userID, None) →
  cache w !! GetPermissionCacheKey (SignedInUser userID orgID) = None →
  Store.GetUsersBasicRoles (store s) [userID] orgID = (roleList, None) →
  roleList !! userID = Some userRoles →
  Store.SearchUsersPermissions (store s) orgID searchOptions
  = (dbPermissions, None) →
  let permissions :=
    concat ((λ role,
               List.filter
                 (λ permission,
                    PermissionMatchesSearchOptions permission searchOptions)
                 (match roles s !! role with
                  | Some basicRole => RoleDTO.Permissions basicRole
                  | None => []
                  end)) <$> userRoles)
    ++ default [] (dbPermissions !! userID) in
  ∃ w',
    SearchUserPermissions s orgID searchOptions w = ((permissions, None), w')
    ∧ storeCalls w'
      = storeCalls w ++ [CallGetUsersBasicRoles [userID] orgID;
                         CallSearchUsersPermissions orgID searchOptions]
    ∧ cache w'
      = <[GetPermissionCacheKey (SignedInUser userID orgID) :=
            {| Object := permissions; Expiration := cacheTTL |}]> (cache w)
    ∧ searchCacheUsage w' = incMiss (searchCacheUsage w).
Proof.
  intros Hns Hid Hmiss Hroles HuserRoles Hdb permissions.
  rewrite (SearchUserPermissions_eq s _ _ userID) by done.
  unfold searchKey. rewrite Hmiss.
  rewrite (searchUserPermissions_eq s _ _ userID) by done. cbv zeta.
  rewrite Hroles, HuserRoles, Hdb. eexists. split; [reflexivity|].
  simpl. by rewrite <- app_assoc.
Qed.

Lemma SearchUserPermissions_store_witness :
  ∃ w',
    SearchUserPermissions (Reference.service true) 1 Scenario.searchUser42
                          Reference.emptyWorld
    = (([Reference.dashboardsRead; Reference.datasourcesRead], None), w')
    ∧ storeCalls w'
      = [CallGetUsersBasicRoles [42] 1;
         CallSearchUsersPermissions 1 Scenario.searchUser42]
    ∧ cache w'
      = {[ GetPermissionCacheKey (SignedInUser 42 1) :=
             {| Object := [Reference.dashboardsRead; Reference.datasourcesRead];
                Expiration := cacheTTL |} ]}
    ∧ searchCacheUsage w' = {| CacheHit := 0; CacheMiss := 1 |}.
Proof.
  exact (SearchUserPermissions_store
           (Reference.service true) 1 Scenario.searchUser42 42
           Reference.emptyWorld
           (Reference.usersRoles Reference.tables 1) ["Viewer"]
           (Store.SearchUsersPermissions
              (Reference.tableStore Reference.tables) 1
              Scenario.searchUser42).1
           ltac:(done) eq_refl eq_refl eq_refl eq_refl eq_refl).
Defined.

(** X3. A search for one user that fails returns no permission and leaves
    the cache as it was: nothing is stored for a user the search could not
    answer for. *)
Theorem SearchUserPermissions_failure `{Imports} (s : Service) (orgID : Z)
    (searchOptions : SearchOptions) (w w' : World)
    (permissions : list Permission) (err : error) :
  SearchUserPermissions s orgID searchOptions w
  = ((permissions, Some err), w') →
  permissions = [] ∧ cache w' = cache w.
Proof.
  unfold SearchUserPermissions.
  destruct (String.eqb _ _); [intros [= <- _ <-]; done|].
  unfold mbind, M_bind.
  destruct (ComputeUserID searchOptions) as [userID [e|]] eqn:Hid.
  - unfold searchUserPermissionsFromCache, searchUserPermissions.
    rewrite Hid. by intros [= <- _ <-].
  - rewrite (searchUserPermissionsFromCache_eq _ _ userID) by done.
    destruct (cache w !! _) as [item|]; [done|].
    rewrite (searchUserPermissions_eq s _ _ userID) by done. cbv zeta.
    destruct (Store.GetUsersBasicRoles _ _ _) as [roleList [e|]];
      [by intros [= <- _ <-]|].
    destruct (roleList !! userID) as [userRoles|];
      [|by intros [= <- _ <-]].
    destruct (Store.SearchUsersPermissions _ _ _) as [dbPermissions [e|]];
      [by intros [= <- _ <-] | done].
Qed.

Lemma SearchUserPermissions_failure_witness :
  [] = ([] : list Permission)
  ∧ cache (withStoreCalls (λ calls, calls ++ [CallGetUsersBasicRoles [9] 1])
             (withSearchCacheUsage incMiss Scenario.searched42))
    = cache Scenario.searched42.
Proof.
  exact (SearchUserPermissions_failure
           (Reference.service true) 1 Scenario.searchUser9
           Scenario.searched42 _ [] _ eq_refl).
Defined.

(** X4. The errors of a search for one user that goes to the store.  When
    the store cannot tell the user's basic roles, its error is wrapped and
    the store is not asked for permissions; when the store knows no basic
    role for the user, the search fails with an error naming the user and the
    organisation, again after one call; an error of the store's search for
    permissions is handed on as it is. *)
Theorem SearchUserPermissions_errors `{Imports} (s : Service) (orgID : Z)
    (searchOptions : SearchOptions) (userID : Z) (w : World) :
  SearchOptions.NamespacedID searchOptions ≠ "" →
  ComputeUserID searchOptions = (userID, None) →
  cache w !! GetPermissionCacheKey (SignedInUser userID orgID) = None →
  let result := SearchUserPermissions s orgID searchOptions w in
  let roleList := (Store.GetUsersBasicRoles (store s) [userID] orgID).1 in
  (∀ err,
     (Store.GetUsersBasicRoles (store s) [userID] orgID).2 = Some err →
     result.1
     = ([], Some (Errorf "could not fetch basic roles for the user: %w" []
                         (Some err)))
     ∧ storeCalls result.2
       = storeCalls w ++ [CallGetUsersBasicRoles [userID] orgID])
  ∧ ((Store.GetUsersBasicRoles (store s) [userID] orgID).2 = None →
     roleList !! userID = None →
     result.1
     = ([], Some (Errorf "found no basic roles for user %d in organisation %d"
                         [userID; orgID] None))
     ∧ storeCalls result.2
       = storeCalls w ++ [CallGetUsersBasicRoles [userID] orgID])
  ∧ (∀ err,
       (Store.GetUsersBasicRoles (store s) [userID] orgID).2 = None →
       is_Some (roleList !! userID) →
       (Store.SearchUsersPermissions (store s) orgID searchOptions).2
       = Some err →
       result.1 = ([], Some err)
       ∧ storeCalls result.2
         = storeCalls w ++ [CallGetUsersBasicRoles [userID] orgID;
                            CallSearchUsersPermissions orgID searchOptions]).
Proof.
  intros Hns Hid Hmiss result roleList. subst result roleList.
  rewrite (SearchUserPermissions_eq s _ _ userID) by done.
  unfold searchKey. rewrite Hmiss.
  rewrite (searchUserPermissions_eq s _ _ userID) by done. cbv zeta.
  destruct (Store.GetUsersBasicRoles _ _ _) as [roleList [e|]]; simpl.
  - split_and!; [|done|done]. by intros err [= <-].
  - split_and!; [done| |].
    + intros _ ->. done.
    + intros err _ [userRoles ->].
      destruct (Store.SearchUsersPermissions _ _ _) as [dbPermissions [e|]];
        simpl; [|done].
      intros [= <-]. split; [done|]. by rewrite <- app_assoc.
Qed.

Lemma SearchUserPermissions_errors_witness :
  (SearchUserPermissions (Scenario.serviceOver Scenario.noRolesStore) 1
                         Scenario.searchUser42 Reference.emptyWorld).1
  = ([], Some (Errorf "could not fetch basic roles for the user: %w" []
                      (Some Reference.unavailable)))
  ∧ (SearchUserPermissions (Reference.service true) 1 Scenario.searchUser9
                           Reference.emptyWorld).1
    = ([], Some (Errorf "found no basic roles for user %d in organisation %d"
                        [9; 1] None))
  ∧ (SearchUserPermissions (Scenario.serviceOver Scenario.noSearchStore) 1
                           Scenario.searchUser42 Reference.emptyWorld).1
    = ([], Some Reference.unavailable).
Proof.
  split_and!.
  - exact (proj1 (proj1 (SearchUserPermissions_errors
                           (Scenario.serviceOver Scenario.noRolesStore) 1
                           Scenario.searchUser42 42 Reference.emptyWorld
                           ltac:(done) eq_refl eq_refl)
                        Reference.unavailable eq_refl)).
  - exact (proj1 (proj1 (proj2 (SearchUserPermissions_errors
                                  (Reference.service true) 1
                                  Scenario.searchUser9 9 Reference.emptyWorld
                                  ltac:(done) eq_refl eq_refl))
                        eq_refl eq_refl)).
  - exact (proj1 (proj2 (proj2 (SearchUserPermissions_errors
                                  (Scenario.serviceOver Scenario.noSearchStore)
                                  1 Scenario.searchUser42 42
                                  Reference.emptyWorld
                                  ltac:(done) eq_refl eq_refl))
                        Reference.unavailable eq_refl
                        (ex_intro _ ["Viewer"] eq_refl) eq_refl)).
Defined.

(** X5. The entry a search stores holds the permissions that matched its
    own search options, and a later search for the same user is answered
    from it: after a search that went to the store, a search with any other
    options returns the permissions of the first result that match the new
    options, without a call of the store. *)
Theorem SearchUserPermissions_twice `{Imports} (s : Service) (orgID : Z)
    (first second : SearchOptions) (userID : Z) (w w1 : World)
    (permissions : list Permission) :
  ComputeUserID first = (userID, None) →
  ComputeUserID second = (userID, None) →
  SearchOptions.NamespacedID second ≠ "" →
  cache w !! GetPermissionCacheKey (SignedInUser userID orgID) = None →
  SearchUserPermissions s orgID first w = ((permissions, None), w1) →
  ∃ w2,
    SearchUserPermissions s orgID second w1
    = ((List.filter
          (λ permission, PermissionMatchesSearchOptions permission second)
          permissions, None), w2)
    ∧ storeCalls w2 = storeCalls w1.
Proof.
  intros Hfirst Hsecond Hns Hmiss Hrun.
  assert (cache w1 !! searchKey userID orgID
          = Some {| Object := permissions; Expiration := cacheTTL |}) as Hitem.
  { revert Hrun. unfold SearchUserPermissions.
    destruct (String.eqb _ _); [done|]. unfold mbind, M_bind.
    rewrite (searchUserPermissionsFromCache_eq _ _ userID) by done.
    unfold searchKey. rewrite Hmiss.
    rewrite (searchUserPermissions_eq s _ _ userID) by done. cbv zeta.
    destruct (Store.GetUsersBasicRoles _ _ _) as [roleList [e|]]; [done|].
    destruct (roleList !! userID) as [userRoles|]; [|done].
    destruct (Store.SearchUsersPermissions _ _ _) as [dbPermissions [e|]];
      [done|].
    intros [= <- <-]. simpl. by rewrite lookup_insert_eq. }
  rewrite (SearchUserPermissions_eq s _ _ userID) by done.
  rewrite Hitem. by eexists.
Qed.

Lemma SearchUserPermissions_twice_witness :
  ∃ w2,
    SearchUserPermissions (Reference.service true) 1
                          Scenario.searchUser42 Scenario.searchedDashboards42
    = (([Reference.dashboardsRead], None), w2)
    ∧ storeCalls w2 = storeCalls Scenario.searchedDashboards42.
Proof.
  exact (SearchUserPermissions_twice
           (Reference.service true) 1 Scenario.searchDashboards42
           Scenario.searchUser42 42 Reference.emptyWorld
           Scenario.searchedDashboards42 [Reference.dashboardsRead]
           eq_refl eq_refl ltac:(done) eq_refl eq_refl).
Defined.

(** X6. A search of users' permissions that names one user is answered by
    the search for that user, whoever asks: the requester counts for its
    organisation only, and what it is allowed to view is not consulted.  When
    the search for the user succeeds the result holds that user and no other,
    also when the user has no permission at all; when it fails the result is
    the nil map and the error. *)
Theorem SearchUsersPermissions_one_user `{Imports} (s : Service)
    (usr : Requester) (options : SearchOptions) (userID : Z) (w : World) :
  SearchOptions.NamespacedID options ≠ "" →
  let options' := withRolePrefixes options OSSRolesPrefixes in
  ComputeUserID options' = (userID, None) →
  (∀ usr', GetOrgID usr' = GetOrgID usr →
     SearchUsersPermissions s usr' options w
     = SearchUsersPermissions s usr options w)
  ∧ SearchUsersPermissions s usr options w
    = match SearchUserPermissions s (GetOrgID usr) options' w with
      | ((_, Some err), w') => ((∅, Some err), w')
      | ((permissions, None), w') => (({[ userID := permissions ]}, None), w')
      end.
Proof.
  intros Hns options' Hid.
  assert (∀ usr',
            SearchUsersPermissions s usr' options w
            = match SearchUserPermissions s (GetOrgID usr') options' w with
              | ((_, Some err), w') => ((∅, Some err), w')
              | ((permissions, None), w') =>
                  (({[ userID := permissions ]}, None), w')
              end) as Heq.
  { intros usr'. unfold SearchUsersPermissions. fold options'.
    change (SearchOptions.NamespacedID options')
      with (SearchOptions.NamespacedID options).
    destruct (String.eqb_spec (SearchOptions.NamespacedID options) "")
      as [Heq|_]; [done|].
    simpl. rewrite Hid. unfold mbind, M_bind.
    by destruct (SearchUserPermissions _ _ _ _) as [[ps [e|]] w']. }
  split; [|apply Heq].
  intros usr' Horg. by rewrite !Heq, Horg.
Qed.

Lemma SearchUsersPermissions_one_user_witness :
  SearchUsersPermissions (Reference.service true) Reference.anonymous
                         Scenario.searchUser42 Reference.emptyWorld
  = SearchUsersPermissions (Reference.service true) Reference.auditor
                           Scenario.searchUser42 Reference.emptyWorld
  ∧ (SearchUsersPermissions (Reference.service true) Reference.anonymous
                            Scenario.searchUser42 Reference.emptyWorld).1
    = ({[ 42 := [Reference.dashboardsRead; Reference.datasourcesRead] ]},
       None).
Proof.
  split.
  - exact (proj1 (SearchUsersPermissions_one_user
                    (Reference.service true) Reference.auditor
                    Scenario.searchUser42 42 Reference.emptyWorld
                    ltac:(done) eq_refl)
                 Reference.anonymous eq_refl).
  - exact (f_equal fst
             (proj2 (SearchUsersPermissions_one_user
                       (Reference.service true) Reference.anonymous
                       Scenario.searchUser42 42 Reference.emptyWorld
                       ltac:(done) eq_refl))).
Defined.

(** X7. [ClearUserPermissionCache] makes the next search for the user go to
    the store: when the user's key is the one the search derives, the search
    that follows counts a miss, and what it returns does not depend on what
    the cache held before. *)
Theorem ClearUserPermissionCache_then_search `{Imports} (s : Service)
    (user : Requester) (orgID : Z) (searchOptions : SearchOptions)
    (userID : Z) :
  SearchOptions.NamespacedID searchOptions ≠ "" →
  ComputeUserID searchOptions = (userID, None) →
  GetPermissionCacheKey (SignedInUser userID orgID)
  = GetPermissionCacheKey user →
  ∀ w w',
    let run w :=
      SearchUserPermissions s orgID searchOptions
                            (ClearUserPermissionCache user w).2 in
    (run w).1 = (run w').1
    ∧ CacheMiss (searchCacheUsage (run w).2)
      = S (CacheMiss (searchCacheUsage w)).
Proof.
  intros Hns Hid Hkey w w' run. subst run. cbv beta.
  assert (∀ w0,
            SearchUserPermissions s orgID searchOptions
                                  (ClearUserPermissionCache user w0).2
            = searchUserPermissions s orgID searchOptions
                (withSearchCacheUsage incMiss
                   (ClearUserPermissionCache user w0).2)) as Heq.
  { intros w0. rewrite (SearchUserPermissions_eq s _ _ userID) by done.
    unfold searchKey. rewrite Hkey.
    unfold ClearUserPermissionCache, mbind, M_bind, Cache.Delete. simpl.
    destruct (decide (GetUserDirectPermissionCacheKey user
                      = GetPermissionCacheKey user)) as [Hsame|Hother].
    - by rewrite Hsame, lookup_delete_eq.
    - by rewrite lookup_delete_ne, lookup_delete_eq. }
  rewrite !Heq. split; [apply searchUserPermissions_result|].
  rewrite (searchUserPermissions_eq s _ _ userID) by done. cbv zeta.
  destruct (Store.GetUsersBasicRoles _ _ _) as [roleList [e|]]; [done|].
  destruct (roleList !! userID) as [userRoles|]; [|done].
  by destruct (Store.SearchUsersPermissions _ _ _) as [dbPermissions [e|]].
Qed.

Lemma ClearUserPermissionCache_then_search_witness :
  (SearchUserPermissions (Reference.service true) 1 Scenario.searchUser42
     (ClearUserPermissionCache Reference.user42
                               Scenario.searchedDashboards42).2).1
  = ([Reference.dashboardsRead; Reference.datasourcesRead], None).
Proof.
  exact (proj1 (ClearUserPermissionCache_then_search
                  (Reference.service true) Reference.user42 1
                  Scenario.searchUser42 42 ltac:(done) eq_refl eq_refl
                  Scenario.searchedDashboards42 Reference.emptyWorld)).
Defined.

(** ** The resolver and the cache *)

Section Resolver.
Context `{Imports} (s : Service).

Lemma hitCount_warm (c : gmap string CacheItem) (orgID : Z) (teams : list Z) :
  (∀ teamID, teamID ∈ teams →
     is_Some (c !! GetTeamPermissionCacheKey teamID orgID)) →
  hitCount c orgID teams = length teams.
Proof.
  intros Hwarm. unfold hitCount.
  induction teams as [|t teams IH]; [done|]. simpl.
  rewrite bool_decide_true by (apply Hwarm; by left). simpl.
  f_equal. apply IH. intros t' Ht'. apply Hwarm. by right.
Qed.

(** The cached resolution of a principal all of whose entries are in the
    cache, written out. *)
Lemma getCachedUserPermissions_warm (user : Requester) (options : Options)
    (w : World) (direct : CacheItem) :
  ReloadCache options = false →
  (∀ role, role ∈ GetOrgRoles user →
     is_Some (cache w !! GetBasicRolePermissionCacheKey role (GetOrgID user))) →
  (∀ teamID, teamID ∈ GetTeams user →
     is_Some (cache w !! GetTeamPermissionCacheKey teamID (GetOrgID user))) →
  cache w !! GetUserDirectPermissionCacheKey user = Some direct →
  getCachedUserPermissions s user options w
  = (((cachedBasicRoles (cache w) (GetOrgID user) (GetOrgRoles user)
         ++ hitPermissions (cache w) (GetOrgID user) (GetTeams user))
        ++ Object direct, None),
     withPermissionsCacheUsage
       (addHits (length (GetOrgRoles user) + length (GetTeams user) + 1)) w).
Proof.
  intros Hreload Hroles Hteams Hdirect.
  unfold getCachedUserPermissions, getCachedBasicRolesPermissions,
    getCachedUserDirectPermissions, mbind, M_bind.
  rewrite cachedBasicRolesFrom_warm by done.
  rewrite getCachedTeamsPermissions_eq. cbv zeta. rewrite Hreload. simpl.
  rewrite missTeams_warm by done.
  rewrite (getCachedPermissions_hit _ _ _ _ direct) by done.
  rewrite hitCount_warm by done.
  unfold withPermissionsCacheUsage, addHits, incHit. simpl.
  repeat f_equal; lia.
Qed.

End Resolver.

(** X8. A resolution for a principal with a unique id, with the cache
    enabled and without [ReloadCache], all of whose entries are in the cache
    (one for each of its basic roles, one for each of its teams, and its
    direct permissions) is answered from the cache alone: the store is not
    called, the cache is left as it was, one hit is counted for each entry
    and no miss; the result is the entries of the basic roles, of the teams
    and of the direct permissions, in this order. *)
Theorem GetUserPermissions_warm `{Imports} (s : Service) (user : Requester)
    (options : Options) (w : World) (direct : CacheItem) :
  cfg_RBACPermissionCache s = true →
  HasUniqueId user = true →
  ReloadCache options = false →
  (∀ role, role ∈ GetOrgRoles user →
     is_Some (cache w !! GetBasicRolePermissionCacheKey role (GetOrgID user))) →
  (∀ teamID, teamID ∈ GetTeams user →
     is_Some (cache w !! GetTeamPermissionCacheKey teamID (GetOrgID user))) →
  cache w !! GetUserDirectPermissionCacheKey user = Some direct →
  ∃ w',
    GetUserPermissions s user options w
    = (((concat (omap (λ role,
                         Object <$>
                           cache w !! GetBasicRolePermissionCacheKey
                                        role (GetOrgID user))
                      (GetOrgRoles user))
           ++ concat (omap (λ teamID,
                              Object <$>
                                cache w !! GetTeamPermissionCacheKey
                                             teamID (GetOrgID user))
                           (GetTeams user)))
          ++ Object direct, None), w')
    ∧ storeCalls w' = storeCalls w
    ∧ cache w' = cache w
    ∧ CacheHit (permissionsCacheUsage w')
      = (length (GetOrgRoles user) + length (GetTeams user) + 1
         + CacheHit (permissionsCacheUsage w))%nat
    ∧ CacheMiss (permissionsCacheUsage w') = CacheMiss (permissionsCacheUsage w).
Proof.
  intros Hcfg Hid Hreload Hroles Hteams Hdirect.
  unfold GetUserPermissions. rewrite Hcfg, Hid. simpl.
  rewrite (getCachedUserPermissions_warm s user options w direct) by done.
  by eexists.
Qed.

Lemma GetUserPermissions_warm_witness :
  ∃ w',
    GetUserPermissions (Reference.service true) Reference.user44
                       Reference.noReload Reference.warm44
    = (([Reference.dashboardsRead; Reference.teamsRead;
         Reference.foldersWrite], None), w')
    ∧ storeCalls w' = storeCalls Reference.warm44
    ∧ cache w' = cache Reference.warm44
    ∧ CacheHit (permissionsCacheUsage w') = 4%nat
    ∧ CacheMiss (permissionsCacheUsage w') = 3%nat.
Proof.
  refine (GetUserPermissions_warm
            (Reference.service true) Reference.user44 Reference.noReload
            Reference.warm44 {| Object := []; Expiration := cacheTTL |}
            eq_refl eq_refl eq_refl _ _ _).
  - intros role ->%list_elem_of_singleton. vm_compute. by eexists.
  - intros teamID [->| ->%list_elem_of_singleton]%elem_of_cons;
      vm_compute; by eexists.
  - by vm_compute.
Defined.

(** X9. With [ReloadCache] the team sub-query of a principal with teams
    asks the store once, for all the teams, whatever the cache holds, and
    returns the permissions of the store's answer and no other; the teams of
    the answer are visited in no fixed order, so the permissions are those
    of the answer as a multiset.  It writes under the keys of the teams of
    the answer only: every other entry is kept, so the entry of a team the
    store no longer answers for survives the reload. *)
Theorem getCachedTeamsPermissions_reload `{Imports} (s : Service)
    (user : Requester) (options : Options) (w : World)
    (teamsPermissions : gmap Z (list Permission)) :
  ReloadCache options = true →
  GetTeams user ≠ [] →
  let query :=
    {| GetUserPermissionsQuery.TeamIDs := GetTeams user;
       GetUserPermissionsQuery.OrgID := GetOrgID user;
       GetUserPermissionsQuery.RolePrefixes := OSSRolesPrefixes;
       GetUserPermissionsQuery.UserID := 0;
       GetUserPermissionsQuery.Roles := [] |} in
  Store.GetTeamsPermissions (store s) query = (teamsPermissions, None) →
  let result := (getCachedTeamsPermissions s user options w).1 in
  let w' := (getCachedTeamsPermissions s user options w).2 in
  (∃ permissions,
     result = (permissions, None)
     ∧ permissions ≡ₚ concat (map_to_list teamsPermissions).*2)
  ∧ storeCalls w' = storeCalls w ++ [CallGetTeamsPermissions query]
  ∧ ∀ key,
      (∀ teamID, is_Some (teamsPermissions !! teamID) →
         key ≠ GetTeamPermissionCacheKey teamID (GetOrgID user)) →
      cache w' !! key = cache w !! key.
Proof.
  intros Hreload Hteams query Hanswer result w'. subst result w'.
  rewrite getCachedTeamsPermissions_eq. cbv zeta. rewrite Hreload.
  destruct (GetTeams user) as [|teamID teams] eqn:Hlist; [done|].
  subst query. rewrite Hanswer. simpl. split_and!; [by eexists | done |].
  intros key Hkey. apply storeTeamEntries_other.
  intros t Ht. apply Hkey. by apply elem_of_fst_map_to_list.
Qed.

Lemma getCachedTeamsPermissions_reload_witness :
  (∃ permissions,
     (getCachedTeamsPermissions (Reference.service true) Reference.user43
                                Reference.reload Scenario.staleTeam10).1
     = (permissions, None)
     ∧ permissions ≡ₚ [Reference.teamsRead; Reference.foldersWrite])
  ∧ cache (getCachedTeamsPermissions (Reference.service true) Reference.user43
                                     Reference.reload Scenario.staleTeam10).2
      !! GetTeamPermissionCacheKey 10 1
    = Some {| Object := [Reference.dashboardsRead]; Expiration := cacheTTL |}.
Proof.
  destruct (getCachedTeamsPermissions_reload
              (Reference.service true) Reference.user43 Reference.reload
              Scenario.staleTeam10
              (Reference.teamsOf Reference.tables 1 [10; 11; 12])
              eq_refl ltac:(done) eq_refl) as (Hresult & _ & Hkept).
  split; [exact Hresult|].
  rewrite Hkept; [reflexivity|].
  intros teamID Hsome Hkey. apply Reference_team_key_inj in Hkey. subst teamID.
  vm_compute in Hsome. by destruct Hsome.
Defined.

(** X10. What [getCachedPermissions] returned is what it returns next: after
    a call that succeeded, with or without [ReloadCache], a call for the same
    key without [ReloadCache] returns the same permissions from the cache,
    counts a hit, and does not run its producer, whatever that producer
    is. *)
Theorem getCachedPermissions_again (key : string)
    (getPermissionsFn getPermissionsFn' : GetPermissionsFn)
    (options options' : Options) (w w1 : World)
    (permissions : list Permission) :
  getCachedPermissions key getPermissionsFn options w
  = ((permissions, None), w1) →
  ReloadCache options' = false →
  getCachedPermissions key getPermissionsFn' options' w1
  = ((permissions, None), withPermissionsCacheUsage incHit w1).
Proof.
  intros Hfirst Hreload.
  assert (cache w1 !! key
          = Some {| Object := permissions; Expiration := cacheTTL |}
          ∨ ∃ item, cache w1 !! key = Some item ∧ Object item = permissions)
    as Hitem.
  { destruct (ReloadCache options) eqn:Hfirst_reload.
    - rewrite getCachedPermissions_run in Hfirst by (by left).
      destruct (getPermissionsFn _) as [[ps [e|]] w0]; [done|].
      injection Hfirst as <- <-. left. simpl. by rewrite lookup_insert_eq.
    - destruct (cache w !! key) as [item|] eqn:Hlookup.
      + rewrite (getCachedPermissions_hit _ _ _ _ item) in Hfirst by done.
        injection Hfirst as <- <-. right. by exists item.
      + rewrite getCachedPermissions_run in Hfirst by (by right).
        destruct (getPermissionsFn _) as [[ps [e|]] w0]; [done|].
        injection Hfirst as <- <-. left. simpl. by rewrite lookup_insert_eq. }
  destruct Hitem as [Hitem|(item & Hitem & <-)];
    by rewrite (getCachedPermissions_hit _ _ _ _ _ Hreload Hitem).
Qed.

Lemma getCachedPermissions_again_witness :
  getCachedPermissions "key" (mret ([Reference.teamsRead], None))
    Reference.noReload
    (getCachedPermissions "key" (mret ([Reference.dashboardsRead], None))
       Reference.reload Reference.emptyWorld).2
  = (([Reference.dashboardsRead], None),
     withPermissionsCacheUsage incHit
       (getCachedPermissions "key" (mret ([Reference.dashboardsRead], None))
          Reference.reload Reference.emptyWorld).2).
Proof.
  exact (getCachedPermissions_again "key"
           (mret ([Reference.dashboardsRead], None))
           (mret ([Reference.teamsRead], None))
           Reference.reload Reference.noReload Reference.emptyWorld _
           [Reference.dashboardsRead] eq_refl eq_refl).
Defined.

Section Frame.
Context `{Imports} (s : Service).

(** [getCachedPermissions] writes under its own key only, when its producer
    leaves the cache alone. *)
Lemma getCachedPermissions_other (key : string)
    (getPermissionsFn : GetPermissionsFn) (options : Options) (w : World)
    (other : string) :
  other ≠ key →
  (∀ w0, cache (getPermissionsFn w0).2 = cache w0) →
  cache (getCachedPermissions key getPermissionsFn options w).2 !! other
  = cache w !! other.
Proof.
  intros Hother Hfn.
  assert (ReloadCache options = true ∨ cache w !! key = None
          ∨ ∃ item, ReloadCache options = false ∧ cache w !! key = Some item)
    as [Hrun|[Hrun|(item & Hreload & Hitem)]].
  { destruct (ReloadCache options); [by left|].
    destruct (cache w !! key) as [item|]; [|by right; left].
    right. right. by exists item. }
  - rewrite getCachedPermissions_run by (by left).
    specialize (Hfn (withPermissionsCacheUsage incMiss w)).
    destruct (getPermissionsFn _) as [[ps [e|]] w0]; simpl in *.
    + by rewrite Hfn.
    + by rewrite lookup_insert_ne, Hfn.
  - rewrite getCachedPermissions_run by (by right).
    specialize (Hfn (withPermissionsCacheUsage incMiss w)).
    destruct (getPermissionsFn _) as [[ps [e|]] w0]; simpl in *.
    + by rewrite Hfn.
    + by rewrite lookup_insert_ne, Hfn.
  - by rewrite (getCachedPermissions_hit _ _ _ _ item).
Qed.

Lemma cachedBasicRolesFrom_other (basicRoles : list string) (orgID : Z)
    (options : Options) (basicRolesPermissions : list Permission) (w : World)
    (other : string) :
  (∀ role, role ∈ basicRoles →
     other ≠ GetBasicRolePermissionCacheKey role orgID) →
  cache (cachedBasicRolesFrom s basicRoles orgID options
                              basicRolesPermissions w).2 !! other
  = cache w !! other.
Proof.
  revert basicRolesPermissions w.
  induction basicRoles as [|role rest IH]; intros acc w Hother; [done|].
  simpl. unfold mbind, M_bind.
  assert (cache (getCachedBasicRolePermissions s role orgID options w).2
            !! other = cache w !! other) as Hstep.
  { apply getCachedPermissions_other; [apply Hother; by left|].
    intros w0. by rewrite getBasicRolePermissions_eq. }
  destruct (getCachedBasicRolePermissions s role orgID options w)
    as [[ps [e|]] w0]; [done|].
  simpl in Hstep. rewrite IH, Hstep; [done|].
  intros r Hr. apply Hother. by right.
Qed.

Lemma getCachedTeamsPermissions_other (user : Requester) (options : Options)
    (w : World) (other : string) :
  (∀ teamID, other ≠ GetTeamPermissionCacheKey teamID (GetOrgID user)) →
  cache (getCachedTeamsPermissions s user options w).2 !! other
  = cache w !! other.
Proof.
  intros Hother. rewrite getCachedTeamsPermissions_eq. cbv zeta.
  set (miss := if ReloadCache options then _ else _).
  destruct miss as [|teamID miss].
  { by destruct (ReloadCache options). }
  destruct (Store.GetTeamsPermissions _ _) as [tp [e|]]; simpl.
  - by destruct (ReloadCache options).
  - rewrite storeTeamEntries_other by (intros t _; apply Hother).
    by destruct (ReloadCache options).
Qed.

Lemma getCachedUserPermissions_other (user : Requester) (options : Options)
    (w : World) (other : string) :
  (∀ role, role ∈ GetOrgRoles user →
     other ≠ GetBasicRolePermissionCacheKey role (GetOrgID user)) →
  (∀ teamID, other ≠ GetTeamPermissionCacheKey teamID (GetOrgID user)) →
  other ≠ GetUserDirectPermissionCacheKey user →
  cache (getCachedUserPermissions s user options w).2 !! other
  = cache w !! other.
Proof.
  intros Hroles Hteams Hdirect.
  unfold getCachedUserPermissions, getCachedBasicRolesPermissions,
    getCachedUserDirectPermissions, mbind, M_bind.
  pose proof (cachedBasicRolesFrom_other (GetOrgRoles user) (GetOrgID user)
                options [] w other Hroles) as Hbasic.
  destruct (cachedBasicRolesFrom _ _ _ _ _ _) as [[bs [e|]] w1]; [done|].
  pose proof (getCachedTeamsPermissions_other user options w1 other Hteams)
    as Hteam.
  destruct (getCachedTeamsPermissions _ _ _ _) as [[ts [e|]] w2].
  { simpl in *. congruence. }
  assert (cache (getCachedPermissions (GetUserDirectPermissionCacheKey user)
                   (getUserDirectPermissions s user) options w2).2 !! other
          = cache w2 !! other) as Huser.
  { apply getCachedPermissions_other; [done|].
    intros w0. rewrite getUserDirectPermissions_eq.
    by destruct (directUserID user) as [userID [e|]]. }
  destruct (getCachedPermissions _ _ _ _) as [[us [e|]] w3];
    simpl in *; congruence.
Qed.

End Frame.

(** X11. A resolution writes to the cache under the keys of the
    principal's basic roles, under keys of teams of its organisation and
    under its direct-permission key, and under no other key, whether it
    succeeds or fails: in particular the entry under the principal's
    aggregate key, which the search for one user reads, is left as it
    was. *)
Theorem GetUserPermissions_frame `{Imports} (s : Service) (user : Requester)
    (options : Options) (w : World) (key : string) :
  (∀ role, role ∈ GetOrgRoles user →
     key ≠ GetBasicRolePermissionCacheKey role (GetOrgID user)) →
  (∀ teamID, key ≠ GetTeamPermissionCacheKey teamID (GetOrgID user)) →
  key ≠ GetUserDirectPermissionCacheKey user →
  cache (GetUserPermissions s user options w).2 !! key = cache w !! key.
Proof.
  intros Hroles Hteams Hdirect. unfold GetUserPermissions.
  destruct (negb _ || negb _).
  - rewrite getUserPermissions_eq. cbv zeta.
    by destruct (UserIdentifier _ _) as [userID [e|]].
  - by apply getCachedUserPermissions_other.
Qed.

Lemma GetUserPermissions_frame_witness :
  cache (GetUserPermissions (Reference.service true) Reference.user42
                            Reference.reload Scenario.searched42).2
    !! GetPermissionCacheKey Reference.user42
  = Some {| Object := [Reference.dashboardsRead; Reference.datasourcesRead];
            Expiration := cacheTTL |}.
Proof.
  rewrite (GetUserPermissions_frame (Reference.service true) Reference.user42
             Reference.reload Scenario.searched42
             (GetPermissionCacheKey Reference.user42)).
  - reflexivity.
  - intros role _ Hkey. vm_compute in Hkey. congruence.
  - intros teamID Hkey. vm_compute in Hkey. congruence.
  - intros Hkey. vm_compute in Hkey. congruence.
Defined.

(** * The registry of roles

    [DeclareFixedRoles], [DeclarePluginRoles] and [RegisterFixedRoles] change
    the service: they are functions from the service to the service they
    leave, with what they wrote to the log. *)

(** A line of the service's logger [s.log]: the level, the message and the
    context. *)
Inductive LogEntry :=
| LogError (msg : string) (context : list (string * string))
| LogDebug (msg : string) (context : list (string * string)).

(** What the registry imports from packages that are not part of this
    development: the validation of roles and grants, the closure of grants
    under the parents of a basic role and the basic roles a service starts
    with, of [accesscontrol]; the registrations of a plugin, their
    translation and their validation, of [plugins] and [pluginutils].
    Nothing is assumed of them. *)
Class RegistryImports := {
  (** [accesscontrol.ValidateFixedRole(role)] *)
  ValidateFixedRole : RoleDTO → option error;
  (** [accesscontrol.ValidateBuiltInRoles(grants)] *)
  ValidateBuiltInRoles : list string → option error;
  (** [accesscontrol.BuiltInRolesWithParents(grants)], a set of names *)
  BuiltInRolesWithParents : list string → gset string;
  (** [accesscontrol.BuildBasicRoleDefinitions()] *)
  BuildBasicRoleDefinitions : gmap string RoleDTO
}.

Class PluginImports := {
  (** [plugins.RoleRegistration] *)
  PluginRoleRegistration : Type;
  (** [pluginutils.ToRegistrations(ID, name, regs)] *)
  ToRegistrations :
    string → string → list PluginRoleRegistration → list RoleRegistration;
  (** [pluginutils.ValidatePluginRole(ID, role)] *)
  ValidatePluginRole : string → RoleDTO → option error
}.

(** Modelled from the spec: [RegistrationList.Append], "registrations are
    accumulated in an append-only ordered list". *)
Definition Append (l : RegistrationList) (registration : RoleRegistration)
    : RegistrationList :=
  l ++ [registration].

(** The assignments to the fields [registrations] and [roles]. *)
Definition withRegistrations (s : Service) (registrations : RegistrationList)
    : Service :=
  {| cfg_RBACPermissionCache := cfg_RBACPermissionCache s;
     features := features s;
     registrations := registrations;
     roles := roles s;
     store := store s |}.

(** The statement [s.registrations.Append(r)]. *)
Definition appendRegistration (s : Service) (r : RoleRegistration) : Service :=
  withRegistrations s (Append (registrations s) r).

Definition withRoles (s : Service) (roles : gmap string RoleDTO) : Service :=
  {| cfg_RBACPermissionCache := cfg_RBACPermissionCache s;
     features := features s;
     registrations := registrations s;
     roles := roles;
     store := store s |}.

Section RegistryModel.
Context `{RegistryImports} `{PluginImports}.

(** [ProvideOSSService]: the service starts with the basic roles and without
    registration. *)
Definition ProvideOSSService (cfg_RBACPermissionCache : bool) (store : Store)
    (features : FeatureFlag → bool) : Service :=
  {| cfg_RBACPermissionCache := cfg_RBACPermissionCache;
     features := features;
     registrations := [];
     roles := BuildBasicRoleDefinitions;
     store := store |}.

(** DeclareFixedRoles allow the caller to declare, to the service, fixed
    roles and their assignments to organization roles. *)
Fixpoint DeclareFixedRoles (s : Service) (registrations : list RoleRegistration)
    : Service * option error :=
  match registrations with
  | [] => (s, None)
  | r :: rest =>
      match ValidateFixedRole (RoleRegistration.Role r) with
      | Some err => (s, Some err)
      | None =>
          match ValidateBuiltInRoles (RoleRegistration.Grants r) with
          | Some err => (s, Some err)
          | None =>
              DeclareFixedRoles (appendRegistration s r) rest
          end
      end
  end.

(** The loop of [DeclarePluginRoles] over the registrations [acRegs]. *)
Fixpoint declarePluginRegistrations (ID : string) (s : Service)
    (log : list LogEntry) (acRegs : list RoleRegistration)
    : (Service * list LogEntry) * option error :=
  match acRegs with
  | [] => ((s, log), None)
  | r :: rest =>
      match ValidatePluginRole ID (RoleRegistration.Role r) with
      | Some err => ((s, log), Some err)
      | None =>
          match ValidateBuiltInRoles (RoleRegistration.Grants r) with
          | Some err => ((s, log), Some err)
          | None =>
              declarePluginRegistrations ID (appendRegistration s r)
                (log ++ [LogDebug "Registering plugin role"
                           [("role", RoleDTO.Name (RoleRegistration.Role r))]])
                rest
          end
      end
  end.

(** DeclarePluginRoles allow the caller to declare, to the service, plugin
    roles and their assignments to organization roles. *)
Definition DeclarePluginRoles (s : Service) (ID name : string)
    (regs : list PluginRoleRegistration)
    : (Service * list LogEntry) * option error :=
  if negb (features s FlagAccessControlOnCall) then ((s, []), None)
  else
    let acRegs := ToRegistrations ID name regs in
    declarePluginRegistrations ID s [] acRegs.

(** The body of the inner loop of [RegisterFixedRoles], for the basic role
    [br]: the permissions of the registration's role are appended to the
    basic role's, or the unknown name is logged. *)
Definition grantTo (registration : RoleRegistration)
    (state : gmap string RoleDTO * list LogEntry) (br : string)
    : gmap string RoleDTO * list LogEntry :=
  let '(roles, log) := state in
  match roles !! br with
  | Some basicRole =>
      (<[br := {| RoleDTO.Name := RoleDTO.Name basicRole;
                  RoleDTO.DisplayName := RoleDTO.DisplayName basicRole;
                  RoleDTO.Description := RoleDTO.Description basicRole;
                  RoleDTO.Permissions :=
                    RoleDTO.Permissions basicRole
                      ++ RoleDTO.Permissions
                           (RoleRegistration.Role registration) |}]> roles,
       log)
  | None =>
      (roles, log ++ [LogError "Unknown builtin role" [("builtInRole", br)]])
  end.

(** RegisterFixedRoles registers all declared roles in RAM.  The basic roles
    of a registration are a set: they are visited in the order of
    [elements]. *)
Definition RegisterFixedRoles (s : Service)
    : (Service * list LogEntry) * option error :=
  let '(roles, log) :=
    Range (registrations s)
      (λ registration state,
         (foldl (grantTo registration) state
                (elements (BuiltInRolesWithParents
                             (RoleRegistration.Grants registration))),
          true))
      (roles s, []) in
  ((withRoles s roles, log), None).

End RegistryModel.

Section RegistryFacts.
Context `{RegistryImports} `{PluginImports}.

Lemma withRegistrations_same (s : Service) :
  withRegistrations s (registrations s) = s.
Proof. by destruct s. Qed.

Lemma withRegistrations_twice (s : Service) (l l' : RegistrationList) :
  withRegistrations (withRegistrations s l) l' = withRegistrations s l'.
Proof. done. Qed.

(** The loop of [DeclareFixedRoles], written out: the registrations before
    the first one that is refused are appended. *)
Lemma DeclareFixedRoles_split (s : Service) (regs : list RoleRegistration) :
  ∃ accepted rest,
    regs = accepted ++ rest
    ∧ (DeclareFixedRoles s regs).1
      = withRegistrations s (registrations s ++ accepted)
    ∧ (∀ r, r ∈ accepted →
         ValidateFixedRole (RoleRegistration.Role r) = None
         ∧ ValidateBuiltInRoles (RoleRegistration.Grants r) = None)
    ∧ match (DeclareFixedRoles s regs).2 with
      | None => rest = []
      | Some err =>
          ∃ r rest',
            rest = r :: rest'
            ∧ (ValidateFixedRole (RoleRegistration.Role r) = Some err
               ∨ ValidateFixedRole (RoleRegistration.Role r) = None
                 ∧ ValidateBuiltInRoles (RoleRegistration.Grants r) = Some err)
      end.
Proof.
  revert s. induction regs as [|r regs IH]; intros s.
  - exists [], []. simpl. rewrite app_nil_r, withRegistrations_same.
    split_and!; [done..| |done]. intros r Hr. by apply elem_of_nil in Hr.
  - simpl.
    destruct (ValidateFixedRole (RoleRegistration.Role r)) as [err|] eqn:Hrole.
    { exists [], (r :: regs). simpl.
      rewrite app_nil_r, withRegistrations_same. split_and!; [done..| |].
      - intros r' Hr'. by apply elem_of_nil in Hr'.
      - exists r, regs. split; [done | by left]. }
    destruct (ValidateBuiltInRoles (RoleRegistration.Grants r)) as [err|]
      eqn:Hgrants.
    { exists [], (r :: regs). simpl.
      rewrite app_nil_r, withRegistrations_same. split_and!; [done..| |].
      - intros r' Hr'. by apply elem_of_nil in Hr'.
      - exists r, regs. split; [done | by right]. }
    destruct (IH (appendRegistration s r))
      as (accepted & rest & -> & Hservice & Hvalid & Herr).
    exists (r :: accepted), rest. split_and!; [done| | |done].
    + rewrite Hservice. unfold appendRegistration, Append. simpl.
      by rewrite withRegistrations_twice, <- app_assoc.
    + intros r' [->|Hr']%elem_of_cons; [done | by apply Hvalid].
Qed.

(** The lines [DeclarePluginRoles] logs for the registrations it
    appends. *)
Definition registering (accepted : list RoleRegistration) : list LogEntry :=
  (λ r, LogDebug "Registering plugin role"
          [("role", RoleDTO.Name (RoleRegistration.Role r))]) <$> accepted.

Lemma declarePluginRegistrations_split (ID : string) (s : Service)
    (log : list LogEntry) (acRegs : list RoleRegistration) :
  ∃ accepted rest,
    acRegs = accepted ++ rest
    ∧ (declarePluginRegistrations ID s log acRegs).1
      = (withRegistrations s (registrations s ++ accepted),
         log ++ registering accepted)
    ∧ (∀ r, r ∈ accepted →
         ValidatePluginRole ID (RoleRegistration.Role r) = None
         ∧ ValidateBuiltInRoles (RoleRegistration.Grants r) = None)
    ∧ match (declarePluginRegistrations ID s log acRegs).2 with
      | None => rest = []
      | Some err =>
          ∃ r rest',
            rest = r :: rest'
            ∧ (ValidatePluginRole ID (RoleRegistration.Role r) = Some err
               ∨ ValidatePluginRole ID (RoleRegistration.Role r) = None
                 ∧ ValidateBuiltInRoles (RoleRegistration.Grants r) = Some err)
      end.
Proof.
  revert s log. induction acRegs as [|r regs IH]; intros s log.
  - exists [], []. simpl. rewrite !app_nil_r, withRegistrations_same.
    split_and!; [done..| |done]. intros r Hr. by apply elem_of_nil in Hr.
  - simpl.
    destruct (ValidatePluginRole ID (RoleRegistration.Role r)) as [err|]
      eqn:Hrole.
    { exists [], (r :: regs). simpl.
      rewrite !app_nil_r, withRegistrations_same. split_and!; [done..| |].
      - intros r' Hr'. by apply elem_of_nil in Hr'.
      - exists r, regs. split; [done | by left]. }
    destruct (ValidateBuiltInRoles (RoleRegistration.Grants r)) as [err|]
      eqn:Hgrants.
    { exists [], (r :: regs). simpl.
      rewrite !app_nil_r, withRegistrations_same. split_and!; [done..| |].
      - intros r' Hr'. by apply elem_of_nil in Hr'.
      - exists r, regs. split; [done | by right]. }
    destruct (IH (appendRegistration s r)
                 (log ++ [LogDebug "Registering plugin role"
                            [("role", RoleDTO.Name (RoleRegistration.Role r))]]))
      as (accepted & rest & -> & Hservice & Hvalid & Herr).
    exists (r :: accepted), rest. split_and!; [done| | |done].
    + rewrite Hservice. unfold appendRegistration, Append. simpl.
      by rewrite withRegistrations_twice, <- !app_assoc.
    + intros r' [->|Hr']%elem_of_cons; [done | by apply Hvalid].
Qed.

End RegistryFacts.

(** X12. [DeclareFixedRoles] appends the registrations it is given, in
    their order, up to the first one whose role or whose grants are refused,
    and returns the error of that validation; the registrations before it
    stay appended, the ones after it are not looked at.  When none is refused
    all are appended and there is no error.  Nothing else of the service
    changes: the registrations it held come first, and the basic roles are
    as they were. *)
Theorem DeclareFixedRoles_spec `{RegistryImports} (s : Service)
    (regs : list RoleRegistration) :
  let s' := (DeclareFixedRoles s regs).1 in
  ∃ accepted rest,
    regs = accepted ++ rest
    ∧ registrations s' = registrations s ++ accepted
    ∧ roles s' = roles s
    ∧ store s' = store s
    ∧ features s' = features s
    ∧ cfg_RBACPermissionCache s' = cfg_RBACPermissionCache s
    ∧ (∀ r, r ∈ accepted →
         ValidateFixedRole (RoleRegistration.Role r) = None
         ∧ ValidateBuiltInRoles (RoleRegistration.Grants r) = None)
    ∧ match (DeclareFixedRoles s regs).2 with
      | None => rest = []
      | Some err =>
          ∃ r rest',
            rest = r :: rest'
            ∧ (ValidateFixedRole (RoleRegistration.Role r) = Some err
               ∨ ValidateFixedRole (RoleRegistration.Role r) = None
                 ∧ ValidateBuiltInRoles (RoleRegistration.Grants r) = Some err)
      end.
Proof.
  intros s'. subst s'.
  destruct (DeclareFixedRoles_split s regs)
    as (accepted & rest & Hregs & Hservice & Hvalid & Herr).
  exists accepted, rest. rewrite Hservice. by split_and!.
Qed.

(** X13. [DeclarePluginRoles] does nothing and reports no error when the
    feature [FlagAccessControlOnCall] is off.  When it is on, the
    registrations of the plugin, translated by [ToRegistrations], are
    appended in their order up to the first one whose role or whose grants
    are refused, with one line of log for each; the error is the one of that
    validation, and the registrations before it stay appended. *)
Theorem DeclarePluginRoles_spec `{RegistryImports} `{PluginImports}
    (s : Service) (ID name : string) (regs : list PluginRoleRegistration) :
  let s' := (DeclarePluginRoles s ID name regs).1.1 in
  let log := (DeclarePluginRoles s ID name regs).1.2 in
  (features s FlagAccessControlOnCall = false →
     DeclarePluginRoles s ID name regs = ((s, []), None))
  ∧ (features s FlagAccessControlOnCall = true →
     ∃ accepted rest,
       ToRegistrations ID name regs = accepted ++ rest
       ∧ registrations s' = registrations s ++ accepted
       ∧ roles s' = roles s
       ∧ store s' = store s
       ∧ features s' = features s
       ∧ cfg_RBACPermissionCache s' = cfg_RBACPermissionCache s
       ∧ log
         = (λ r, LogDebug "Registering plugin role"
                   [("role", RoleDTO.Name (RoleRegistration.Role r))])
             <$> accepted
       ∧ (∀ r, r ∈ accepted →
            ValidatePluginRole ID (RoleRegistration.Role r) = None
            ∧ ValidateBuiltInRoles (RoleRegistration.Grants r) = None)
       ∧ match (DeclarePluginRoles s ID name regs).2 with
         | None => rest = []
         | Some err =>
             ∃ r rest',
               rest = r :: rest'
               ∧ (ValidatePluginRole ID (RoleRegistration.Role r) = Some err
                  ∨ ValidatePluginRole ID (RoleRegistration.Role r) = None
                    ∧ ValidateBuiltInRoles (RoleRegistration.Grants r)
                      = Some err)
         end).
Proof.
  intros s' log. subst s' log. unfold DeclarePluginRoles.
  split; intros ->; [done|]. simpl.
  destruct (declarePluginRegistrations_split ID s []
              (ToRegistrations ID name regs))
    as (accepted & rest & Hregs & Hservice & Hvalid & Herr).
  exists accepted, rest. rewrite Hservice. by split_and!.
Qed.

Section Registration.
Context `{RegistryImports}.

(** A basic role with [permissions] appended to its permissions. *)
Definition addPermissions (permissions : list Permission) (role : RoleDTO)
    : RoleDTO :=
  {| RoleDTO.Name := RoleDTO.Name role;
     RoleDTO.DisplayName := RoleDTO.DisplayName role;
     RoleDTO.Description := RoleDTO.Description role;
     RoleDTO.Permissions := RoleDTO.Permissions role ++ permissions |}.

(** The permissions a registration adds to the basic role [br], and the
    permissions the registrations [l] add to it, in their order. *)
Definition granted (br : string) (registration : RoleRegistration)
    : list Permission :=
  if decide (br ∈ BuiltInRolesWithParents (RoleRegistration.Grants registration))
  then RoleDTO.Permissions (RoleRegistration.Role registration)
  else [].

Definition contributions (l : RegistrationList) (br : string)
    : list Permission :=
  concat (granted br <$> l).

(** The function [RegisterFixedRoles] hands to [Range]. *)
Definition registerOne (registration : RoleRegistration)
    (state : gmap string RoleDTO * list LogEntry)
    : (gmap string RoleDTO * list LogEntry) * bool :=
  (foldl (grantTo registration) state
         (elements (BuiltInRolesWithParents
                      (RoleRegistration.Grants registration))),
   true).

Definition unknownBuiltinRole (br : string) : LogEntry :=
  LogError "Unknown builtin role" [("builtInRole", br)].

Lemma addPermissions_nil (role : RoleDTO) : addPermissions [] role = role.
Proof. destruct role. unfold addPermissions. simpl. by rewrite app_nil_r. Qed.

Lemma addPermissions_app (p q : list Permission) (role : RoleDTO) :
  addPermissions q (addPermissions p role) = addPermissions (p ++ q) role.
Proof. unfold addPermissions. simpl. by rewrite app_assoc. Qed.

(** The inner loop over the basic roles [l] of a registration: the roles it
    leaves and the lines it logs. *)
Lemma grantTo_foldl (registration : RoleRegistration) (l : list string)
    (roles : gmap string RoleDTO) (log : list LogEntry) :
  NoDup l →
  let state := foldl (grantTo registration) (roles, log) l in
  (∀ br,
     state.1 !! br
     = if decide (br ∈ l)
       then addPermissions
              (RoleDTO.Permissions (RoleRegistration.Role registration))
              <$> roles !! br
       else roles !! br)
  ∧ ∀ entry,
      entry ∈ state.2
      ↔ entry ∈ log
        ∨ ∃ br, br ∈ l ∧ roles !! br = None ∧ entry = unknownBuiltinRole br.
Proof.
  revert roles log. induction l as [|a l IH]; intros roles log Hnodup.
  { simpl. split; [done|]. intros entry. split; [by left|].
    intros [?|(br & Hin & _)]; [done | by apply elem_of_nil in Hin]. }
  apply NoDup_cons in Hnodup as [Hfresh Hnodup]. simpl.
  destruct (roles !! a) as [basicRole|] eqn:Ha.
  - destruct (IH (<[a := addPermissions
                           (RoleDTO.Permissions
                              (RoleRegistration.Role registration))
                           basicRole]> roles) log Hnodup) as [Hroles Hlog].
    split.
    + intros br. rewrite Hroles. destruct (decide (br = a)) as [->|Hne].
      * rewrite decide_False by done. rewrite decide_True by (by left).
        by rewrite lookup_insert_eq, Ha.
      * rewrite lookup_insert_ne by done.
        destruct (decide (br ∈ l)).
        -- by rewrite decide_True by (by right).
        -- rewrite decide_False; [done|]. by intros [?|?]%elem_of_cons.
    + intros entry. rewrite Hlog. split.
      * intros [?|(br & Hin & Hnone & ->)]; [by left|].
        right. exists br. split_and!; [by right| |done].
        rewrite lookup_insert_ne in Hnone; [done|]. by intros ->.
      * intros [?|(br & [->|Hin]%elem_of_cons & Hnone & ->)];
          [by left | congruence |].
        right. exists br. split_and!; [done| |done].
        rewrite lookup_insert_ne; [done|]. by intros ->.
  - destruct (IH roles (log ++ [unknownBuiltinRole a]) Hnodup)
      as [Hroles Hlog].
    split.
    + intros br. rewrite Hroles. destruct (decide (br = a)) as [->|Hne].
      * rewrite decide_False by done. rewrite decide_True by (by left).
        by rewrite Ha.
      * destruct (decide (br ∈ l)).
        -- by rewrite decide_True by (by right).
        -- rewrite decide_False; [done|]. by intros [?|?]%elem_of_cons.
    + intros entry. rewrite Hlog, elem_of_app, list_elem_of_singleton. split.
      * intros [[?| ->]|(br & Hin & Hnone & ->)].
        -- by left.
        -- right. exists a. split_and!; [by left | done..].
        -- right. exists br. split_and!; [by right | done..].
      * intros [?|(br & [->|Hin]%elem_of_cons & Hnone & ->)].
        -- left. by left.
        -- left. by right.
        -- right. by exists br.
Qed.

(** The loop over the registrations [l]. *)
Lemma registerOne_Range (l : RegistrationList) (roles : gmap string RoleDTO)
    (log : list LogEntry) :
  let state := Range l registerOne (roles, log) in
  (∀ br, state.1 !! br = addPermissions (contributions l br) <$> roles !! br)
  ∧ ∀ entry,
      entry ∈ state.2
      ↔ entry ∈ log
        ∨ ∃ registration br,
            registration ∈ l
            ∧ br ∈ BuiltInRolesWithParents
                     (RoleRegistration.Grants registration)
            ∧ roles !! br = None
            ∧ entry = unknownBuiltinRole br.
Proof.
  revert roles log. induction l as [|r l IH]; intros roles log.
  { simpl. split.
    - intros br. unfold contributions. simpl.
      destruct (roles !! br); simpl; [by rewrite addPermissions_nil | done].
    - intros entry. split; [by left|].
      intros [?|(r & br & Hin & _)]; [done | by apply elem_of_nil in Hin]. }
  simpl. unfold registerOne at 2.
  destruct (foldl (grantTo r) (roles, log) _) as [roles1 log1] eqn:Hinner.
  pose proof (grantTo_foldl r
                (elements (BuiltInRolesWithParents (RoleRegistration.Grants r)))
                roles log (NoDup_elements _)) as Hfold.
  cbv zeta in Hfold. rewrite Hinner in Hfold. simpl in Hfold.
  destruct Hfold as [Hroles1 Hlog1].
  destruct (IH roles1 log1) as [Hroles Hlog]. split.
  - intros br. rewrite Hroles, Hroles1.
    unfold contributions. simpl. unfold granted at 2.
    destruct (decide (br ∈ elements _)) as [Hin|Hout].
    + rewrite decide_True by (by apply elem_of_elements).
      destruct (roles !! br); simpl; [by rewrite addPermissions_app | done].
    + rewrite decide_False by (by rewrite <- elem_of_elements).
      done.
  - intros entry. rewrite Hlog, Hlog1. split.
    + intros [[?|(br & Hin & Hnone & ->)]|(r' & br & Hin & Hbr & Hnone & ->)].
      * by left.
      * right. exists r, br. split_and!; [by left| |done..].
        by apply elem_of_elements.
      * right. exists r', br. split_and!; [by right|done| |done].
        rewrite Hroles1 in Hnone. destruct (decide _); [|done].
        by destruct (roles !! br).
    + intros [?|(r' & br & [->|Hin]%elem_of_cons & Hbr & Hnone & ->)].
      * left. by left.
      * left. right. exists br. split_and!; [|done..].
        by apply elem_of_elements.
      * right. exists r', br. split_and!; [done..| |done].
        rewrite Hroles1. destruct (decide _); [|done]. by rewrite Hnone.
Qed.

(** [RegisterFixedRoles], written out. *)
Lemma RegisterFixedRoles_eq (s : Service) :
  RegisterFixedRoles s
  = ((withRoles s (Range (registrations s) registerOne (roles s, [])).1,
      (Range (registrations s) registerOne (roles s, [])).2), None).
Proof.
  unfold RegisterFixedRoles. fold registerOne.
  by destruct (Range _ _ _).
Qed.

Lemma RegisterFixedRoles_roles (s : Service) (br : string) :
  roles (RegisterFixedRoles s).1.1 !! br
  = addPermissions (contributions (registrations s) br) <$> roles s !! br.
Proof.
  rewrite RegisterFixedRoles_eq. simpl.
  apply (registerOne_Range (registrations s) (roles s) []).
Qed.

End Registration.

(** An instance of the registry's imports, for the scenarios. *)
Module Registry.

(** Modelled from the spec: the validation of a fixed role, which "validates
    each role's permissions are well-formed (non-empty action names, legal
    scope syntax)"; here the action names. *)
Definition validateFixedRole (role : RoleDTO) : option error :=
  if existsb (λ permission, String.eqb (Permission.Action permission) "")
             (RoleDTO.Permissions role)
  then Some (ExternalError "invalid role")
  else None.

(** Modelled from the spec: the validation of grants, "that grant targets
    are recognized basic-role names". *)
Definition validateBuiltInRoles (grants : list string) : option error :=
  if forallb (λ grant,
                bool_decide
                  (grant ∈ ["Viewer"; "Editor"; "Admin"; "Grafana Admin"]))
             grants
  then None
  else Some (ExternalError "invalid built-in role").

(** Modelled from the spec: the basic roles of a registration's grants,
    "including any implied parent basic roles — e.g., an admin grant must
    also imply editor/viewer". *)
Definition builtInRolesWithParents (grants : list string) : gset string :=
  ⋃ ((λ grant,
        if String.eqb grant "Admin" then {[ "Admin"; "Editor"; "Viewer" ]}
        else if String.eqb grant "Editor" then {[ "Editor"; "Viewer" ]}
        else {[ grant ]}) <$> grants).

#[global] Instance imports : RegistryImports := {|
  ValidateFixedRole := validateFixedRole;
  ValidateBuiltInRoles := validateBuiltInRoles;
  BuiltInRolesWithParents := builtInRolesWithParents;
  BuildBasicRoleDefinitions := {[ "Viewer" := Reference.viewer ]}
|}.

(** A registration of the role of the reports' readers for the viewers, one
    of a role without name for an action, and one of a second role under the
    name of the first. *)
Definition reports : RoleRegistration :=
  {| RoleRegistration.Role := Reference.reportsReader;
     RoleRegistration.Grants := ["Viewer"] |}.

Definition malformed : RoleRegistration :=
  {| RoleRegistration.Role :=
       {| RoleDTO.Name := "fixed:malformed";
          RoleDTO.DisplayName := "";
          RoleDTO.Description := "";
          RoleDTO.Permissions :=
            [{| Permission.Action := ""; Permission.Scope := "" |}] |};
     RoleRegistration.Grants := ["Viewer"] |}.

Definition reportsAgain : RoleRegistration :=
  {| RoleRegistration.Role :=
       {| RoleDTO.Name := "fixed:reports:reader";
          RoleDTO.DisplayName := "Reports reader, again";
          RoleDTO.Description := "";
          RoleDTO.Permissions := [] |};
     RoleRegistration.Grants := ["Editor"] |}.

(** The service as it is provided, over the store of the reference
    scenario. *)
Definition provided : Service :=
  ProvideOSSService true (Reference.tableStore Reference.tables) (λ _, false).

End Registry.

Section Lookup.

Lemma Range_findRole_some (roleName : string) (l : RegistrationList)
    (role : RoleDTO) :
  Range l (findRole roleName) (None, Some ErrRoleNotFound) = (Some role, None) →
  ∃ before registration after,
    l = before ++ registration :: after
    ∧ RoleDTO.Name (RoleRegistration.Role registration) = roleName
    ∧ (∀ r, r ∈ before → RoleDTO.Name (RoleRegistration.Role r) ≠ roleName)
    ∧ role = RoleRegistration.Role registration.
Proof.
  induction l as [|r l IH]; [done|]. simpl. unfold findRole at 1.
  destruct (String.eqb_spec (RoleDTO.Name (RoleRegistration.Role r)) roleName)
    as [Heq|Hne].
  - intros [= <-]. exists [], r, l. split_and!; [done..| |done].
    intros r' Hr'. by apply elem_of_nil in Hr'.
  - intros (before & registration & after & -> & Hname & Hbefore & ->)%IH.
    exists (r :: before), registration, after. split_and!; [done..| |done].
    intros r' [->|Hr']%elem_of_cons; [done | by apply Hbefore].
Qed.

Lemma elem_of_concat {A : Type} (x : A) (ls : list (list A)) :
  x ∈ concat ls ↔ ∃ l, x ∈ l ∧ l ∈ ls.
Proof.
  rewrite list_elem_of_In, in_concat. split.
  - intros (l & Hl & Hx). exists l. by rewrite !list_elem_of_In.
  - intros (l & Hx & Hl). exists l. by rewrite <- !list_elem_of_In.
Qed.

End Lookup.

(** X14. [RegisterFixedRoles] reports no error and changes the basic roles
    only: each basic role keeps its name and description, and its
    permissions are followed by the permissions of every registration whose
    grants, closed under parents, name it, in the order of the
    registrations.  No basic role is added or removed, and the registrations
    are as they were. *)
Theorem RegisterFixedRoles_spec `{RegistryImports} (s : Service) :
  let s' := (RegisterFixedRoles s).1.1 in
  (RegisterFixedRoles s).2 = None
  ∧ registrations s' = registrations s
  ∧ store s' = store s
  ∧ features s' = features s
  ∧ cfg_RBACPermissionCache s' = cfg_RBACPermissionCache s
  ∧ ∀ br,
      roles s' !! br
      = match roles s !! br with
        | None => None
        | Some basicRole =>
            Some {| RoleDTO.Name := RoleDTO.Name basicRole;
                    RoleDTO.DisplayName := RoleDTO.DisplayName basicRole;
                    RoleDTO.Description := RoleDTO.Description basicRole;
                    RoleDTO.Permissions :=
                      RoleDTO.Permissions basicRole
                        ++ concat
                             ((λ registration,
                                 if decide
                                      (br ∈ BuiltInRolesWithParents
                                              (RoleRegistration.Grants
                                                 registration))
                                 then RoleDTO.Permissions
                                        (RoleRegistration.Role registration)
                                 else [])
                                <$> registrations s) |}
        end.
Proof.
  intros s'. subst s'. split_and!; try by rewrite RegisterFixedRoles_eq.
  intros br. rewrite RegisterFixedRoles_roles.
  by destruct (roles s !! br).
Qed.

(** X15. The lines [RegisterFixedRoles] logs are the errors for the names
    that no basic role has: there is one for a name exactly when a
    registration's grants, closed under parents, name it and it is not a
    basic role of the service.  Such a name is skipped: it stops nothing. *)
Theorem RegisterFixedRoles_log `{RegistryImports} (s : Service)
    (entry : LogEntry) :
  entry ∈ (RegisterFixedRoles s).1.2
  ↔ ∃ registration br,
      registration ∈ registrations s
      ∧ br ∈ BuiltInRolesWithParents (RoleRegistration.Grants registration)
      ∧ roles s !! br = None
      ∧ entry = LogError "Unknown builtin role" [("builtInRole", br)].
Proof.
  rewrite RegisterFixedRoles_eq. simpl.
  destruct (registerOne_Range (registrations s) (roles s) []) as [_ Hlog].
  rewrite Hlog. split; [|by right].
  intros [Hin|?]; [by apply elem_of_nil in Hin | done].
Qed.

(** X16. [RegisterFixedRoles] is not idempotent: run a second time it
    appends the permissions of the registrations to each basic role a second
    time. *)
Theorem RegisterFixedRoles_twice `{RegistryImports} (s : Service)
    (br : string) (basicRole : RoleDTO) :
  roles s !! br = Some basicRole →
  let added :=
    concat ((λ registration,
               if decide (br ∈ BuiltInRolesWithParents
                                 (RoleRegistration.Grants registration))
               then RoleDTO.Permissions (RoleRegistration.Role registration)
               else [])
              <$> registrations s) in
  RoleDTO.Permissions
    <$> roles (RegisterFixedRoles (RegisterFixedRoles s).1.1).1.1 !! br
  = Some ((RoleDTO.Permissions basicRole ++ added) ++ added).
Proof.
  intros Hrole added. rewrite !RegisterFixedRoles_roles.
  assert (registrations (RegisterFixedRoles s).1.1 = registrations s) as ->
    by (by rewrite RegisterFixedRoles_eq).
  by rewrite Hrole.
Qed.

Lemma RegisterFixedRoles_twice_witness :
  RoleDTO.Permissions
    <$> roles (RegisterFixedRoles
                 (RegisterFixedRoles Reference.registry).1.1).1.1 !! "Viewer"
  = Some [Reference.dashboardsRead;
          {| Permission.Action := "reports:read";
             Permission.Scope := "reports:*" |};
          {| Permission.Action := "reports:read";
             Permission.Scope := "reports:*" |}].
Proof.
  exact (RegisterFixedRoles_twice Reference.registry "Viewer" Reference.viewer
           eq_refl).
Defined.

(** X17. A registered role reaches the principals of the basic roles it is
    granted to: after [RegisterFixedRoles], a resolution on the uncached path
    that succeeds, for a principal that holds a basic role of the service
    that a registration's grants name, returns every permission of that
    registration's role. *)
Theorem registered_permissions_are_resolved `{Imports} `{RegistryImports}
    (s : Service) (registration : RoleRegistration) (br : string)
    (user : Requester) (options : Options) (w w' : World)
    (permission : Permission) (permissions : list Permission) :
  registration ∈ registrations s →
  br ∈ BuiltInRolesWithParents (RoleRegistration.Grants registration) →
  is_Some (roles s !! br) →
  br ∈ GetOrgRoles user →
  permission ∈ RoleDTO.Permissions (RoleRegistration.Role registration) →
  getUserPermissions (RegisterFixedRoles s).1.1 user options w
  = ((permissions, None), w') →
  permission ∈ permissions.
Proof.
  intros Hregistration Hgrant [basicRole Hrole] Hholds Hpermission.
  rewrite getUserPermissions_eq. cbv zeta.
  destruct (UserIdentifier _ _) as [userID [err|]]; [done|].
  destruct (Store.GetUserPermissions _ _) as [dbPermissions [err|]]; [done|].
  intros [= <- _]. rewrite appendBasicRoles_concat. simpl.
  apply elem_of_app. left. apply elem_of_app. left.
  apply elem_of_concat. exists (inMemory (RegisterFixedRoles s).1.1 br).
  split; [|by apply list_elem_of_fmap_2].
  unfold inMemory. rewrite RegisterFixedRoles_roles, Hrole. simpl.
  apply elem_of_app. right. unfold contributions.
  apply elem_of_concat. exists (granted br registration).
  split; [|by apply list_elem_of_fmap_2].
  unfold granted. by rewrite decide_True.
Qed.

Lemma registered_permissions_are_resolved_witness :
  ∃ permissions w',
    getUserPermissions (RegisterFixedRoles Reference.registry).1.1
                       Reference.user42 Reference.noReload Reference.emptyWorld
    = ((permissions, None), w')
    ∧ {| Permission.Action := "reports:read"; Permission.Scope := "reports:*" |}
      ∈ permissions.
Proof.
  eexists _, _. split; [by vm_compute|].
  refine (registered_permissions_are_resolved
            Reference.registry Registry.reports "Viewer" Reference.user42
            Reference.noReload Reference.emptyWorld _ _ _ _ _ _ _ _ eq_refl).
  - right. left.
  - by vm_compute.
  - by eexists.
  - left.
  - left.
Defined.

(** X18. [RegisterFixedRoles] does not reach the cache: a resolution that is
    answered from the cache alone (cache enabled, unique id, no
    [ReloadCache], every entry of the principal present) returns after the
    registration what it returned before, without the permissions that were
    registered. *)
Theorem RegisterFixedRoles_keeps_cached_answers `{Imports} `{RegistryImports}
    (s : Service) (user : Requester) (options : Options) (w : World) :
  cfg_RBACPermissionCache s = true →
  HasUniqueId user = true →
  ReloadCache options = false →
  (∀ role, role ∈ GetOrgRoles user →
     is_Some (cache w !! GetBasicRolePermissionCacheKey role (GetOrgID user))) →
  (∀ teamID, teamID ∈ GetTeams user →
     is_Some (cache w !! GetTeamPermissionCacheKey teamID (GetOrgID user))) →
  is_Some (cache w !! GetUserDirectPermissionCacheKey user) →
  GetUserPermissions (RegisterFixedRoles s).1.1 user options w
  = GetUserPermissions s user options w.
Proof.
  intros Hcfg Hid Hreload Hroles Hteams [direct Hdirect].
  unfold GetUserPermissions.
  assert (cfg_RBACPermissionCache (RegisterFixedRoles s).1.1 = true) as ->
    by (by rewrite RegisterFixedRoles_eq).
  rewrite Hcfg, Hid. simpl.
  by rewrite !(getCachedUserPermissions_warm _ user options w direct).
Qed.

Lemma RegisterFixedRoles_keeps_cached_answers_witness :
  (GetUserPermissions (RegisterFixedRoles Reference.registry).1.1
                      Reference.user44 Reference.noReload Reference.warm44).1
  = ([Reference.dashboardsRead; Reference.teamsRead; Reference.foldersWrite],
     None).
Proof.
  rewrite (RegisterFixedRoles_keeps_cached_answers
             Reference.registry Reference.user44 Reference.noReload
             Reference.warm44 eq_refl eq_refl eq_refl).
  - reflexivity.
  - intros role ->%list_elem_of_singleton. vm_compute. by eexists.
  - intros teamID [->| ->%list_elem_of_singleton]%elem_of_cons;
      vm_compute; by eexists.
  - vm_compute. by eexists.
Defined.

(** X19. What [GetRoleByName] answers for a name is settled by the first
    registration of that name: once a name resolves to a role, declaring
    further roles, under the same name or any other, does not change the
    answer, whether the declaration succeeds or fails. *)
Theorem GetRoleByName_after_declaration `{RegistryImports} (s : Service)
    (orgID : Z) (roleName : string) (role : RoleDTO)
    (regs : list RoleRegistration) :
  GetRoleByName s orgID roleName = (Some role, None) →
  GetRoleByName (DeclareFixedRoles s regs).1 orgID roleName
  = (Some role, None).
Proof.
  intros Hfound.
  assert (roles s !! roleName = None) as Hbasic.
  { revert Hfound. unfold GetRoleByName. by destruct (roles s !! roleName). }
  rewrite GetRoleByName_Range in Hfound by done.
  apply Range_findRole_some
    in Hfound as (before & registration & after & Hl & Hname & Hbefore & ->).
  destruct (DeclareFixedRoles_split s regs)
    as (accepted & rest & _ & -> & _).
  rewrite GetRoleByName_Range by done. simpl.
  rewrite Hl, <- app_assoc. simpl.
  by apply Range_findRole_first.
Qed.

Lemma GetRoleByName_after_declaration_witness :
  GetRoleByName
    (DeclareFixedRoles (DeclareFixedRoles Registry.provided [Registry.reports]).1
                       [Registry.reportsAgain; Registry.malformed]).1
    1 "fixed:reports:reader"
  = (Some Reference.reportsReader, None).
Proof.
  exact (GetRoleByName_after_declaration
           (DeclareFixedRoles Registry.provided [Registry.reports]).1 1
           "fixed:reports:reader" Reference.reportsReader
           [Registry.reportsAgain; Registry.malformed] eq_refl).
Defined.

(** X20. A role that was declared is found: after a declaration that
    succeeded, [GetRoleByName] answers each declared name that is not the
    name of a basic role with a role of that name. *)
Theorem GetRoleByName_declared `{RegistryImports} (s : Service) (orgID : Z)
    (regs : list RoleRegistration) (registration : RoleRegistration) :
  (DeclareFixedRoles s regs).2 = None →
  registration ∈ regs →
  roles s !! RoleDTO.Name (RoleRegistration.Role registration) = None →
  ∃ role,
    GetRoleByName (DeclareFixedRoles s regs).1 orgID
                  (RoleDTO.Name (RoleRegistration.Role registration))
    = (Some role, None)
    ∧ RoleDTO.Name role = RoleDTO.Name (RoleRegistration.Role registration).
Proof.
  intros Hok Hin Hbasic.
  destruct (DeclareFixedRoles_split s regs)
    as (accepted & rest & -> & Hservice & _ & Herr).
  rewrite Hok in Herr. subst rest. rewrite app_nil_r in Hin.
  rewrite Hservice, GetRoleByName_Range by done. simpl.
  destruct (first_registration
              (RoleDTO.Name (RoleRegistration.Role registration))
              (registrations s ++ accepted))
    as (before & first & after & -> & Hname & Hbefore).
  { exists registration. split; [|done]. apply elem_of_app. by right. }
  exists (RoleRegistration.Role first). split; [|done].
  by apply Range_findRole_first.
Qed.

Lemma GetRoleByName_declared_witness :
  ∃ role,
    GetRoleByName
      (DeclareFixedRoles Registry.provided
                         [Registry.reports; Registry.reportsAgain]).1
      1 "fixed:reports:reader"
    = (Some role, None)
    ∧ RoleDTO.Name role = "fixed:reports:reader".
Proof.
  refine (GetRoleByName_declared Registry.provided 1
            [Registry.reports; Registry.reportsAgain] Registry.reportsAgain
            eq_refl _ eq_refl).
  right. left.
Defined.

(** X21. [RegisterFixedRoles] changes nothing for [GetRoleByName]: the names
    of the basic roles stay the names it refuses, and every other name is
    answered as before. *)
Theorem GetRoleByName_after_registration `{RegistryImports} (s : Service)
    (orgID : Z) (roleName : string) :
  GetRoleByName (RegisterFixedRoles s).1.1 orgID roleName
  = GetRoleByName s orgID roleName.
Proof.
  unfold GetRoleByName. rewrite RegisterFixedRoles_roles.
  assert (registrations (RegisterFixedRoles s).1.1 = registrations s) as ->
    by (by rewrite RegisterFixedRoles_eq).
  by destruct (roles s !! roleName).
Qed.

(** ** The permissions of the bulk search *)

Section Bulk.
Context `{Imports} (s : Service).

(** The matching permissions of one basic role, as [filterBasicRole] adds
    them to the entry of the role. *)
Lemma filterBasicRole_lookup (options : SearchOptions) (role : string)
    (basicRole : RoleDTO) (basicPermissions : gmap string (list Permission))
    (other : string) :
  filterBasicRole options role basicRole basicPermissions !! other
  = if decide (other = role) then
      match matching options (RoleDTO.Permissions basicRole) with
      | [] => basicPermissions !! role
      | found => Some (default [] (basicPermissions !! role) ++ found)
      end
    else basicPermissions !! other.
Proof.
  unfold filterBasicRole, matching.
  generalize (RoleDTO.Permissions basicRole) as permissions.
  intros permissions. revert basicPermissions.
  induction permissions as [|p permissions IH]; intros basicPermissions; simpl.
  { case_decide; by subst. }
  rewrite IH. destruct (PermissionMatchesSearchOptions p options); [|done].
  case_decide as Hother; [|by rewrite lookup_insert_ne].
  subst other. rewrite lookup_insert_eq. simpl.
  destruct (List.filter _ permissions) as [|q found]; simpl.
  - done.
  - by rewrite <- app_assoc.
Qed.

(** The entry of a basic role in the map [filterBasicRoles] builds: its
    matching permissions, when there are some. *)
Lemma filterBasicRoles_lookup (options : SearchOptions) (role : string) :
  filterBasicRoles s options !! role
  = match matching options (inMemory s role) with
    | [] => None
    | found => Some found
    end.
Proof.
  unfold filterBasicRoles, inMemory.
  assert (∀ (l : list (string * RoleDTO))
            (basicPermissions : gmap string (list Permission)),
            NoDup l.*1 →
            foldl (λ basicPermissions '(role, basicRole),
                     filterBasicRole options role basicRole basicPermissions)
                  basicPermissions l !! role
            = match list_find (λ entry, entry.1 = role) l with
              | Some (_, (_, basicRole)) =>
                  match matching options (RoleDTO.Permissions basicRole) with
                  | [] => basicPermissions !! role
                  | found =>
                      Some (default [] (basicPermissions !! role) ++ found)
                  end
              | None => basicPermissions !! role
              end) as Hfold.
  { induction l as [|[k v] l IH]; intros basicPermissions Hnodup; [done|].
    simpl in Hnodup. apply NoDup_cons in Hnodup as [Hfresh Hnodup].
    simpl. rewrite IH by done. case_decide as Hk; simpl in Hk.
    - subst k. simpl.
      assert (list_find (λ entry, entry.1 = role) l = None) as ->.
      { apply list_find_None, Forall_forall. intros [k' v'] Hin Heq.
        simpl in Heq. subst k'. apply Hfresh.
        apply list_elem_of_fmap. by exists (role, v'). }
      simpl. rewrite filterBasicRole_lookup. by rewrite decide_True.
    - destruct (list_find _ l) as [[i [k' v']]|] eqn:Hfind; simpl.
      + rewrite filterBasicRole_lookup. by rewrite decide_False by congruence.
      + rewrite filterBasicRole_lookup. by rewrite decide_False by congruence. }
  rewrite Hfold by apply NoDup_fst_map_to_list. rewrite lookup_empty.
  destruct (list_find _ _) as [[i [k v]]|] eqn:Hfind.
  - apply list_find_Some in Hfind as (Hi & Hk & _). simpl in Hk. subst k.
    apply list_elem_of_lookup_2, elem_of_map_to_list in Hi. rewrite Hi.
    by destruct (matching _ _).
  - destruct (roles s !! role) as [basicRole|] eqn:Hrole; [|done].
    exfalso. apply list_find_None in Hfind.
    apply elem_of_map_to_list in Hrole.
    rewrite Forall_forall in Hfind. by apply (Hfind _ Hrole).
Qed.

(** The permissions the bulk search merges for a user are the matching
    permissions its basic roles hold in memory, followed by the store's. *)
Lemma mergedPermissions_filterBasicRoles (options : SearchOptions)
    (usersPermissions : gmap Z (list Permission)) (userID : Z)
    (userRoles : list string) :
  mergedPermissions (filterBasicRoles s options) usersPermissions userID
                    userRoles
  = basicMatching s options userRoles
    ++ default [] (usersPermissions !! userID).
Proof.
  unfold mergedPermissions. f_equal.
  assert (∀ perms,
            foldl (λ perms role,
                     match filterBasicRoles s options !! role with
                     | None => perms
                     | Some basicPermission => perms ++ basicPermission
                     end) perms userRoles
            = perms ++ basicMatching s options userRoles) as Hfold.
  { induction userRoles as [|role rest IH]; intros perms.
    - by rewrite app_nil_r.
    - simpl. rewrite IH, filterBasicRoles_lookup.
      unfold basicMatching. simpl.
      destruct (matching options (inMemory s role)); simpl.
      + done.
      + by rewrite <- app_assoc. }
  apply (Hfold []).
Qed.

End Bulk.

(** X22. What the bulk search returns for a user: when the store answers,
    a user the requester can view, with basic roles in the organisation, is
    returned with the permissions its basic roles hold in memory that match
    the search options, in the order of the roles, followed by the
    permissions the store found for it; it is left out when there is none. *)
Theorem SearchUsersPermissions_bulk_permissions `{Imports} (s : Service)
    (usr : Requester) (options : SearchOptions) (w : World)
    (usersRoles : gmap Z (list string))
    (usersPermissions : gmap Z (list Permission))
    (userID : Z) (userRoles : list string) :
  SearchOptions.NamespacedID options = "" →
  let options' := withRolePrefixes options OSSRolesPrefixes in
  Store.GetUsersBasicRoles (store s) [] (GetOrgID usr) = (usersRoles, None) →
  Store.SearchUsersPermissions (store s) (GetOrgID usr) options'
  = (usersPermissions, None) →
  canView usr userID = true →
  usersRoles !! userID = Some userRoles →
  let permissions :=
    concat ((λ role,
               List.filter
                 (λ permission,
                    PermissionMatchesSearchOptions permission options')
                 (match roles s !! role with
                  | Some basicRole => RoleDTO.Permissions basicRole
                  | None => []
                  end)) <$> userRoles)
    ++ default [] (usersPermissions !! userID) in
  (SearchUsersPermissions s usr options w).1.1 !! userID
  = match permissions with
    | [] => None
    | _ => Some permissions
    end.
Proof.
  intros Hbulk options' Hroles Hperms Hview HuserRoles permissions.
  rewrite SearchUsersPermissions_bulk by done. cbv zeta. fold options'.
  rewrite Hroles, Hperms. simpl.
  rewrite mergeUsers_lookup, Hview, HuserRoles.
  rewrite mergedPermissions_filterBasicRoles. subst permissions.
  unfold basicMatching, matching, inMemory.
  by destruct (concat _ ++ _).
Qed.

Lemma SearchUsersPermissions_bulk_permissions_witness :
  (SearchUsersPermissions (Reference.service true) Reference.auditor
                          Reference.searchAll Reference.emptyWorld).1.1 !! 7
  = Some [Reference.dashboardsRead].
Proof.
  exact (SearchUsersPermissions_bulk_permissions
           (Reference.service true) Reference.auditor Reference.searchAll
           Reference.emptyWorld
           (Reference.usersRoles Reference.tables 1)
           (Store.SearchUsersPermissions
              (Reference.tableStore Reference.tables) 1
              (withRolePrefixes Reference.searchAll OSSRolesPrefixes)).1
           7 ["Viewer"] eq_refl eq_refl eq_refl eq_refl eq_refl).
Defined.

(** ** Scopes that name a user in decimal *)

Section Decimal.

Lemma pretty_N_char_digit (d : N) :
  (d < 10)%N →
  strconv.isDigit (pretty_N_char d) = true
  ∧ Z.of_nat (nat_of_ascii (pretty_N_char d)) - 48 = Z.of_N d.
Proof.
  intros Hd.
  assert (d = 0 ∨ d = 1 ∨ d = 2 ∨ d = 3 ∨ d = 4 ∨ d = 5 ∨ d = 6 ∨ d = 7
          ∨ d = 8 ∨ d = 9)%N as Hcases by lia.
  repeat (destruct Hcases as [->|Hcases]; [by vm_compute|]).
  subst d. by vm_compute.
Qed.

Lemma below_cutoff (a q r : N) :
  Z.of_N a ≤ strconv.maxUint64 →
  Z.of_N a = Z.of_N q * 10 + Z.of_N r →
  Z.of_N q < 1844674407370955162.
Proof.
  unfold strconv.maxUint64.
  change (2 ^ 64 - 1) with 18446744073709551615. lia.
Qed.

(** Reading the digits [pretty_N_go] writes gives the number back. *)
Lemma parseUintFrom_pretty_N_go (x : N) (s : string) :
  Z.of_N x ≤ strconv.maxUint64 →
  strconv.parseUintFrom (pretty_N_go x s) 0
  = strconv.parseUintFrom s (Z.of_N x).
Proof.
  revert s. induction (N.lt_wf_0 x) as [x _ IH]; intros s Hx.
  destruct (decide (x = 0%N)) as [->|Hpos].
  { by rewrite pretty_N_go_0. }
  rewrite pretty_N_go_step by lia.
  assert (x `div` 10 < x)%N as Hlt by (apply N.div_lt; lia).
  assert (Z.of_N x = Z.of_N (x `div` 10) * 10 + Z.of_N (x `mod` 10)) as Hx10.
  { rewrite (N.div_mod x 10) at 1 by done.
    rewrite N2Z.inj_add, N2Z.inj_mul. apply Z.add_cancel_r, Z.mul_comm. }
  assert (x `mod` 10 < 10)%N as Hmod by (apply N.mod_lt; lia).
  pose proof (below_cutoff _ _ _ Hx Hx10) as Hcutoff.
  rewrite IH; [|done|].
  2:{ unfold strconv.maxUint64.
      change (2 ^ 64 - 1) with 18446744073709551615.
      revert Hcutoff. generalize (Z.of_N (x `div` 10)). lia. }
  destruct (pretty_N_char_digit _ Hmod) as [Hdigit Hvalue].
  simpl. rewrite Hdigit. cbv zeta. rewrite Hvalue.
  change ((strconv.maxUint64 `div` 10) + 1) with 1844674407370955162.
  assert ((1844674407370955162 <=? Z.of_N (x `div` 10)) = false) as ->
    by (by apply Z.leb_gt).
  rewrite <- Hx10.
  assert ((strconv.maxUint64 <? Z.of_N x) = false) as ->
    by (by apply Z.ltb_ge).
  done.
Qed.

(** The digits of a positive number start with a digit. *)
Lemma pretty_N_go_head (x : N) (s : string) :
  (0 < x)%N →
  ∃ c rest, pretty_N_go x s = String c rest ∧ strconv.isDigit c = true.
Proof.
  revert s. induction (N.lt_wf_0 x) as [x _ IH]; intros s Hx.
  rewrite pretty_N_go_step by done.
  destruct (decide (x `div` 10 = 0)%N) as [Hzero|Hpos].
  - rewrite Hzero, pretty_N_go_0. eexists _, _. split; [done|].
    by apply pretty_N_char_digit, N.mod_lt.
  - apply IH; [by apply N.div_lt | by apply N.neq_0_lt_0].
Qed.

Lemma isDigit_not_sign (c : ascii) :
  strconv.isDigit c = true →
  Ascii.eqb c "-"%char = false ∧ Ascii.eqb c "+"%char = false.
Proof.
  unfold strconv.isDigit. intros [Hlow _]%andb_true_iff.
  apply Z.leb_le in Hlow.
  split; apply Ascii.eqb_neq; intros ->; vm_compute in Hlow; done.
Qed.

Lemma ParseUint10_pretty_N_go (p : positive) :
  Z.pos p ≤ strconv.maxUint64 →
  strconv.ParseUint10 (pretty_N_go (N.pos p) "") = (Z.pos p, None).
Proof.
  intros Hp. destruct (pretty_N_go_head (N.pos p) "") as (c & rest & Heq & _);
    [lia|].
  unfold strconv.ParseUint10.
  assert (match pretty_N_go (N.pos p) "" with
          | EmptyString => (0, Some ErrSyntax)
          | String _ _ => strconv.parseUintFrom (pretty_N_go (N.pos p) "") 0
          end = strconv.parseUintFrom (pretty_N_go (N.pos p) "") 0) as ->
    by (by rewrite Heq).
  by rewrite parseUintFrom_pretty_N_go.
Qed.

(** [strconv.ParseInt] on digits without sign, and after a minus sign. *)
Lemma ParseInt_unsigned (c : ascii) (rest : string) :
  strconv.isDigit c = true →
  strconv.ParseInt (String c rest)
  = match strconv.ParseUint10 (String c rest) with
    | (_, Some ErrSyntax) =>
        (0, Some (NumError "ParseInt" (String c rest) ErrSyntax))
    | (un, _) =>
        if 2 ^ 63 <=? un
        then (2 ^ 63 - 1, Some (NumError "ParseInt" (String c rest) ErrRange))
        else (un, None)
    end.
Proof.
  intros Hdigit. unfold strconv.ParseInt.
  destruct (isDigit_not_sign c Hdigit) as [-> ->]. cbv zeta. simpl negb.
  destruct (strconv.ParseUint10 _) as [un [[|]|]]; try done;
    by destruct (2 ^ 63 <=? un).
Qed.

Lemma ParseInt_minus (rest : string) :
  strconv.ParseInt (String "-" rest)
  = match strconv.ParseUint10 rest with
    | (_, Some ErrSyntax) =>
        (0, Some (NumError "ParseInt" (String "-" rest) ErrSyntax))
    | (un, _) =>
        if 2 ^ 63 <? un
        then (- 2 ^ 63,
              Some (NumError "ParseInt" (String "-" rest) ErrRange))
        else (- un, None)
    end.
Proof. done. Qed.

(** [strconv.ParseInt] reads the decimal representation of a number of
    64 bits back. *)
Lemma ParseInt_pretty (z : Z) :
  - 2 ^ 63 ≤ z < 2 ^ 63 →
  strconv.ParseInt (pretty z) = (z, None).
Proof.
  intros Hz. destruct z as [|p|p].
  - by vm_compute.
  - change (pretty (Z.pos p)) with (pretty_N (N.pos p)).
    unfold pretty_N. rewrite decide_False by done.
    assert (strconv.ParseUint10 (pretty_N_go (N.pos p) "") = (Z.pos p, None))
      as Hparse.
    { apply ParseUint10_pretty_N_go. unfold strconv.maxUint64. lia. }
    destruct (pretty_N_go_head (N.pos p) "") as (c & rest & Heq & Hdigit);
      [done|].
    rewrite Heq in *. rewrite ParseInt_unsigned, Hparse by done.
    assert ((2 ^ 63 <=? Z.pos p) = false) as -> by (apply Z.leb_gt; lia).
    done.
  - change (pretty (Z.neg p)) with ("-" +:+ pretty_N (N.pos p)).
    unfold pretty_N. rewrite decide_False by done.
    change ("-" +:+ pretty_N_go (N.pos p) "")
      with (String "-" (pretty_N_go (N.pos p) "")).
    rewrite ParseInt_minus.
    rewrite ParseUint10_pretty_N_go by (unfold strconv.maxUint64; lia).
    assert ((2 ^ 63 <? Z.pos p) = false) as -> by (apply Z.ltb_ge; lia).
    done.
Qed.

End Decimal.

(** X23. A scope that names a user in decimal lets the requester view that
    user: when one of the scopes the requester holds for the action to view
    user permissions has three parts, the last one the decimal
    representation of a user id of 64 bits, negative or not, [canView]
    accepts that user id. *)
Theorem canView_decimal_scope `{Imports} (usr : Requester)
    (scopes : list string) (scope kind attribute : string) (userID : Z) :
  GetPermissions usr !! ActionUsersPermissionsRead = Some scopes →
  scope ∈ scopes →
  strings.Split scope ":" = [kind; attribute; pretty userID] →
  - 2 ^ 63 ≤ userID < 2 ^ 63 →
  canView usr userID = true.
Proof.
  intros Hscopes Hin Hsplit Hrange.
  rewrite (canView_action usr scopes Hscopes).
  destruct (decide (Exists (λ wild, strings.HasSuffix wild "*" = true) scopes))
    as [Hwild|Hnone].
  - apply canViewScopes_wildcard. by apply Exists_exists.
  - apply canViewScopes_scoped.
    + intros scope' Hscope'.
      destruct (strings.HasSuffix scope' "*") eqn:Hsuffix; [|done].
      destruct Hnone. apply Exists_exists. eauto.
    + intros id b. by rewrite lookup_empty.
    + right. exists scope. split; [done|].
      exists kind, attribute, (pretty userID). split; [done|].
      by apply ParseInt_pretty.
Qed.

Lemma canView_decimal_scope_witness :
  canView Reference.auditor 7 = true.
Proof.
  exact (canView_decimal_scope Reference.auditor ["users:id:7"] "users:id:7"
           "users" "id" 7 eq_refl ltac:(left) eq_refl ltac:(lia)).
Defined.

(** X24. The user id [getUserDirectPermissions] asks the store for.  For a
    user or a service account whose identifier is the decimal representation
    of a number of 64 bits it is that number; for a principal of any other
    namespace it is 0, whatever the identifier; in both cases the store is
    asked once, for the direct permissions of that id in the principal's
    organisation.  For a user or a service account whose identifier is no
    number the parse error is returned and the store is not asked. *)
Theorem getUserDirectPermissions_query `{Imports} (s : Service)
    (user : Requester) (w : World) :
  let namespace := (GetNamespacedID user).1 in
  let identifier := (GetNamespacedID user).2 in
  let asks userID :=
    getUserDirectPermissions s user w
    = (match Store.GetUserPermissions (store s) (directQuery user userID) with
       | (_, Some err) => ([], Some err)
       | (permissions, None) => (permissions ++ sharedWithMe s, None)
       end,
       withStoreCalls
         (λ calls, calls ++ [CallGetUserPermissions (directQuery user userID)])
         w) in
  (namespace ≠ NamespaceUser → namespace ≠ NamespaceServiceAccount → asks 0)
  ∧ (∀ userID,
       namespace = NamespaceUser ∨ namespace = NamespaceServiceAccount →
       identifier = pretty userID →
       - 2 ^ 63 ≤ userID < 2 ^ 63 →
       asks userID)
  ∧ (∀ err,
       namespace = NamespaceUser ∨ namespace = NamespaceServiceAccount →
       (strconv.ParseInt identifier).2 = Some err →
       getUserDirectPermissions s user w = (([], Some err), w)).
Proof.
  intros namespace identifier asks. subst namespace identifier asks.
  cbv beta. rewrite getUserDirectPermissions_eq. unfold directUserID.
  destruct (GetNamespacedID user) as [namespace identifier]. simpl.
  split_and!.
  - intros Huser Hservice.
    destruct (String.eqb_spec namespace NamespaceUser); [done|].
    by destruct (String.eqb_spec namespace NamespaceServiceAccount).
  - intros userID Hnamespace -> Hrange.
    assert (String.eqb namespace NamespaceUser
            || String.eqb namespace NamespaceServiceAccount = true) as ->.
    { destruct Hnamespace as [->| ->]; rewrite String.eqb_refl;
        [done | apply orb_true_r]. }
    by rewrite ParseInt_pretty.
  - intros err Hnamespace Hparse.
    assert (String.eqb namespace NamespaceUser
            || String.eqb namespace NamespaceServiceAccount = true) as ->.
    { destruct Hnamespace as [->| ->]; rewrite String.eqb_refl;
        [done | apply orb_true_r]. }
    destruct (strconv.ParseInt identifier) as [userID [e|]]; [|done].
    simpl in Hparse. by injection Hparse as ->.
Qed.

Section Reload.
Context `{Imports} (s : Service).

(** With [ReloadCache] the basic-role sub-query returns, when it succeeds,
    what was gathered before and the permissions each basic role holds in
    memory. *)
Lemma cachedBasicRolesFrom_reload (basicRoles : list string) (orgID : Z)
    (options : Options) (basicRolesPermissions permissions : list Permission)
    (w w' : World) :
  ReloadCache options = true →
  cachedBasicRolesFrom s basicRoles orgID options basicRolesPermissions w
  = ((permissions, None), w') →
  (∀ permission, permission ∈ basicRolesPermissions →
     permission ∈ permissions)
  ∧ ∀ role permission,
      role ∈ basicRoles → permission ∈ inMemory s role →
      permission ∈ permissions.
Proof.
  intros Hreload. revert basicRolesPermissions w.
  induction basicRoles as [|role rest IH]; intros acc w.
  { simpl. intros [= <- _]. split; [done|].
    intros role permission Hin. by apply elem_of_nil in Hin. }
  simpl. unfold mbind, M_bind, getCachedBasicRolePermissions.
  rewrite getCachedPermissions_run by (by left).
  rewrite getBasicRolePermissions_eq.
  destruct (Store.GetBasicRolesPermissions _ _) as [db [err|]]; [done|].
  simpl. intros [Hacc Hrest]%IH. split.
  - intros permission Hin. apply Hacc, elem_of_app. by left.
  - intros role' permission [->|Hin]%elem_of_cons Hmem.
    + apply Hacc. rewrite !elem_of_app. right. by left.
    + by apply (Hrest role').
Qed.

End Reload.

(** X25. A resolution with [ReloadCache] picks up the roles that were
    registered, on the cached path as on the uncached one: after
    [RegisterFixedRoles], a resolution with [ReloadCache] that succeeds, for
    a principal that holds a basic role of the service that a registration's
    grants name, returns every permission of that registration's role,
    whatever the cache holds. *)
Theorem registered_permissions_after_reload `{Imports} `{RegistryImports}
    (s : Service) (registration : RoleRegistration) (br : string)
    (user : Requester) (options : Options) (w w' : World)
    (permission : Permission) (permissions : list Permission) :
  ReloadCache options = true →
  registration ∈ registrations s →
  br ∈ BuiltInRolesWithParents (RoleRegistration.Grants registration) →
  is_Some (roles s !! br) →
  br ∈ GetOrgRoles user →
  permission ∈ RoleDTO.Permissions (RoleRegistration.Role registration) →
  GetUserPermissions (RegisterFixedRoles s).1.1 user options w
  = ((permissions, None), w') →
  permission ∈ permissions.
Proof.
  intros Hreload Hregistration Hgrant [basicRole Hrole] Hholds Hpermission.
  assert (permission ∈ inMemory (RegisterFixedRoles s).1.1 br) as Hmemory.
  { unfold inMemory. rewrite RegisterFixedRoles_roles, Hrole. simpl.
    apply elem_of_app. right. unfold contributions.
    apply elem_of_concat. exists (granted br registration).
    split; [|by apply list_elem_of_fmap_2].
    unfold granted. by rewrite decide_True. }
  unfold GetUserPermissions. destruct (negb _ || negb _).
  - rewrite getUserPermissions_eq. cbv zeta.
    destruct (UserIdentifier _ _) as [userID [err|]]; [done|].
    destruct (Store.GetUserPermissions _ _) as [dbPermissions [err|]];
      [done|].
    intros [= <- _]. rewrite appendBasicRoles_concat. simpl.
    apply elem_of_app. left. apply elem_of_app. left.
    apply elem_of_concat. exists (inMemory (RegisterFixedRoles s).1.1 br).
    split; [done | by apply list_elem_of_fmap_2].
  - unfold getCachedUserPermissions, getCachedBasicRolesPermissions,
      mbind, M_bind.
    destruct (cachedBasicRolesFrom _ _ _ _ _ _) as [[basic [err|]] w1]
      eqn:Hbasic; [done|].
    apply cachedBasicRolesFrom_reload in Hbasic as [_ Hbasic]; [|done].
    destruct (getCachedTeamsPermissions _ _ _ _) as [[teams [err|]] w2];
      [done|].
    destruct (getCachedUserDirectPermissions _ _ _ _)
      as [[direct [err|]] w3]; [done|].
    intros [= <- _]. simpl. rewrite !elem_of_app. left. left.
    by apply (Hbasic br).
Qed.

Lemma registered_permissions_after_reload_witness :
  ∃ permissions w',
    GetUserPermissions (RegisterFixedRoles Reference.registry).1.1
                       Reference.user44 Reference.reload Reference.warm44
    = ((permissions, None), w')
    ∧ {| Permission.Action := "reports:read"; Permission.Scope := "reports:*" |}
      ∈ permissions.
Proof.
  eexists _, _. split; [by vm_compute|].
  refine (registered_permissions_after_reload
            Reference.registry Registry.reports "Viewer" Reference.user44
            Reference.reload Reference.warm44 _ _ _ eq_refl _ _ _ _ _
            eq_refl).
  - right. left.
  - by vm_compute.
  - by eexists.
  - left.
  - left.
Defined.

(** ** The cache stays consistent with the store *)

Section Invariant.
Context `{Imports} (s : Service) (user : Requester) (userID : Z).
Variable options : Options.
Hypothesis coherent : StoreCoherent s user userID.
Hypothesis distinct : KeysDistinct user.
Hypothesis teams_distinct :
  ∀ teamID teamID',
    teamID ∈ GetTeams user → teamID' ∈ GetTeams user →
    GetTeamPermissionCacheKey teamID (GetOrgID user)
    = GetTeamPermissionCacheKey teamID' (GetOrgID user) →
    teamID = teamID'.

(** Storing the store's answer for some of the principal's teams keeps the
    cache consistent. *)
Lemma CacheConsistent_storeTeamEntries (miss : list Z)
    (c : gmap string CacheItem) :
  (∀ teamID, teamID ∈ miss → teamID ∈ GetTeams user) →
  CacheConsistent s user userID c →
  CacheConsistent s user userID
    (storeTeamEntries (GetOrgID user)
       (map_to_list (teamsAnswer s user miss).1) c).
Proof.
  intros Hmiss (Hbasic & Hteams & Hdirect).
  destruct coherent as (_ & Hstore & _).
  destruct (Hstore miss Hmiss) as [_ Hanswer].
  destruct distinct as (_ & Hk2 & _ & Hk4).
  assert (∀ teamID,
            teamID ∈ (map_to_list (teamsAnswer s user miss).1).*1 →
            teamID ∈ GetTeams user) as Hdom.
  { intros teamID [ps Hps]%elem_of_fst_map_to_list.
    rewrite Hanswer in Hps. case_decide; [by apply Hmiss | done]. }
  split_and!.
  - intros role item Hrole.
    rewrite storeTeamEntries_other; [by apply Hbasic|].
    intros teamID HteamID. by apply Hk2, Hdom.
  - intros teamID item HteamID.
    destruct ((teamsAnswer s user miss).1 !! teamID) as [ps|] eqn:Hps.
    + rewrite (storeTeamEntries_lookup _ _ _ teamID ps).
      * intros [= <-]. simpl. rewrite Hanswer in Hps.
        case_decide; [by rewrite Hps | done].
      * apply NoDup_fst_map_to_list.
      * by apply elem_of_map_to_list.
      * intros t Ht Hkey. by apply teams_distinct; [apply Hdom|..].
    + rewrite storeTeamEntries_other; [by apply Hteams|].
      intros t Ht Hkey.
      assert (teamID = t) as -> by (by apply teams_distinct; [|apply Hdom|]).
      apply elem_of_fst_map_to_list in Ht as [ps' Hps'].
      by rewrite Hps in Hps'.
  - intros item. rewrite storeTeamEntries_other; [apply Hdirect|].
    intros teamID HteamID Hkey. by apply (Hk4 teamID); [apply Hdom|].
Qed.

Lemma team_phase_consistent (w : World) :
  CacheConsistent s user userID (cache w) →
  CacheConsistent s user userID
    (cache (getCachedTeamsPermissions s user options w).2).
Proof.
  intros Hconsistent. rewrite getCachedTeamsPermissions_eq. cbv zeta.
  assert (∀ (miss : list Z) (w0 : World),
            (∀ teamID, teamID ∈ miss → teamID ∈ GetTeams user) →
            cache w0 = cache w →
            CacheConsistent s user userID
              (cache
                 (match miss with
                  | [] => (([] : list Permission, @None error), w0)
                  | _ :: _ =>
                      match Store.GetTeamsPermissions (store s)
                              (teamsQuery user miss) with
                      | (_, Some err) => (([], Some err), w0)
                      | (teamsPermissions, None) =>
                          (([], None),
                           withCache
                             (storeTeamEntries (GetOrgID user)
                                (map_to_list teamsPermissions)) w0)
                      end
                  end).2)) as Hcases.
  { intros miss w0 Hmiss Hcache.
    pose proof (CacheConsistent_storeTeamEntries miss (cache w) Hmiss
                  Hconsistent) as Hstored.
    unfold teamsAnswer in Hstored.
    destruct miss as [|teamID rest]; [simpl; by rewrite Hcache|].
    destruct (Store.GetTeamsPermissions _ _) as [tp [err|]]; simpl;
      by rewrite Hcache. }
  destruct (ReloadCache options).
  - specialize (Hcases (GetTeams user) w (λ _ Hin, Hin) eq_refl).
    unfold teamsQuery in Hcases.
    destruct (GetTeams user) as [|teamID rest]; [done|].
    by destruct (Store.GetTeamsPermissions _ _) as [tp [err|]].
  - specialize (Hcases (missTeams (cache w) (GetOrgID user) (GetTeams user))
                  (withPermissionsCacheUsage
                     (addHits (hitCount (cache w) (GetOrgID user)
                                        (GetTeams user))) w)).
    unfold teamsQuery in Hcases.
    destruct (missTeams _ _ _) as [|teamID rest] eqn:Hmiss.
    + apply Hcases; [|done]. intros teamID Hin. by apply elem_of_nil in Hin.
    + assert (∀ t, t ∈ teamID :: rest → t ∈ GetTeams user) as Hin.
      { intros t Ht. rewrite <- Hmiss in Ht.
        by apply elem_of_missTeams in Ht as [? _]. }
      specialize (Hcases Hin eq_refl).
      by destruct (Store.GetTeamsPermissions _ _) as [tp [err|]].
Qed.

Lemma direct_phase_consistent (w : World) :
  directUserID user = (userID, None) →
  CacheConsistent s user userID (cache w) →
  CacheConsistent s user userID
    (cache (getCachedUserDirectPermissions s user options w).2).
Proof.
  intros Huser Hconsistent. unfold getCachedUserDirectPermissions.
  destruct (decide (ReloadCache options = false
                    ∧ is_Some (cache w !! GetUserDirectPermissionCacheKey user)))
    as [[Hreload [item Hitem]]|Hmiss].
  - by rewrite (getCachedPermissions_hit _ _ _ _ item).
  - rewrite getCachedPermissions_run.
    2:{ destruct (ReloadCache options); [by left|]. right.
        destruct (cache w !! _) eqn:Hk; [|done]. exfalso. apply Hmiss. eauto. }
    rewrite getUserDirectPermissions_eq, Huser.
    destruct (Store.GetUserPermissions (store s) (directQuery user userID))
      as [permissions [err|]] eqn:Hanswer; [done|].
    simpl. destruct Hconsistent as (Hbasic & Hteams & Hdirect).
    destruct distinct as (_ & _ & Hk3 & Hk4).
    split_and!.
    + intros role item Hrole.
      rewrite lookup_insert_ne by (intros Hkey; by apply (Hk3 role)).
      by apply Hbasic.
    + intros teamID item HteamID.
      rewrite lookup_insert_ne by (intros Hkey; by apply (Hk4 teamID)).
      by apply Hteams.
    + intros item. rewrite lookup_insert_eq. intros [= <-]. simpl.
      unfold directAnswer. by rewrite Hanswer.
Qed.

(** A resolution on the cached path keeps the cache consistent. *)
Lemma getCachedUserPermissions_consistent (w : World) :
  directUserID user = (userID, None) →
  CacheConsistent s user userID (cache w) →
  CacheConsistent s user userID
    (cache (getCachedUserPermissions s user options w).2).
Proof.
  intros Huser Hconsistent.
  destruct (basic_phase s user userID options coherent distinct
              (GetOrgRoles user) [] w) as (w1 & Hbasic & Hc1);
    [done | done |].
  pose proof (team_phase_consistent w1 Hc1) as Hc2.
  unfold getCachedUserPermissions, getCachedBasicRolesPermissions,
    mbind, M_bind.
  rewrite Hbasic.
  destruct (getCachedTeamsPermissions s user options w1)
    as [[teams [err|]] w2]; [done|].
  simpl in Hc2.
  pose proof (direct_phase_consistent w2 Huser Hc2) as Hc3.
  by destruct (getCachedUserDirectPermissions s user options w2)
    as [[direct [err|]] w3].
Qed.

End Invariant.

(** The results of the resolutions [requests], run one after the other from
    the world [w]. *)
Fixpoint resolutions `{Imports} (s : Service) (user : Requester)
    (requests : list Options) (w : World)
    : list (Result (list Permission)) :=
  match requests with
  | [] => []
  | options :: rest =>
      let '(result, w1) := GetUserPermissions s user options w in
      result :: resolutions s user rest w1
  end.

(** X26. Resolutions keep the cache consistent with the store.  For a
    principal whose identifier resolves, whose cache keys tell its basic
    roles, its teams and its direct permissions apart, and for which the
    store is coherent: when each entry of the principal in the cache holds
    what a resolution computes for it, the same is true after
    [GetUserPermissions], with or without [ReloadCache]. *)
Theorem GetUserPermissions_keeps_cache_consistent `{Imports} (s : Service)
    (user : Requester) (userID : Z) (options : Options) (w : World) :
  directUserID user = (userID, None) →
  KeysDistinct user →
  (∀ teamID teamID',
     teamID ∈ GetTeams user → teamID' ∈ GetTeams user →
     GetTeamPermissionCacheKey teamID (GetOrgID user)
     = GetTeamPermissionCacheKey teamID' (GetOrgID user) →
     teamID = teamID') →
  StoreCoherent s user userID →
  CacheConsistent s user userID (cache w) →
  CacheConsistent s user userID (cache (GetUserPermissions s user options w).2).
Proof.
  intros Huser Hkeys Hteams Hstore Hconsistent. unfold GetUserPermissions.
  destruct (negb _ || negb _).
  - rewrite getUserPermissions_eq. cbv zeta.
    by destruct (UserIdentifier _ _) as [id [err|]].
  - by apply getCachedUserPermissions_consistent.
Qed.

Lemma GetUserPermissions_keeps_cache_consistent_witness :
  CacheConsistent (Reference.service true) Reference.user44 44
    (cache (GetUserPermissions (Reference.service true) Reference.user44
                               Reference.reload Reference.warm44).2).
Proof.
  refine (GetUserPermissions_keeps_cache_consistent
            (Reference.service true) Reference.user44 44 Reference.reload
            Reference.warm44 eq_refl _ _ _ _).
  - split_and!.
    + by intros role role' ->%list_elem_of_singleton ->%list_elem_of_singleton.
    + intros role teamID ->%list_elem_of_singleton
        [->| ->%list_elem_of_singleton]%elem_of_cons; by vm_compute.
    + intros role ->%list_elem_of_singleton. by vm_compute.
    + intros teamID [->| ->%list_elem_of_singleton]%elem_of_cons;
        by vm_compute.
  - intros teamID teamID' _ _. apply Reference_team_key_inj.
  - by apply (tableStore_coherent Reference.tables).
  - split_and!.
    + intros role item ->%list_elem_of_singleton Hitem.
      vm_compute in Hitem. by injection Hitem as <-.
    + intros teamID item [->| ->%list_elem_of_singleton]%elem_of_cons Hitem;
        vm_compute in Hitem; by injection Hitem as <-.
    + intros item Hitem. vm_compute in Hitem. by injection Hitem as <-.
Defined.

(** X27. In a sequence of resolutions every one agrees with the uncached
    path.  For a principal with a unique id, with the cache enabled, under
    the conditions of X26 and with its teams listed once: from a cache that
    is empty or consistent with the store, each of the resolutions of a
    sequence, with or without [ReloadCache], succeeds and returns the
    permissions of the uncached path, as a multiset. *)
Theorem every_resolution_agrees_with_uncached `{Imports} (s : Service)
    (user : Requester) (userID : Z) (requests : list Options)
    (w w' : World) (options' : Options) :
  cfg_RBACPermissionCache s = true →
  HasUniqueId user = true →
  UserIdentifier (GetNamespacedID user).1 (GetNamespacedID user).2
  = (userID, None) →
  directUserID user = (userID, None) →
  NoDup (GetTeams user) →
  KeysDistinct user →
  (∀ teamID teamID',
     teamID ∈ GetTeams user → teamID' ∈ GetTeams user →
     GetTeamPermissionCacheKey teamID (GetOrgID user)
     = GetTeamPermissionCacheKey teamID' (GetOrgID user) →
     teamID = teamID') →
  StoreCoherent s user userID →
  cache w = ∅ ∨ CacheConsistent s user userID (cache w) →
  ∃ uncached,
    (getUserPermissions s user options' w').1 = (uncached, None)
    ∧ Forall (λ result, ∃ cached, result = (cached, None) ∧ cached ≡ₚ uncached)
             (resolutions s user requests w).
Proof.
  intros Hcfg Hid Hident Hdirect Hnodup Hkeys Hteams Hstore Hcache.
  assert (CacheConsistent s user userID (cache w)) as Hconsistent.
  { destruct Hcache as [-> | ?]; [apply CacheConsistent_empty | done]. }
  clear Hcache.
  destruct (cached_uncached_Permutation s user userID options' Hstore Hkeys
              w w' Hident Hdirect Hnodup Hconsistent)
    as (_ & uncached & _ & Huncached & _).
  exists uncached. split; [done|].
  revert w Hconsistent. induction requests as [|options rest IH];
    intros w Hconsistent; [constructor|].
  simpl.
  pose proof (getCachedUserPermissions_consistent s user userID options
                Hstore Hkeys Hteams w Hdirect Hconsistent) as Hnext.
  destruct (cached_uncached_Permutation s user userID options Hstore Hkeys
              w w' Hident Hdirect Hnodup Hconsistent)
    as (cached & uncached' & Hcached & Huncached' & Hperm).
  assert (uncached' = uncached) as ->.
  { rewrite getUserPermissions_eq in Huncached, Huncached'. congruence. }
  unfold GetUserPermissions. rewrite Hcfg, Hid. simpl.
  destruct (getCachedUserPermissions s user options w) as [result w1].
  simpl in *. constructor; [by exists cached | by apply IH].
Qed.

Lemma every_resolution_agrees_with_uncached_witness :
  ∃ uncached,
    (getUserPermissions (Reference.service true) Reference.user44
                        Reference.noReload Reference.emptyWorld).1
    = (uncached, None)
    ∧ Forall (λ result, ∃ cached, result = (cached, None) ∧ cached ≡ₚ uncached)
             (resolutions (Reference.service true) Reference.user44
                          [Reference.noReload; Reference.reload;
                           Reference.noReload]
                          Reference.emptyWorld).
Proof.
  refine (every_resolution_agrees_with_uncached
            (Reference.service true) Reference.user44 44
            [Reference.noReload; Reference.reload; Reference.noReload]
            Reference.emptyWorld Reference.emptyWorld Reference.noReload
            eq_refl eq_refl eq_refl eq_refl _ _ _ _ _).
  - compute_done.
  - split_and!.
    + by intros role role' ->%list_elem_of_singleton ->%list_elem_of_singleton.
    + intros role teamID ->%list_elem_of_singleton
        [->| ->%list_elem_of_singleton]%elem_of_cons; by vm_compute.
    + intros role ->%list_elem_of_singleton. by vm_compute.
    + intros teamID [->| ->%list_elem_of_singleton]%elem_of_cons;
        by vm_compute.
  - intros teamID teamID' _ _. apply Reference_team_key_inj.
  - by apply (tableStore_coherent Reference.tables).
  - by left.
Defined.

(** ** The errors of the bulk search *)

(** X28. The bulk search asks the store for the basic roles of the users,
    then for the permissions that match; an error of the first call is
    returned as it is, with the nil map, and the second call is not made; an
    error of the second call is returned as it is, with the nil map.  The
    bulk search neither reads nor writes the cache. *)
Theorem SearchUsersPermissions_bulk_errors `{Imports} (s : Service)
    (usr : Requester) (options : SearchOptions) (w : World) :
  SearchOptions.NamespacedID options = "" →
  let options' := withRolePrefixes options OSSRolesPrefixes in
  let orgID := GetOrgID usr in
  let roleCall := CallGetUsersBasicRoles [] orgID in
  let searchCall := CallSearchUsersPermissions orgID options' in
  let run := SearchUsersPermissions s usr options w in
  cache run.2 = cache w
  ∧ (∀ err,
       (Store.GetUsersBasicRoles (store s) [] orgID).2 = Some err →
       run.1 = (∅, Some err)
       ∧ storeCalls run.2 = storeCalls w ++ [roleCall])
  ∧ ((Store.GetUsersBasicRoles (store s) [] orgID).2 = None →
     storeCalls run.2 = storeCalls w ++ [roleCall; searchCall]
     ∧ run.1.2 = (Store.SearchUsersPermissions (store s) orgID options').2
     ∧ (is_Some run.1.2 → run.1.1 = ∅)).
Proof.
  intros Hbulk options' orgID roleCall searchCall run.
  subst run roleCall searchCall orgID.
  rewrite SearchUsersPermissions_bulk by done. cbv zeta. fold options'.
  destruct (Store.GetUsersBasicRoles _ _ _) as [usersRoles [err|]]; simpl.
  { split_and!; [done| |done]. by intros ? [= <-]. }
  destruct (Store.SearchUsersPermissions _ _ _) as [usersPermissions [err|]];
    simpl.
  - split_and!; try done. intros _. split_and!; try done.
    by rewrite <- app_assoc.
  - split_and!; try done. intros _. split_and!; try done.
    by rewrite <- app_assoc.
Qed.

Lemma SearchUsersPermissions_bulk_errors_witness :
  (SearchUsersPermissions (Scenario.serviceOver Scenario.noRolesStore)
                          Reference.auditor Reference.searchAll
                          Reference.emptyWorld).1
  = (∅, Some Reference.unavailable)
  ∧ storeCalls
      (SearchUsersPermissions (Scenario.serviceOver Scenario.noRolesStore)
                              Reference.auditor Reference.searchAll
                              Reference.emptyWorld).2
    = [CallGetUsersBasicRoles [] 1].
Proof.
  exact (proj1 (proj2 (SearchUsersPermissions_bulk_errors
                         (Scenario.serviceOver Scenario.noRolesStore)
                         Reference.auditor Reference.searchAll
                         Reference.emptyWorld eq_refl))
               Reference.unavailable eq_refl).
Defined.

(** ** What a resolution leaves in the cache *)

Section Presence.
Context `{Imports} (s : Service).

(** [getCachedPermissions] removes no entry, and leaves an entry under its
    key when it succeeds. *)
Lemma getCachedPermissions_grows (key : string)
    (getPermissionsFn : GetPermissionsFn) (options : Options) (w : World) :
  (∀ w0, cache (getPermissionsFn w0).2 = cache w0) →
  let run := getCachedPermissions key getPermissionsFn options w in
  (∀ other, is_Some (cache w !! other) → is_Some (cache run.2 !! other))
  ∧ (run.1.2 = None → is_Some (cache run.2 !! key)).
Proof.
  intros Hfn run. subst run.
  destruct (decide (ReloadCache options = false
                    ∧ is_Some (cache w !! key)))
    as [[Hreload [item Hitem]]|Hmiss].
  - rewrite (getCachedPermissions_hit _ _ _ _ item) by done. simpl.
    split; [done|]. intros _. by rewrite Hitem.
  - rewrite getCachedPermissions_run.
    2:{ destruct (ReloadCache options); [by left|]. right.
        destruct (cache w !! _) eqn:Hk; [|done]. exfalso. apply Hmiss. eauto. }
    specialize (Hfn (withPermissionsCacheUsage incMiss w)).
    destruct (getPermissionsFn _) as [[ps [e|]] w0]; simpl in *; rewrite Hfn.
    + by split.
    + split.
      * intros other Hother. rewrite lookup_insert. by case_decide.
      * intros _. by rewrite lookup_insert_eq.
Qed.

Lemma cachedBasicRolesFrom_grows (basicRoles : list string) (orgID : Z)
    (options : Options) (basicRolesPermissions : list Permission)
    (w : World) :
  let run :=
    cachedBasicRolesFrom s basicRoles orgID options basicRolesPermissions w in
  (∀ other, is_Some (cache w !! other) → is_Some (cache run.2 !! other))
  ∧ (run.1.2 = None →
     ∀ role, role ∈ basicRoles →
       is_Some (cache run.2 !! GetBasicRolePermissionCacheKey role orgID)).
Proof.
  revert basicRolesPermissions w.
  induction basicRoles as [|role rest IH]; intros acc w; simpl.
  { split; [done|]. intros _ role Hin. by apply elem_of_nil in Hin. }
  unfold mbind, M_bind.
  destruct (getCachedPermissions_grows
              (GetBasicRolePermissionCacheKey role orgID)
              (getBasicRolePermissions s role orgID) options w)
    as [Hkeep Hkey].
  { intros w0. by rewrite getBasicRolePermissions_eq. }
  fold (getCachedBasicRolePermissions s role orgID options) in Hkeep, Hkey.
  destruct (getCachedBasicRolePermissions s role orgID options w)
    as [[ps [e|]] w1]; simpl in *; [by split|].
  destruct (IH (acc ++ ps) w1) as [Hkeep' Hkeys]. split.
  - intros other Hother. by apply Hkeep', Hkeep.
  - intros Hok role' [->|Hin]%elem_of_cons.
    + by apply Hkeep', Hkey.
    + by apply Hkeys.
Qed.

Lemma storeTeamEntries_grows (orgID : Z) (l : list (Z * list Permission))
    (c : gmap string CacheItem) (other : string) :
  is_Some (c !! other) → is_Some (storeTeamEntries orgID l c !! other).
Proof.
  revert c. induction l as [|[teamID ps] l IH]; intros c Hother; [done|].
  unfold storeTeamEntries. simpl. apply IH.
  rewrite lookup_insert. by case_decide.
Qed.

Lemma getCachedTeamsPermissions_grows (user : Requester) (options : Options)
    (w : World) (other : string) :
  is_Some (cache w !! other) →
  is_Some (cache (getCachedTeamsPermissions s user options w).2 !! other).
Proof.
  intros Hother. rewrite getCachedTeamsPermissions_eq. cbv zeta.
  destruct (ReloadCache options).
  - destruct (GetTeams user) as [|teamID rest]; [done|].
    destruct (Store.GetTeamsPermissions _ _) as [tp [err|]]; [done|].
    simpl. by apply storeTeamEntries_grows.
  - destruct (missTeams _ _ _) as [|teamID rest]; [done|].
    destruct (Store.GetTeamsPermissions _ _) as [tp [err|]]; [done|].
    simpl. by apply storeTeamEntries_grows.
Qed.

(** A cached resolution removes no entry; when it succeeds, the entries of
    the principal's basic roles and of its direct permissions are in the
    cache. *)
Lemma getCachedUserPermissions_grows (user : Requester) (options : Options)
    (w : World) :
  let run := getCachedUserPermissions s user options w in
  (∀ other, is_Some (cache w !! other) → is_Some (cache run.2 !! other))
  ∧ (run.1.2 = None →
     (∀ role, role ∈ GetOrgRoles user →
        is_Some (cache run.2
                   !! GetBasicRolePermissionCacheKey role (GetOrgID user)))
     ∧ is_Some (cache run.2 !! GetUserDirectPermissionCacheKey user)).
Proof.
  unfold getCachedUserPermissions, getCachedBasicRolesPermissions,
    getCachedUserDirectPermissions, mbind, M_bind.
  destruct (cachedBasicRolesFrom_grows (GetOrgRoles user) (GetOrgID user)
              options [] w) as [Hkeep1 Hroles].
  destruct (cachedBasicRolesFrom _ _ _ _ _ _) as [[bs [e|]] w1];
    simpl in *; [by split|].
  pose proof (getCachedTeamsPermissions_grows user options w1) as Hkeep2.
  destruct (getCachedTeamsPermissions _ _ _ _) as [[ts [e|]] w2]; simpl in *.
  { split; [|done]. intros other Hother. by apply Hkeep2, Hkeep1. }
  destruct (getCachedPermissions_grows (GetUserDirectPermissionCacheKey user)
              (getUserDirectPermissions s user) options w2)
    as [Hkeep3 Hdirect].
  { intros w0. rewrite getUserDirectPermissions_eq.
    by destruct (directUserID user) as [userID [e|]]. }
  destruct (getCachedPermissions _ _ _ _) as [[us [e|]] w3]; simpl in *.
  { split; [|done]. intros other Hother. by apply Hkeep3, Hkeep2, Hkeep1. }
  split.
  - intros other Hother. by apply Hkeep3, Hkeep2, Hkeep1.
  - intros _. split; [|by apply Hdirect].
    intros role Hrole. by apply Hkeep3, Hkeep2, Hroles.
Qed.

End Presence.

(** X29. [GetUserPermissions] removes no entry from the cache: a key that
    has an entry before a resolution has one after it, whether the
    resolution succeeds or fails, with or without [ReloadCache]. *)
Theorem GetUserPermissions_never_evicts `{Imports} (s : Service)
    (user : Requester) (options : Options) (w : World) (key : string) :
  is_Some (cache w !! key) →
  is_Some (cache (GetUserPermissions s user options w).2 !! key).
Proof.
  intros Hkey. unfold GetUserPermissions. destruct (negb _ || negb _).
  - rewrite getUserPermissions_eq. cbv zeta.
    by destruct (UserIdentifier _ _) as [userID [err|]].
  - by apply getCachedUserPermissions_grows.
Qed.

Lemma GetUserPermissions_never_evicts_witness :
  is_Some (cache (GetUserPermissions (Reference.service true) Reference.user43
                                     Reference.reload Scenario.staleTeam10).2
             !! GetTeamPermissionCacheKey 10 1).
Proof.
  apply (GetUserPermissions_never_evicts (Reference.service true)
           Reference.user43 Reference.reload Scenario.staleTeam10).
  by eexists.
Defined.

(** X30. After a resolution on the cached path that succeeded, the next
    one without [ReloadCache] asks the store at most once: the basic roles
    and the direct permissions are read from the cache, and the store is
    asked only for the teams that have no entry, all in one call, and not at
    all when every team has one. *)
Theorem GetUserPermissions_second_resolution `{Imports} (s : Service)
    (user : Requester) (first second : Options) (w w1 : World)
    (permissions : list Permission) :
  cfg_RBACPermissionCache s = true →
  HasUniqueId user = true →
  GetUserPermissions s user first w = ((permissions, None), w1) →
  ReloadCache second = false →
  let miss :=
    List.filter
      (λ teamID,
         bool_decide
           (cache w1 !! GetTeamPermissionCacheKey teamID (GetOrgID user)
            = None))
      (GetTeams user) in
  let query :=
    {| GetUserPermissionsQuery.TeamIDs := miss;
       GetUserPermissionsQuery.OrgID := GetOrgID user;
       GetUserPermissionsQuery.RolePrefixes := OSSRolesPrefixes;
       GetUserPermissionsQuery.UserID := 0;
       GetUserPermissionsQuery.Roles := [] |} in
  storeCalls (GetUserPermissions s user second w1).2
  = storeCalls w1
    ++ match miss with
       | [] => []
       | _ :: _ => [CallGetTeamsPermissions query]
       end.
Proof.
  intros Hcfg Hid Hfirst Hreload miss query.
  unfold GetUserPermissions in *. rewrite Hcfg, Hid in *. simpl in *.
  destruct (getCachedUserPermissions_grows s user first w) as [_ Hpresent].
  rewrite Hfirst in Hpresent. simpl in Hpresent.
  destruct (Hpresent eq_refl) as [Hroles Hdirect]. clear Hpresent.
  unfold getCachedUserPermissions, getCachedBasicRolesPermissions,
    getCachedUserDirectPermissions, mbind, M_bind.
  rewrite cachedBasicRolesFrom_warm by done.
  pose proof (getCachedTeamsPermissions_grows s user second
                (withPermissionsCacheUsage
                   (addHits (length (GetOrgRoles user))) w1)
                (GetUserDirectPermissionCacheKey user) Hdirect) as Hdirect2.
  rewrite getCachedTeamsPermissions_eq in *. cbv zeta in *.
  rewrite Hreload in *. simpl in *.
  fold (missTeams (cache w1) (GetOrgID user) (GetTeams user)) in miss.
  subst query miss.
  destruct (missTeams (cache w1) (GetOrgID user) (GetTeams user))
    as [|teamID rest].
  - destruct Hdirect2 as [item Hitem]. simpl in Hitem.
    rewrite (getCachedPermissions_hit _ _ _ _ item) by done.
    simpl. by rewrite app_nil_r.
  - destruct (Store.GetTeamsPermissions _ _) as [tp [err|]]; [done|].
    destruct Hdirect2 as [item Hitem]. simpl in Hitem.
    by rewrite (getCachedPermissions_hit _ _ _ _ item) by done.
Qed.

Lemma GetUserPermissions_second_resolution_witness :
  storeCalls (GetUserPermissions (Reference.service true) Reference.user43
                                 Reference.noReload Scenario.resolved43).2
  = storeCalls Scenario.resolved43
    ++ [CallGetTeamsPermissions
          {| GetUserPermissionsQuery.TeamIDs := [10];
             GetUserPermissionsQuery.OrgID := 1;
             GetUserPermissionsQuery.RolePrefixes := OSSRolesPrefixes;
             GetUserPermissionsQuery.UserID := 0;
             GetUserPermissionsQuery.Roles := [] |}].
Proof.
  exact (GetUserPermissions_second_resolution
           (Reference.service true) Reference.user43 Reference.reload
           Reference.noReload Reference.emptyWorld Scenario.resolved43
           [Reference.dashboardsRead; Reference.teamsRead;
            Reference.foldersWrite]
           eq_refl eq_refl eq_refl eq_refl).
Defined.

(** ** A team the store holds nothing for, in whole resolutions *)

(** The worlds a sequence of resolutions goes through. *)
Definition afterResolutions `{Imports} (s : Service)
    (requests : list (Requester * Options)) (w : World) : World :=
  foldl (λ w request, (GetUserPermissions s request.1 request.2 w).2)
        w requests.

Lemma teamCallsFor_other (teamID : Z) (calls : list StoreCall)
    (call : StoreCall) :
  isTeamCallFor teamID call = false →
  teamCallsFor teamID (calls ++ [call]) = teamCallsFor teamID calls.
Proof.
  intros Hcall. unfold teamCallsFor.
  rewrite List.filter_app, length_app. simpl. rewrite Hcall. simpl. lia.
Qed.

Section AbsentTeamResolution.
Context `{Imports} (s : Service) (orgID teamID : Z).

Hypothesis store_has_no_entry :
  ∀ query, (Store.GetTeamsPermissions (store s) query).1 !! teamID = None.
Hypothesis key_not_shared :
  ∀ t, GetTeamPermissionCacheKey t orgID
       = GetTeamPermissionCacheKey teamID orgID → t = teamID.

(** The basic-role sub-query succeeds when the store answers for each of
    the roles, and asks the store for no team. *)
Lemma basic_phase_asks_no_team (basicRoles : list string) (options : Options)
    (basicRolesPermissions : list Permission) (w : World) :
  (∀ role, role ∈ basicRoles →
     (Store.GetBasicRolesPermissions (store s) (basicRoleQuery role orgID)).2
     = None) →
  ∃ permissions w1,
    cachedBasicRolesFrom s basicRoles orgID options basicRolesPermissions w
    = ((permissions, None), w1)
    ∧ teamCallsFor teamID (storeCalls w1) = teamCallsFor teamID (storeCalls w).
Proof.
  revert basicRolesPermissions w.
  induction basicRoles as [|role rest IH]; intros acc w Hstore.
  { by exists acc, w. }
  assert (∃ permissions w0,
            getCachedBasicRolePermissions s role orgID options w
            = ((permissions, None), w0)
            ∧ teamCallsFor teamID (storeCalls w0)
              = teamCallsFor teamID (storeCalls w))
    as (permissions & w0 & Hstep & Hcalls).
  { unfold getCachedBasicRolePermissions.
    destruct (decide (ReloadCache options = false
                      ∧ is_Some (cache w !! GetBasicRolePermissionCacheKey
                                             role orgID)))
      as [[Hreload [item Hitem]]|Hmiss].
    - rewrite (getCachedPermissions_hit _ _ _ _ item) by done.
      by eexists _, _.
    - rewrite getCachedPermissions_run.
      2:{ destruct (ReloadCache options); [by left|]. right.
          destruct (cache w !! _) eqn:Hk; [|done].
          exfalso. apply Hmiss. eauto. }
      rewrite getBasicRolePermissions_eq.
      rewrite (Hstore role) by (by left).
      eexists _, _. split; [done|]. simpl. by apply teamCallsFor_other. }
  destruct (IH (acc ++ permissions) w0) as (ps & w1 & Hrest & Hcalls1).
  { intros r Hr. apply Hstore. by right. }
  exists ps, w1. split; [|congruence].
  simpl. unfold mbind, M_bind. by rewrite Hstep.
Qed.

(** The direct sub-query asks the store for no team. *)
Lemma direct_phase_asks_no_team (user : Requester) (options : Options)
    (w : World) :
  teamCallsFor teamID
    (storeCalls (getCachedUserDirectPermissions s user options w).2)
  = teamCallsFor teamID (storeCalls w).
Proof.
  unfold getCachedUserDirectPermissions.
  destruct (decide (ReloadCache options = false
                    ∧ is_Some (cache w !! GetUserDirectPermissionCacheKey user)))
    as [[Hreload [item Hitem]]|Hmiss].
  - by rewrite (getCachedPermissions_hit _ _ _ _ item).
  - rewrite getCachedPermissions_run.
    2:{ destruct (ReloadCache options); [by left|]. right.
        destruct (cache w !! _) eqn:Hk; [|done]. exfalso. apply Hmiss. eauto. }
    rewrite getUserDirectPermissions_eq.
    destruct (directUserID user) as [userID [err|]]; [done|].
    destruct (Store.GetUserPermissions _ _) as [permissions [err|]]; simpl;
      by apply teamCallsFor_other.
Qed.

(** One resolution on the cached path, for a principal of the team. *)
Lemma absent_team_resolution (user : Requester) (options : Options)
    (w : World) :
  cfg_RBACPermissionCache s = true →
  HasUniqueId user = true →
  GetOrgID user = orgID →
  teamID ∈ GetTeams user →
  (∀ role, role ∈ GetOrgRoles user →
     (Store.GetBasicRolesPermissions (store s) (basicRoleQuery role orgID)).2
     = None
     ∧ GetBasicRolePermissionCacheKey role orgID
       ≠ GetTeamPermissionCacheKey teamID orgID) →
  GetUserDirectPermissionCacheKey user
  ≠ GetTeamPermissionCacheKey teamID orgID →
  cache w !! GetTeamPermissionCacheKey teamID orgID = None →
  cache (GetUserPermissions s user options w).2
    !! GetTeamPermissionCacheKey teamID orgID = None
  ∧ teamCallsFor teamID (storeCalls (GetUserPermissions s user options w).2)
    = S (teamCallsFor teamID (storeCalls w)).
Proof.
  intros Hcfg Hid Horg Hteam Hroles Hdirect Habsent.
  unfold GetUserPermissions. rewrite Hcfg, Hid. simpl.
  unfold getCachedUserPermissions, getCachedBasicRolesPermissions,
    mbind, M_bind. rewrite Horg.
  destruct (basic_phase_asks_no_team (GetOrgRoles user) options [] w)
    as (basic & w1 & Hbasic & Hcalls1).
  { intros role Hrole. by apply Hroles. }
  pose proof (cachedBasicRolesFrom_other s (GetOrgRoles user) orgID options
                [] w (GetTeamPermissionCacheKey teamID orgID)) as Hcache1.
  rewrite Hbasic in *. simpl in Hcache1.
  rewrite <- Hcache1 in Habsent.
  2:{ intros role Hrole Hkey. symmetry in Hkey. by apply (Hroles role). }
  destruct (absent_team_step s orgID teamID store_has_no_entry key_not_shared
              user options w1 Horg Hteam Habsent) as [Habsent2 Hcalls2].
  destruct (getCachedTeamsPermissions s user options w1)
    as [[teams [err|]] w2]; simpl in *.
  { split; [done | congruence]. }
  pose proof (direct_phase_asks_no_team user options w2) as Hcalls3.
  pose proof (getCachedPermissions_other
                (GetUserDirectPermissionCacheKey user)
                (getUserDirectPermissions s user) options w2
                (GetTeamPermissionCacheKey teamID orgID)) as Hcache3.
  fold (getCachedUserDirectPermissions s user options) in Hcache3.
  destruct (getCachedUserDirectPermissions s user options w2)
    as [[direct [err|]] w3]; simpl in *.
  - split; [|congruence]. rewrite Hcache3; [done | by intros Hkey |].
    intros w0. rewrite getUserDirectPermissions_eq.
    by destruct (directUserID user) as [userID [e|]].
  - split; [|congruence]. rewrite Hcache3; [done | by intros Hkey |].
    intros w0. rewrite getUserDirectPermissions_eq.
    by destruct (directUserID user) as [userID [e|]].
Qed.

Lemma absent_team_resolutions (requests : list (Requester * Options))
    (w : World) :
  cfg_RBACPermissionCache s = true →
  (∀ request, request ∈ requests →
     HasUniqueId request.1 = true
     ∧ GetOrgID request.1 = orgID
     ∧ teamID ∈ GetTeams request.1
     ∧ (∀ role, role ∈ GetOrgRoles request.1 →
          (Store.GetBasicRolesPermissions (store s)
             (basicRoleQuery role orgID)).2 = None
          ∧ GetBasicRolePermissionCacheKey role orgID
            ≠ GetTeamPermissionCacheKey teamID orgID)
     ∧ GetUserDirectPermissionCacheKey request.1
       ≠ GetTeamPermissionCacheKey teamID orgID) →
  cache w !! GetTeamPermissionCacheKey teamID orgID = None →
  cache (afterResolutions s requests w)
    !! GetTeamPermissionCacheKey teamID orgID = None
  ∧ teamCallsFor teamID (storeCalls (afterResolutions s requests w))
    = (teamCallsFor teamID (storeCalls w) + length requests)%nat.
Proof.
  intros Hcfg. revert w.
  induction requests as [|[user options] requests IH];
    intros w Hrequests Habsent.
  - simpl. split; [done | lia].
  - destruct (Hrequests (user, options))
      as (Hid & Horg & Hteam & Hroles & Hdirect); [by left|].
    destruct (absent_team_resolution user options w Hcfg Hid Horg Hteam
                Hroles Hdirect Habsent) as [Habsent' Hcalls].
    unfold afterResolutions in *. simpl.
    destruct (IH (GetUserPermissions s user options w).2) as [IH1 IH2];
      [intros request Hin; apply Hrequests; by right | done |].
    split; [done|]. rewrite IH2, Hcalls. lia.
Qed.

End AbsentTeamResolution.

(** C10. The team sub-query writes an entry only under the keys of the
    teams of the store's answer: every other key keeps its entry.  Hence for
    a team the store never answers for, whose key no other team shares, the
    entry stays absent: each of any number of later team sub-queries for
    principals of that team calls the store again for it.  So does each of
    any number of later resolutions on the cached path, with or without
    [ReloadCache], for principals of that team for whose basic roles the
    store answers, so that the resolution reaches the team sub-query, and
    whose basic-role and direct-permission keys are not the key of the
    team. *)
Theorem absent_team_is_never_cached `{Imports} (s : Service)
    (orgID teamID : Z) :
  (∀ query, (Store.GetTeamsPermissions (store s) query).1 !! teamID = None) →
  (∀ t, GetTeamPermissionCacheKey t orgID
        = GetTeamPermissionCacheKey teamID orgID → t = teamID) →
  (∀ (user : Requester) (options : Options) (w : World) (key : string),
     let miss :=
       if ReloadCache options then GetTeams user
       else List.filter
              (λ t, bool_decide
                      (cache w !! GetTeamPermissionCacheKey t (GetOrgID user)
                       = None))
              (GetTeams user) in
     let query :=
       {| GetUserPermissionsQuery.TeamIDs := miss;
          GetUserPermissionsQuery.OrgID := GetOrgID user;
          GetUserPermissionsQuery.RolePrefixes := OSSRolesPrefixes;
          GetUserPermissionsQuery.UserID := 0;
          GetUserPermissionsQuery.Roles := [] |} in
     (∀ t, is_Some ((Store.GetTeamsPermissions (store s) query).1 !! t) →
           key ≠ GetTeamPermissionCacheKey t (GetOrgID user)) →
     cache (getCachedTeamsPermissions s user options w).2 !! key
     = cache w !! key)
  ∧ (∀ (requests : list (Requester * Options)) (w : World),
       (∀ request, request ∈ requests →
          GetOrgID request.1 = orgID ∧ teamID ∈ GetTeams request.1) →
       cache w !! GetTeamPermissionCacheKey teamID orgID = None →
       cache (afterTeamQueries s requests w)
         !! GetTeamPermissionCacheKey teamID orgID = None
       ∧ teamCallsFor teamID (storeCalls (afterTeamQueries s requests w))
         = (teamCallsFor teamID (storeCalls w) + length requests)%nat)
  ∧ (∀ (requests : list (Requester * Options)) (w : World),
       cfg_RBACPermissionCache s = true →
       (∀ request, request ∈ requests →
          HasUniqueId request.1 = true
          ∧ GetOrgID request.1 = orgID
          ∧ teamID ∈ GetTeams request.1
          ∧ (∀ role, role ∈ GetOrgRoles request.1 →
               (Store.GetBasicRolesPermissions (store s)
                  {| GetUserPermissionsQuery.Roles := [role];
                     GetUserPermissionsQuery.OrgID := orgID;
                     GetUserPermissionsQuery.RolePrefixes := OSSRolesPrefixes;
                     GetUserPermissionsQuery.UserID := 0;
                     GetUserPermissionsQuery.TeamIDs := [] |}).2 = None
               ∧ GetBasicRolePermissionCacheKey role orgID
                 ≠ GetTeamPermissionCacheKey teamID orgID)
          ∧ GetUserDirectPermissionCacheKey request.1
            ≠ GetTeamPermissionCacheKey teamID orgID) →
       cache w !! GetTeamPermissionCacheKey teamID orgID = None →
       cache (afterResolutions s requests w)
         !! GetTeamPermissionCacheKey teamID orgID = None
       ∧ teamCallsFor teamID (storeCalls (afterResolutions s requests w))
         = (teamCallsFor teamID (storeCalls w) + length requests)%nat).
Proof.
  intros Hstore Hkeys. split_and!.
  - intros user options w key miss query Hkey.
    rewrite getCachedTeamsPermissions_eq. cbv zeta.
    change (if ReloadCache options then GetTeams user
            else missTeams (cache w) (GetOrgID user) (GetTeams user))
      with miss.
    fold query.
    destruct miss as [|t miss']; [by destruct (ReloadCache options)|].
    destruct (Store.GetTeamsPermissions (store s) query)
      as [teamsPermissions [err|]]; simpl in *.
    + by destruct (ReloadCache options).
    + rewrite storeTeamEntries_other; [by destruct (ReloadCache options)|].
      intros t0 Hin. by apply Hkey, elem_of_fst_map_to_list.
  - intros requests w. by apply absent_team_steps.
  - intros requests w. by apply absent_team_resolutions.
Qed.

(** The scenario of [Reference.user42] and [Reference.user43], both of team
    10, for which the store holds nothing: after three resolutions on the
    cached path, with and without the entries reloaded, team 10 has no
    entry and the store was asked for it three times. *)
Lemma absent_team_is_never_cached_witness :
  cache (afterResolutions (Reference.service true)
           [(Reference.user43, Reference.noReload);
            (Reference.user42, Reference.noReload);
            (Reference.user43, Reference.reload)]
           Reference.emptyWorld)
    !! GetTeamPermissionCacheKey 10 1 = None
  ∧ teamCallsFor 10
      (storeCalls (afterResolutions (Reference.service true)
                     [(Reference.user43, Reference.noReload);
                      (Reference.user42, Reference.noReload);
                      (Reference.user43, Reference.reload)]
                     Reference.emptyWorld))
    = 3%nat.
Proof.
  assert (∀ query,
            (Store.GetTeamsPermissions (store (Reference.service true)) query).1
              !! 10 = None) as Hstore.
  { intros query. simpl. unfold Reference.teamsOf.
    apply map_lookup_filter_None_2. left. simpl.
    by destruct (bool_decide _). }
  destruct (absent_team_is_never_cached (Reference.service true) 1 10 Hstore
              (λ t, Reference_team_key_inj 1 t 10)) as (_ & _ & Hlater).
  refine (Hlater [(Reference.user43, Reference.noReload);
                  (Reference.user42, Reference.noReload);
                  (Reference.user43, Reference.reload)]
                 Reference.emptyWorld eq_refl _ eq_refl).
  intros request Hin.
  repeat (apply elem_of_cons in Hin as [->|Hin]);
    [| | |by apply elem_of_nil in Hin];
    (split_and!;
     [done | done | simpl; repeat constructor
     |intros role ->%list_elem_of_singleton; split; [done|];
      intros Hkey; vm_compute in Hkey; congruence
     |intros Hkey; vm_compute in Hkey; congruence]).
Defined.

(** A store whose answers for the basic roles fail. *)
Module Outage.

Definition noBasicRolesStore : Store :=
  {| Store.GetUserPermissions :=
       Store.GetUserPermissions (Reference.tableStore Reference.tables);
     Store.GetBasicRolesPermissions := λ _, ([], Some Reference.unavailable);
     Store.GetTeamsPermissions :=
       Store.GetTeamsPermissions (Reference.tableStore Reference.tables);
     Store.SearchUsersPermissions :=
       Store.SearchUsersPermissions (Reference.tableStore Reference.tables);
     Store.GetUsersBasicRoles :=
       Store.GetUsersBasicRoles (Reference.tableStore Reference.tables) |}.

Definition service : Service :=
  {| cfg_RBACPermissionCache := true;
     features := λ _, false;
     registrations := [];
     roles := {[ "Viewer" := Reference.viewer ]};
     store := noBasicRolesStore |}.

End Outage.

(** Not every resolution on the cached path for a principal of the team
    calls the store for it: over a store that holds nothing for team 10 and
    whose answers for the basic roles fail, a resolution for
    [Reference.user42], of team 10, stops at the basic roles; with and
    without [ReloadCache] team 10 has no entry afterwards and the store was
    not asked for it. *)
Lemma absent_team_is_never_cached_counterexample :
  HasUniqueId Reference.user42 = true
  ∧ 10 ∈ GetTeams Reference.user42
  ∧ (∀ query,
       (Store.GetTeamsPermissions (store Outage.service) query).1 !! 10 = None)
  ∧ (GetUserPermissions Outage.service Reference.user42 Reference.noReload
                        Reference.emptyWorld).1
    = ([], Some Reference.unavailable)
  ∧ cache (GetUserPermissions Outage.service Reference.user42
                              Reference.noReload Reference.emptyWorld).2
      !! GetTeamPermissionCacheKey 10 1 = None
  ∧ teamCallsFor 10
      (storeCalls (GetUserPermissions Outage.service Reference.user42
                                      Reference.noReload
                                      Reference.emptyWorld).2)
    = 0%nat
  ∧ teamCallsFor 10
      (storeCalls (GetUserPermissions Outage.service Reference.user42
                                      Reference.reload
                                      Reference.emptyWorld).2)
    = 0%nat.
Proof.
  split_and!; try by vm_compute.
  - left.
  - intros query. simpl. unfold Reference.teamsOf.
    apply map_lookup_filter_None_2. left. simpl.
    by destruct (bool_decide _).
Qed.
